(** * docling-rag-server: a shallow embedding of the conversion service

    The development follows [docling-rag-server.py]:

    - Python values, dictionaries and exceptions ([Py]);
    - the objects handed back by the document library (documents, chunks,
      provenance items), read through [hasattr]/[getattr] in the source and
      modelled as records with optional fields ([Docling]);
    - the calls into the document library, the tokenizer, the spreadsheet
      reader, the clock and [pathlib], gathered in one record of externals;
    - the per-chunk metadata assembly of [/convert-chunked] and of the
      background job: the passages that are the same text in both loops are
      transcribed once, the two loop bodies separately;
    - the request handlers as functions on a world made of the job store,
      the temporary directories on disk and a log of side effects, and the
      informational endpoints as the bodies they send;
    - the background job [process_chunking_job] as a statement-level step
      machine that can be interleaved with client requests. *)

From stdpp Require Import gmap strings list fin_maps sorting pretty.

#[local] Set Warnings "-register-all,-clear-no-such-hyp".
#[local] Open Scope Z_scope.

(** ** Python values *)

Module Py.

(** JSON-like values, as stored in dictionaries and returned by handlers.
    Floats and other objects that are only passed through (bounding-box
    coordinates, character spans, exported metadata) are carried as values of
    this type without being inspected. *)
Inductive pyval :=
| PNone
| PBool (b : bool)
| PInt (z : Z)
| PStr (s : string)
| PList (l : list pyval)
| PDict (d : gmap string pyval).

(** A dictionary with string keys. *)
Abbreviation pydict := (gmap string pyval).

(** Exceptions that the modelled code can meet. [Raised] carries the message
    of an exception thrown by a library call. *)
Inductive exn :=
| KeyError (key : string)
| FileNotFoundError (path : string)
| Raised (msg : string).

(** [str(e)]: a [KeyError] prints the [repr] of its key. *)
Definition str_exn (e : exn) : string :=
  match e with
  | KeyError k => "'" +:+ k +:+ "'"
  | FileNotFoundError p => "[Errno 2] No such file or directory: '" +:+ p +:+ "'"
  | Raised m => m
  end.

(** Computations that may raise. *)
Abbreviation result := (sum exn).

#[global] Instance result_ret : MRet result := λ A x, inr x.
#[global] Instance result_bind : MBind result :=
  λ A B f m, match m with inl e => inl e | inr a => f a end.
(** The same outcome, with a function applied to a returned value. *)
Definition rmap {A B} (f : A → B) (m : result A) : result B :=
  match m with inl e => inl e | inr a => inr (f a) end.

(** [len(s)] on a string. *)
Definition len_str (s : string) : Z := Z.of_nat (String.length s).

(** [sorted(list(s))] for a set of integers and for a set of strings. *)
Definition sorted_ints (s : gset Z) : list Z := merge_sort Z.le (elements s).

Definition str_le (a b : string) : Prop := String.leb a b = true.
#[global] Instance str_le_dec a b : Decision (str_le a b) :=
  decide (String.leb a b = true).

Definition sorted_strs (s : gset string) : list string :=
  merge_sort str_le (elements s).

(** [sep.join(parts)]. *)
Definition join (sep : string) (parts : list string) : string :=
  String.concat sep parts.

(** [not attr.startswith('_')]. *)
Definition is_public (attr : string) : bool :=
  negb (String.prefix "_" attr).

End Py.
Import Py.

(** ** Objects of the document library *)

Module Docling.

(** [prov.bbox]: every coordinate is read with [getattr(..., default)]. *)
Record BBox := {
  bbox_l : option pyval;
  bbox_t : option pyval;
  bbox_r : option pyval;
  bbox_b : option pyval;
  bbox_coord_origin : option pyval;
}.

(** One provenance entry of a document item; [None] is a missing attribute. *)
Record Prov := {
  page_no : option Z;
  bbox : option BBox;
  charspan : option pyval;
  sheet_name : option string;
  page_name : option string;
}.

(** A document item: [prov] is [Some] when the attribute exists and is a
    list. *)
Record DocItem := {
  prov : option (list Prov);
  label : option pyval;
}.

(** [chunk.meta]. [meta_str] is [str(chunk.meta)], [meta_dir] is
    [dir(chunk.meta)]. *)
Record Meta := {
  doc_items : option (list DocItem);
  export_json_dict : option pyval;
  meta_str : string;
  meta_dir : list string;
}.

Record Chunk := {
  text : string;
  meta : option Meta;
  chunk_dir : list string;
}.

(** The converted document: its Markdown export, [len(doc.pages)] when the
    attribute exists, and the page numbers found through [doc.main_text] when
    that path of attributes exists. *)
Record Doc := {
  export_to_markdown : string;
  pages : option nat;
  main_text : option (list (option Z));
}.

(** [HuggingFaceTokenizer(tokenizer=AutoTokenizer.from_pretrained(model),
    max_tokens=n)]. *)
Record Tokenizer := HuggingFaceTokenizer {
  tok_model : string;
  tok_max_tokens : Z;
}.

(** [HybridChunker(tokenizer=t, merge_peers=b)]. *)
Record Chunker := HybridChunker {
  chunker_tokenizer : Tokenizer;
  merge_peers : bool;
}.

End Docling.
Import Docling.

(** ** Calls that leave the program *)

(** Everything the server delegates: [pathlib], the converter, the chunker,
    the tokenizer, [openpyxl], [mimetypes] and the clock. A conversion is
    determined by the name and the bytes of the file it reads. *)
Record externals := {
  suffix_lower : string → string;
  stem : string → string;
  convert : string → string → result Doc;
  chunk : Chunker → Doc → result (list Chunk);
  contextualize : Chunker → Chunk → result string;
  has_count_tokens : bool;
  count_tokens : Tokenizer → string → result Z;
  sheetnames : string → string → option (list string);
  guess_type : string → option string;
  isoformat : nat → string;
}.

(** ** Module-level constants *)

Definition EMBED_MODEL_ID : string :=
  "sentence-transformers/paraphrase-multilingual-MiniLM-L12-v2".
Definition MAX_TOKENS : Z := 512.

Definition tokenizer : Tokenizer := HuggingFaceTokenizer EMBED_MODEL_ID MAX_TOKENS.
Definition chunker : Chunker := HybridChunker tokenizer true.

Definition SUPPORTED_EXTENSIONS : list (string * string) :=
  [ (".pdf", "PDF 문서"); (".docx", "Word 문서"); (".xlsx", "Excel 스프레드시트");
    (".pptx", "PowerPoint 프레젠테이션"); (".html", "HTML 파일"); (".htm", "HTML 파일");
    (".md", "Markdown 파일"); (".txt", "텍스트 파일"); (".json", "JSON 파일");
    (".xml", "XML 파일"); (".csv", "CSV 파일"); (".jpg", "JPEG 이미지");
    (".jpeg", "JPEG 이미지"); (".png", "PNG 이미지"); (".gif", "GIF 이미지");
    (".bmp", "BMP 이미지") ].

(** [ext in SUPPORTED_EXTENSIONS]. *)
Definition supported (ext : string) : bool :=
  bool_decide (ext ∈ SUPPORTED_EXTENSIONS.*1).

(** [SUPPORTED_EXTENSIONS.get(ext, "알 수 없음")]. *)
Definition file_type (ext : string) : string :=
  default "알 수 없음" ((list_to_map SUPPORTED_EXTENSIONS : gmap string string) !! ext).

Definition unsupported_detail : string :=
  "지원되지 않는 파일 형식입니다. 지원 형식: " +:+ join ", " SUPPORTED_EXTENSIONS.*1.

(** ** Chunk metadata assembly *)

(** The three accumulators of the provenance walk: [page_numbers = set()],
    [bbox_data = []] and [sheet_names = set()]. *)
Record prov_acc := {
  page_numbers : gset Z;
  bbox_data : list pyval;
  sheet_names : gset string;
}.

Definition empty_acc : prov_acc :=
  {| page_numbers := ∅; bbox_data := []; sheet_names := ∅ |}.

(** The [bbox] sub-dictionary, each coordinate read with its default. *)
Definition bbox_dict (b : BBox) : pydict :=
  <["coord_origin" := default (PStr "BOTTOMLEFT") (bbox_coord_origin b)]>
  (<["b" := default (PInt 0) (bbox_b b)]>
  (<["r" := default (PInt 0) (bbox_r b)]>
  (<["t" := default (PInt 0) (bbox_t b)]>
  (<["l" := default (PInt 0) (bbox_l b)]> ∅)))).

(** Body of [for prov in doc_item.prov]: a positive [page_no] adds the page
    and one bounding-box entry; then a sheet name is taken from [sheet_name],
    or else from [page_name]. *)
Definition visit_prov (item : DocItem) (acc : prov_acc) (p : Prov) : prov_acc :=
  let acc1 :=
    match page_no p with
    | Some n =>
        if bool_decide (0 < n) then
          let bbox_info : pydict :=
            <["label" := default (PStr "unknown") (label item)]>
              (<["page" := PInt n]> ∅) in
          let bbox_info :=
            match bbox p with
            | Some b => <["bbox" := PDict (bbox_dict b)]> bbox_info
            | None => bbox_info
            end in
          let bbox_info :=
            match charspan p with
            | Some c => <["charspan" := c]> bbox_info
            | None => bbox_info
            end in
          {| page_numbers := {[n]} ∪ page_numbers acc;
             bbox_data := bbox_data acc ++ [PDict bbox_info];
             sheet_names := sheet_names acc |}
        else acc
    | None => acc
    end in
  match sheet_name p, page_name p with
  | Some s, _ | None, Some s =>
      {| page_numbers := page_numbers acc1;
         bbox_data := bbox_data acc1;
         sheet_names := {[s]} ∪ sheet_names acc1 |}
  | None, None => acc1
  end.

(** Body of [for doc_item in chunk.meta.doc_items]. *)
Definition visit_item (acc : prov_acc) (item : DocItem) : prov_acc :=
  match prov item with
  | Some ps => foldl (visit_prov item) acc ps
  | None => acc
  end.

(** The provenance walk over one chunk. The text of this walk is the same in
    [convert_file_chunked] (lines 300-338) and in [process_chunking_job]
    (lines 502-539). *)
Definition collect_provenance (c : Chunk) : prov_acc :=
  match meta c with
  | Some m =>
      match doc_items m with
      | Some items => foldl visit_item empty_acc items
      | None => empty_acc
      end
  | None => empty_acc
  end.

(** [for page_no in sorted(page_numbers): if page_no <= len(excel_sheets):
    matched_sheets.append(excel_sheets[page_no - 1])]. Page numbers in the
    set are positive, so the index is in range whenever the test passes. *)
Definition match_sheets (excel_sheets : list string) (pages : list Z) : list string :=
  flat_map (λ page_no,
    if bool_decide (page_no ≤ Z.of_nat (length excel_sheets))
    then option_list (excel_sheets !! Z.to_nat (page_no - 1))
    else []) pages.

(** [x[0] if len(x) == 1 else y]. *)
Definition single_or (x : list string) (y : list string) : pyval :=
  match x with
  | [s] => PStr s
  | _ => PList (PStr <$> y)
  end.

(** The page, sheet and section fields of a chunk record, by file type. The
    text is the same in [convert_file_chunked] (lines 342-370) and in
    [process_chunking_job] (lines 542-570). *)
Definition provenance_fields (file_extension : string) (excel_sheets : list string)
    (i : nat) (acc : prov_acc) (chunk_info : pydict) : pydict :=
  if bool_decide (file_extension = ".xlsx") then
    let chunk_info := <["pages" := PList []]> (<["page_info" := PList []]> chunk_info) in
    if bool_decide (sheet_names acc ≠ ∅) then
      <["sheet" := single_or (elements (sheet_names acc)) (sorted_strs (sheet_names acc))]>
        (<["sheet_names" := PList (PStr <$> sorted_strs (sheet_names acc))]> chunk_info)
    else if bool_decide (excel_sheets ≠ [] ∧ page_numbers acc ≠ ∅) then
      let matched_sheets := match_sheets excel_sheets (sorted_ints (page_numbers acc)) in
      if bool_decide (matched_sheets ≠ []) then
        <["sheet_index" := PList (PInt <$> sorted_ints (page_numbers acc))]>
          (<["sheet" := single_or matched_sheets matched_sheets]>
            (<["sheet_names" := PList (PStr <$> matched_sheets)]> chunk_info))
      else chunk_info
    else chunk_info
  else if bool_decide (page_numbers acc ≠ ∅) then
    <["pages" := PList (PInt <$> sorted_ints (page_numbers acc))]>
      (<["page_info" := PList (PInt <$> sorted_ints (page_numbers acc))]> chunk_info)
  else
    <["section_index" := PInt (Z.of_nat i + 1)]>
      (<["pages" := PList []]> (<["page_info" := PList []]> chunk_info)).

(** [if max_tokens and max_tokens != MAX_TOKENS: ... else: active_chunker =
    chunker]. *)
Definition select_chunker (max_tokens : option Z) : Chunker :=
  match max_tokens with
  | Some n =>
      if bool_decide (n ≠ 0 ∧ n ≠ MAX_TOKENS)
      then HybridChunker (HuggingFaceTokenizer EMBED_MODEL_ID n) true
      else chunker
  | None => chunker
  end.

(** [max_tokens or MAX_TOKENS]. *)
Definition max_tokens_or_default (max_tokens : option Z) : Z :=
  match max_tokens with
  | Some n => if bool_decide (n = 0) then MAX_TOKENS else n
  | None => MAX_TOKENS
  end.

(** [for i, chunk in enumerate(chunks): ...; chunk_data.append(chunk_info)],
    stopping at the first exception. *)
Fixpoint chunk_loop (body : nat → Chunk → result pydict) (i : nat)
    (chunks : list Chunk) : result (list pyval) :=
  match chunks with
  | [] => mret []
  | c :: rest =>
      chunk_info ← body i c;
      chunk_data ← chunk_loop body (S i) rest;
      mret (PDict chunk_info :: chunk_data)
  end.

Section Assembly.
Context (X : externals).

(** [tokenizer.count_tokens(chunk.text) if hasattr(tokenizer, 'count_tokens')
    else None], on the module-level [tokenizer]. *)
Definition token_count (txt : string) : result pyval :=
  if has_count_tokens X
  then n ← count_tokens X tokenizer txt; mret (PInt n)
  else mret PNone.

(** The first fields of a chunk record, up to [metadata]; both loops start
    with the same dictionary literal and the same two conditionals. *)
Definition chunk_info_head (do_contextualize : bool) (active_chunker : Chunker)
    (i : nat) (c : Chunk) : result pydict :=
  tc ← token_count (text c);
  let chunk_info : pydict :=
    <["token_count" := tc]>
    (<["text_length" := PInt (len_str (text c))]>
    (<["text" := PStr (text c)]>
    (<["chunk_id" := PInt (Z.of_nat i + 1)]> ∅))) in
  chunk_info ←
    (if do_contextualize then
       enriched_text ← contextualize X active_chunker c;
       mret (<["contextualized_length" := PInt (len_str enriched_text)]>
             (<["contextualized_text" := PStr enriched_text]> chunk_info))
     else mret chunk_info);
  mret (match meta c with
        | Some m =>
            <["metadata" := default (PStr (meta_str m)) (export_json_dict m)]> chunk_info
        | None => chunk_info
        end).

(** Loop body of [convert_file_chunked] (lines 275-374). *)
Definition chunk_info_sync (file_extension : string) (excel_sheets : list string)
    (do_contextualize : bool) (active_chunker : Chunker)
    (i : nat) (c : Chunk) : result pydict :=
  chunk_info ← chunk_info_head do_contextualize active_chunker i c;
  let chunk_info :=
    <["debug_chunk_attrs" := PList (PStr <$> List.filter is_public (chunk_dir c))]>
      chunk_info in
  let chunk_info :=
    match meta c with
    | Some m =>
        <["debug_meta_attrs" := PList (PStr <$> List.filter is_public (meta_dir m))]>
          chunk_info
    | None => chunk_info
    end in
  let acc := collect_provenance c in
  let chunk_info := provenance_fields file_extension excel_sheets i acc chunk_info in
  mret (<["bbox_info" := PList (bbox_data acc)]> chunk_info).

(** Loop body of [process_chunking_job] (lines 483-575). *)
Definition chunk_info_async (file_extension : string) (excel_sheets : list string)
    (do_contextualize : bool) (active_chunker : Chunker)
    (i : nat) (c : Chunk) : result pydict :=
  chunk_info ← chunk_info_head do_contextualize active_chunker i c;
  let acc := collect_provenance c in
  let chunk_info := provenance_fields file_extension excel_sheets i acc chunk_info in
  mret (<["bbox_info" := PList (bbox_data acc)]> chunk_info).

(** [chunking_config] of a result payload. *)
Definition chunking_config (max_tokens : option Z) (do_contextualize : bool) : pydict :=
  <["contextualize" := PBool do_contextualize]>
  (<["merge_peers" := PBool true]>
  (<["max_tokens" := PInt (max_tokens_or_default max_tokens)]>
  (<["tokenizer" := PStr EMBED_MODEL_ID]> ∅))).

(** [total_pages] of [file_metadata] (lines 393-402). *)
Definition total_pages (doc : Doc) : Z :=
  match pages doc with
  | Some (S n) => Z.of_nat (S n)
  | _ =>
      match main_text doc with
      | Some items => foldl (λ max_page p, Z.max max_page (default max_page p)) 0 items
      | None => 0
      end
  end.

(** [response_data["file_metadata"]]. *)
Definition file_metadata (filename content file_extension : string) (doc : Doc) : pydict :=
  <["total_pages" := if bool_decide (0 < total_pages doc) then PInt (total_pages doc) else PNone]>
  (<["extension" := PStr file_extension]>
  (<["mime_type" := from_option PStr PNone (guess_type X filename)]>
  (<["original_file_size" := PInt (len_str content)]> ∅))).

End Assembly.

(** ** The world: job store, disk and observable effects *)

(** Who performed an effect: a request handler or the background job. *)
Inductive actor := Handler | Background.

(** Side effects that the properties below talk about. *)
Inductive event :=
| EvMkdtemp (dir : string)
| EvWrite (dir name : string)
| EvConvert (dir name : string)
| EvChunk (max_tokens : Z)
| EvRmtree (who : actor) (dir : string)
| EvAddTask (job_id : string).

(** [job_store] is the module-level dictionary of job dictionaries; [disk]
    maps each existing temporary directory to the files it holds. *)
Record world := {
  job_store : gmap string pydict;
  disk : gmap string (gmap string string);
  log : list event;
  clock : nat;
}.

Definition with_store (f : gmap string pydict → gmap string pydict) (w : world) : world :=
  {| job_store := f (job_store w); disk := disk w; log := log w; clock := clock w |}.

Definition with_disk (f : gmap string (gmap string string) → gmap string (gmap string string))
    (w : world) : world :=
  {| job_store := job_store w; disk := f (disk w); log := log w; clock := clock w |}.

Definition emit (ev : event) (w : world) : world :=
  {| job_store := job_store w; disk := disk w; log := log w ++ [ev]; clock := clock w |}.

Definition tick (w : world) : world :=
  {| job_store := job_store w; disk := disk w; log := log w; clock := S (clock w) |}.

(** Code that runs against the world and may raise; the effects made before
    the exception stay. *)
Definition M (A : Type) : Type := world → result A * world.

#[global] Instance M_ret : MRet M := λ A x w, (inr x, w).
#[global] Instance M_bind : MBind M :=
  λ A B f m w, match m w with
               | (inl e, w') => (inl e, w')
               | (inr a, w') => f a w'
               end.

Definition lift {A} (r : result A) : M A := λ w, (r, w).
Definition effect (f : world → world) : M unit := λ w, (inr (), f w).

(** [tempfile.mkdtemp()], the name being chosen by the system. *)
Definition mkdtemp (dir : string) (w : world) : world :=
  emit (EvMkdtemp dir) (with_disk <[dir := ∅]> w).

(** [os.path.exists(dir)]. *)
Definition path_exists (dir : string) (w : world) : bool :=
  bool_decide (is_Some (disk w !! dir)).

(** [shutil.rmtree(dir)]: raises when the directory is not there. *)
Definition rmtree (who : actor) (dir : string) : M unit := λ w,
  if path_exists dir w
  then (inr (), emit (EvRmtree who dir) (with_disk (delete dir) w))
  else (inl (FileNotFoundError dir), w).

(** Leaving [with tempfile.TemporaryDirectory() as temp_dir]. *)
Definition cleanup (dir : string) (w : world) : world :=
  if path_exists dir w then emit (EvRmtree Handler dir) (with_disk (delete dir) w) else w.

(** [with open(os.path.join(dir, name), "wb") as buffer: buffer.write(..)]. *)
Definition write_file (dir name content : string) : M unit := λ w,
  match disk w !! dir with
  | Some files =>
      (inr (), emit (EvWrite dir name) (with_disk <[dir := <[name := content]> files]> w))
  | None => (inl (FileNotFoundError (dir +:+ "/" +:+ name)), w)
  end.

(** The bytes of a stored upload, when its directory still exists. *)
Definition read_file (dir name : string) (w : world) : option string :=
  files ← disk w !! dir; files !! name.

Section Adapter.
Context (X : externals).

(** [doc_converter.convert(path).document]. *)
Definition doc_converter_convert (dir name : string) : M Doc := λ w,
  (match read_file dir name w with
   | Some content => convert X name content
   | None => inl (FileNotFoundError (dir +:+ "/" +:+ name))
   end, emit (EvConvert dir name) w).

(** [list(c.chunk(dl_doc=doc))]. *)
Definition chunker_chunk (c : Chunker) (doc : Doc) : M (list Chunk) := λ w,
  (chunk X c doc, emit (EvChunk (tok_max_tokens (chunker_tokenizer c))) w).

(** The [openpyxl] block: sheet names of an [.xlsx] upload, [[]] when the
    extension differs or when reading fails (the exception is caught). *)
Definition read_excel_sheets (file_extension dir name : string) (w : world) : list string :=
  if bool_decide (file_extension = ".xlsx") then
    default [] (content ← read_file dir name w; sheetnames X name content)
  else [].

End Adapter.

(** ** Requests and responses *)

Record UploadFile := {
  filename : string;
  content : string;
}.

Inductive payload :=
| Text (s : string)
| Zip (entries : gmap string string).

(** What a handler hands back: a raised [HTTPException], a dictionary
    (sent as JSON with status 200) or an explicit [Response]. *)
Inductive response :=
| HTTPException (status_code : Z) (detail : string)
| JSON (body : pydict)
| Response (body : payload) (media_type : string) (headers : list (string * string)).

Definition nl : string := String (Ascii.ascii_of_nat 10) EmptyString.

(** [f"## 청크 {i+1}\n\n{body}\n"]. *)
Definition chunk_heading (i : nat) (body : string) : string :=
  "## 청크 " +:+ pretty (Z.of_nat i + 1) +:+ nl +:+ nl +:+ body +:+ nl.

Section Markdown.
Context (X : externals).

(** [for i, chunk in enumerate(chunks): markdown_parts.append(...)], with
    the module-level [chunker]. *)
Fixpoint markdown_parts (do_contextualize : bool) (i : nat) (chunks : list Chunk)
    : result (list string) :=
  match chunks with
  | [] => mret []
  | c :: rest =>
      part ← (if do_contextualize
              then enriched_text ← contextualize X chunker c;
                   mret (chunk_heading i enriched_text)
              else mret (chunk_heading i (text c)));
      parts ← markdown_parts do_contextualize (S i) rest;
      mret (part :: parts)
  end.

(** The conversion of one stored file to Markdown text, as in [/convert]
    and in the loop of [/convert-multiple]. *)
Definition to_markdown (use_chunking do_contextualize : bool) (doc : Doc) : M string :=
  if use_chunking then
    chunks ← chunker_chunk X chunker doc;
    parts ← lift (markdown_parts do_contextualize 0 chunks);
    mret (join nl parts)
  else mret (export_to_markdown doc).

End Markdown.

(** ** Request handlers *)

Inductive output_format := zip | json.

Section Handlers.
Context (X : externals).

(** [excel_sheets] as a step of a handler. *)
Definition get_excel_sheets (file_extension dir name : string) : M (list string) :=
  λ w, (inr (read_excel_sheets X file_extension dir name w), w).

(** [POST /convert] (lines 126-210). The extension is checked before the
    temporary directory is entered. *)
Definition convert_file (temp_dir : string) (file : UploadFile)
    (output_filename : option string)
    (include_metadata use_chunking do_contextualize : bool)
    (w : world) : response * world :=
  let file_extension := suffix_lower X (filename file) in
  if negb (supported file_extension) then
    (HTTPException 400 unsupported_detail, w)
  else
    let w := mkdtemp temp_dir w in
    let '(r, w) :=
      (write_file temp_dir (filename file) (content file);;
       doc ← doc_converter_convert X temp_dir (filename file);
       final_content ← to_markdown X use_chunking do_contextualize doc;
       let output_filename :=
         match output_filename with
         | Some n => if bool_decide (n = "") then stem X (filename file) else n
         | None => stem X (filename file)
         end in
       mret (Response (Text final_content) "text/markdown"
               [("Content-Disposition",
                 "attachment; filename=" +:+ output_filename +:+ ".md")])) w in
    let w := cleanup temp_dir w in
    match r with
    | inr resp => (resp, w)
    | inl e =>
        (HTTPException 500 ("파일 변환 중 오류가 발생했습니다: " +:+ str_exn e), w)
    end.

(** [POST /convert-chunked] (lines 212-419). A failure inside the [try]
    block is answered with a [success: False] dictionary. *)
Definition convert_file_chunked (temp_dir : string) (file : UploadFile)
    (include_metadata do_contextualize : bool) (max_tokens : option Z)
    (w : world) : response * world :=
  let file_extension := suffix_lower X (filename file) in
  if negb (supported file_extension) then
    (HTTPException 400 unsupported_detail, w)
  else
    let w := mkdtemp temp_dir w in
    let '(r, w) :=
      (write_file temp_dir (filename file) (content file);;
       let active_chunker := select_chunker max_tokens in
       doc ← doc_converter_convert X temp_dir (filename file);
       excel_sheets ← get_excel_sheets file_extension temp_dir (filename file);
       chunks ← chunker_chunk X active_chunker doc;
       chunk_data ← lift (chunk_loop
         (chunk_info_sync X file_extension excel_sheets do_contextualize active_chunker)
         0 chunks);
       let response_data : pydict :=
         <["chunks" := PList chunk_data]>
         (<["chunking_config" := PDict (chunking_config max_tokens do_contextualize)]>
         (<["total_chunks" := PInt (Z.of_nat (length chunks))]>
         (<["file_type" := PStr (file_type file_extension)]>
         (<["filename" := PStr (filename file)]>
         (<["success" := PBool true]> ∅))))) in
       let response_data :=
         if include_metadata then
           <["file_metadata" :=
               PDict (file_metadata X (filename file) (content file) file_extension doc)]>
             response_data
         else response_data in
       mret response_data) w in
    let w := cleanup temp_dir w in
    match r with
    | inr response_data => (JSON response_data, w)
    | inl e =>
        (JSON (<["filename" := PStr (filename file)]>
              (<["error" := PStr (str_exn e)]>
              (<["success" := PBool false]> ∅))), w)
    end.

(** The job dictionary stored by [/convert-chunked-async] (lines 662-671). *)
Definition new_job (job_id temp_dir : string) (file : UploadFile) (now : string) : pydict :=
  <["temp_dir" := PStr temp_dir]>
  (<["created_at" := PStr now]>
  (<["file_size" := PInt (len_str (content file))]>
  (<["filename" := PStr (filename file)]>
  (<["message" := PStr "작업 대기 중..."]>
  (<["progress" := PInt 0]>
  (<["status" := PStr "queued"]>
  (<["job_id" := PStr job_id]> ∅))))))).

(** [POST /convert-chunked-async] (lines 623-702). [job_id] stands for
    [str(uuid.uuid4())] and [temp_dir] for the result of [mkdtemp]. *)
Definition convert_file_chunked_async (job_id temp_dir : string) (file : UploadFile)
    (include_metadata do_contextualize : bool) (max_tokens : option Z)
    (w : world) : response * world :=
  let file_extension := suffix_lower X (filename file) in
  if negb (supported file_extension) then
    (HTTPException 400 unsupported_detail, w)
  else
    let w := mkdtemp temp_dir w in
    let '(r, w) :=
      (write_file temp_dir (filename file) (content file);;
       now ← (λ w, (inr (isoformat X (clock w)), w));
       effect (with_store <[job_id := new_job job_id temp_dir file now]>);;
       effect (emit (EvAddTask job_id));;
       mret (<["created_at" := PStr now]>
            (<["file_size" := PInt (len_str (content file))]>
            (<["filename" := PStr (filename file)]>
            (<["message" :=
                PStr "작업이 시작되었습니다. /job/{job_id} 엔드포인트로 상태를 확인하세요."]>
            (<["status" := PStr "queued"]>
            (<["job_id" := PStr job_id]> (∅ : pydict)))))))) w in
    match r with
    | inr body => (JSON body, w)
    | inl e =>
        let w := if path_exists temp_dir w then snd (rmtree Handler temp_dir w) else w in
        (HTTPException 500 ("작업 생성 중 오류가 발생했습니다: " +:+ str_exn e), w)
    end.

(** [job.get(key)]. *)
Definition dict_get (key : string) (d : pydict) : pyval := default PNone (d !! key).

(** Whether [job["status"]] is the given string. *)
Definition status_is (s : string) (job : pydict) : bool :=
  match job !! "status" with
  | Some (PStr s') => bool_decide (s' = s)
  | _ => false
  end.

(** [GET /job/{job_id}] (lines 704-743), on a copy of the job dictionary. An
    entry without [status] would raise a [KeyError], answered with 500. *)
Definition get_job_status (job_id : string) (w : world) : response :=
  match job_store w !! job_id with
  | None =>
      HTTPException 404 ("작업 ID '" +:+ job_id +:+ "'를 찾을 수 없습니다.")
  | Some job =>
      match job !! "status" with
      | None => HTTPException 500 "Internal Server Error"
      | Some status =>
          let response : pydict :=
            <["created_at" := dict_get "created_at" job]>
            (<["filename" := dict_get "filename" job]>
            (<["message" := default (PStr "") (job !! "message")]>
            (<["progress" := default (PInt 0) (job !! "progress")]>
            (<["status" := status]>
            (<["job_id" := PStr job_id]> ∅))))) in
          if status_is "completed" job then
            JSON (<["result" := dict_get "result" job]>
                 (<["completed_at" := dict_get "completed_at" job]> response))
          else if status_is "failed" job then
            JSON (<["error" := dict_get "error" job]>
                 (<["failed_at" := dict_get "failed_at" job]> response))
          else JSON response
      end
  end.

(** [DELETE /job/{job_id}] (lines 745-768): the directory is removed only
    when it is recorded and still exists, then the entry is deleted. *)
Definition delete_job (job_id : string) (w : world) : response * world :=
  match job_store w !! job_id with
  | None =>
      (HTTPException 404 ("작업 ID '" +:+ job_id +:+ "'를 찾을 수 없습니다."), w)
  | Some job =>
      let '(r, w) :=
        match job !! "temp_dir" with
        | Some (PStr temp_dir) =>
            if path_exists temp_dir w then rmtree Handler temp_dir w else (inr (), w)
        | _ => (inr (), w)
        end in
      match r with
      | inl e => (HTTPException 500 "Internal Server Error", w)
      | inr _ =>
          (JSON (<["job_id" := PStr job_id]>
                (<["message" := PStr ("작업 " +:+ job_id +:+ "가 삭제되었습니다.")]> ∅)),
           with_store (delete job_id) w)
      end
  end.

(** Loop state of [/convert-multiple]: [results] and [converted_files]. *)
Definition batch_state : Type := list pyval * gmap string string.

(** The [try] block for one file of [/convert-multiple]; it returns the
    updated [converted_files] and the success entry, or raises. The entry of
    [converted_files] is written before [chunks_count] is computed. *)
Definition convert_one (temp_dir : string) (use_chunking do_contextualize : bool)
    (file : UploadFile) (converted_files : gmap string string)
    : world → (gmap string string * result pyval) * world := λ w,
  let '(r, w) :=
    (write_file temp_dir (filename file) (content file);;
     doc ← doc_converter_convert X temp_dir (filename file);
     final_content ← to_markdown X use_chunking do_contextualize doc;
     mret (doc, final_content)) w in
  match r with
  | inl e => ((converted_files, inl e), w)
  | inr (doc, final_content) =>
      let base_name := stem X (filename file) in
      let converted_files := <[base_name +:+ ".md" := final_content]> converted_files in
      let '(count, w) :=
        (if use_chunking
         then chunks ← chunker_chunk X chunker doc; mret (Z.of_nat (length chunks))
         else mret 1) w in
      match count with
      | inl e => ((converted_files, inl e), w)
      | inr n =>
          ((converted_files,
            inr (PDict (<["chunks_count" := PInt n]>
                       (<["content_length" := PInt (len_str final_content)]>
                       (<["output_filename" := PStr (base_name +:+ ".md")]>
                       (<["success" := PBool true]>
                       (<["filename" := PStr (filename file)]> ∅))))))), w)
      end
  end.

(** Body of [for file in files] in [/convert-multiple] (lines 813-870). *)
Definition batch_step (temp_dir : string) (use_chunking do_contextualize : bool)
    (st : batch_state * world) (file : UploadFile) : batch_state * world :=
  let '((results, converted_files), w) := st in
  let file_extension := suffix_lower X (filename file) in
  if negb (supported file_extension) then
    ((results ++ [PDict (<["error" := PStr "지원되지 않는 파일 형식"]>
                        (<["success" := PBool false]>
                        (<["filename" := PStr (filename file)]> ∅)))],
      converted_files), w)
  else
    let '((converted_files, r), w) :=
      convert_one temp_dir use_chunking do_contextualize file converted_files w in
    match r with
    | inr entry => ((results ++ [entry], converted_files), w)
    | inl e =>
        ((results ++ [PDict (<["error" := PStr (str_exn e)]>
                            (<["success" := PBool false]>
                            (<["filename" := PStr (filename file)]> ∅)))],
          converted_files), w)
    end.

(** [POST /convert-multiple] (lines 792-901). *)
Definition convert_multiple_files (temp_dir : string) (files : list UploadFile)
    (fmt : output_format) (use_chunking do_contextualize : bool)
    (w : world) : response * world :=
  if bool_decide (10 < length files)%nat then
    (HTTPException 400 "한 번에 최대 10개 파일까지 처리 가능합니다.", w)
  else
    let w := mkdtemp temp_dir w in
    let '((results, converted_files), w) :=
      foldl (batch_step temp_dir use_chunking do_contextualize) (([], ∅), w) files in
    let w := cleanup temp_dir w in
    match fmt with
    | json =>
        (JSON (<["converted_content" := PDict (PStr <$> converted_files)]>
              (<["results" := PList results]>
              (<["contextualize_applied" := PBool do_contextualize]>
              (<["chunking_applied" := PBool use_chunking]>
              (<["successful_conversions" := PInt (Z.of_nat (size converted_files))]>
              (<["total_files" := PInt (Z.of_nat (length files))]> ∅)))))), w)
    | zip =>
        if bool_decide (converted_files ≠ ∅) then
          (Response (Zip converted_files) "application/zip"
             [("Content-Disposition", "attachment; filename=docling_converted_files.zip")],
           w)
        else (HTTPException 400 "변환 가능한 파일이 없습니다.", w)
    end.

End Handlers.

(** ** Informational endpoints and the job listing *)

(** [SUPPORTED_EXTENSIONS] as the dictionary that is sent in a body. *)
Definition supported_extensions_dict : pydict :=
  PStr <$> (list_to_map SUPPORTED_EXTENSIONS : gmap string string).

(** [len(SUPPORTED_EXTENSIONS)]. *)
Definition supported_count : Z :=
  Z.of_nat (size (list_to_map SUPPORTED_EXTENSIONS : gmap string string)).

(** [GET /] (lines 80-112). *)
Definition root : response :=
  JSON (<["async_workflow" := PDict
           (<["steps" := PList (PStr <$>
               [ "1. POST /convert-chunked-async - 파일 업로드 및 job_id 수신";
                 "2. GET /job/{job_id} - 작업 상태 polling (status: queued/processing/completed/failed)";
                 "3. status가 'completed'면 result에서 청크 데이터 획득";
                 "4. DELETE /job/{job_id} - 작업 정리 (선택사항)" ])]>
           (<["description" :=
               PStr "대용량 파일 처리 시 타임아웃 방지를 위한 비동기 워크플로우"]> ∅))]>
       (<["endpoints" := PDict
           (<["health" := PStr "/health - 서버 상태 확인"]>
           (<["delete-job" := PStr "DELETE /job/{job_id} - 작업 삭제 및 정리"]>
           (<["jobs" := PStr "/jobs - 모든 작업 목록 조회"]>
           (<["job-status" := PStr "/job/{job_id} - 비동기 작업 상태 조회"]>
           (<["convert-multiple" := PStr "/convert-multiple - 여러 파일을 일괄 변환"]>
           (<["convert-chunked-async" :=
               PStr "/convert-chunked-async - 파일을 청크별로 변환 (비동기, 대용량 파일용)"]>
           (<["convert-chunked" := PStr "/convert-chunked - 파일을 청크별로 변환 (동기)"]>
           (<["convert" := PStr "/convert - 파일을 Markdown으로 변환"]> ∅))))))))]>
       (<["chunking" := PDict
           (<["contextualize" := PBool true]>
           (<["max_tokens" := PInt MAX_TOKENS]>
           (<["tokenizer" := PStr EMBED_MODEL_ID]>
           (<["engine" := PStr "HybridChunker"]> ∅))))]>
       (<["supported_formats" := PDict supported_extensions_dict]>
       (<["status" := PStr "running"]>
       (<["message" := PStr "Docling Document Converter API"]> ∅)))))).

(** [GET /health] (lines 114-124). *)
Definition health_check (w : world) : response :=
  JSON (<["active_jobs" := PInt (Z.of_nat (size (job_store w)))]>
       (<["max_tokens" := PInt MAX_TOKENS]>
       (<["tokenizer" := PStr EMBED_MODEL_ID]>
       (<["supported_files" := PInt supported_count]>
       (<["library" := PStr "Docling with HybridChunker"]>
       (<["status" := PStr "healthy"]> ∅)))))).

(** The entry of [/jobs] for one job dictionary (lines 777-783);
    [job["status"]] raises a [KeyError] when the key is missing. *)
Definition job_summary (job_id : string) (job : pydict) : result pyval :=
  match job !! "status" with
  | Some status =>
      inr (PDict (<["created_at" := dict_get "created_at" job]>
                 (<["filename" := dict_get "filename" job]>
                 (<["progress" := default (PInt 0) (job !! "progress")]>
                 (<["status" := status]>
                 (<["job_id" := PStr job_id]> ∅))))))
  | None => inl (KeyError "status")
  end.

(** [for job_id, job in job_store.items(): jobs.append(...)]. *)
Fixpoint jobs_loop (items : list (string * pydict)) : result (list pyval) :=
  match items with
  | [] => mret []
  | (job_id, job) :: rest =>
      entry ← job_summary job_id job;
      jobs ← jobs_loop rest;
      mret (entry :: jobs)
  end.

(** [GET /jobs] (lines 770-788). The source walks the dictionary in
    insertion order, which the store as a finite map does not record: the
    entries come in the order of [map_to_list], and what is proved about the
    listing does not depend on their order. An exception that leaves the
    handler is answered with status 500. *)
Definition list_jobs (w : world) : response :=
  match jobs_loop (map_to_list (job_store w)) with
  | inr jobs =>
      JSON (<["jobs" := PList jobs]>
           (<["total_jobs" := PInt (Z.of_nat (length jobs))]> ∅))
  | inl e => HTTPException 500 "Internal Server Error"
  end.

(** The [categories] of [/supported-formats] (lines 909-914). *)
Definition categories : list (string * list string) :=
  [ ("documents", [".pdf"; ".docx"; ".pptx"; ".xlsx"]);
    ("web", [".html"; ".htm"; ".md"; ".csv"; ".json"; ".xml"]);
    ("images", [".jpg"; ".jpeg"; ".png"; ".gif"; ".bmp"]);
    ("text", [".txt"]) ].

(** [GET /supported-formats] (lines 903-921). *)
Definition get_supported_formats : response :=
  JSON (<["chunking_info" := PDict
           (<["features" :=
               PList (PStr <$> ["contextualize"; "merge_peers"; "hierarchical_chunking"])]>
           (<["default_max_tokens" := PInt MAX_TOKENS]>
           (<["tokenizer" := PStr EMBED_MODEL_ID]>
           (<["engine" := PStr "HybridChunker"]> ∅))))]>
       (<["categories" := PDict
           ((λ exts, PList (PStr <$> exts)) <$> (list_to_map categories : gmap string (list string)))]>
       (<["total_formats" := PInt supported_count]>
       (<["supported_extensions" := PDict supported_extensions_dict]> ∅)))).

(** [GET /chunking-info] (lines 923-942). *)
Definition get_chunking_info : response :=
  JSON (<["supported_operations" := PList (PStr <$>
           [ "chunk(dl_doc): 문서를 청크로 분할";
             "contextualize(chunk): 청크의 컨텍스트 강화" ])]>
       (<["features" := PDict
           (<["hierarchical_chunking" := PStr "문서 구조를 고려한 계층적 청킹"]>
           (<["merge_peers" := PStr "인접한 유사한 청크를 병합"]>
           (<["contextualize" := PStr "청크의 컨텍스트를 메타데이터로 강화"]> ∅)))]>
       (<["tokenizer" := PDict
           (<["type" := PStr "HuggingFaceTokenizer"]>
           (<["max_tokens" := PInt MAX_TOKENS]>
           (<["model" := PStr EMBED_MODEL_ID]> ∅)))]>
       (<["chunker_type" := PStr "HybridChunker"]> ∅)))).

(** ** The background job *)

(** Keyword arguments given to [background_tasks.add_task]; [file_path] is
    kept as the pair joined by [os.path.join]. *)
Record job_args := {
  arg_job_id : string;
  arg_file_path : string * string;
  arg_filename : string;
  arg_file_extension : string;
  arg_include_metadata : bool;
  arg_contextualize : bool;
  arg_max_tokens : option Z;
}.

(** Program points of [process_chunking_job], named after the source line of
    the statement about to run. [L435]-[L602] are the [try] block,
    [L607]-[L610] the [except] block, [L614]-[L618] the [finally] block. *)
Inductive point :=
| L435 | L436 | L440 | L441 | L442 | L447 | L448 | L462 | L474 | L475 | L476
| L480 | L481 | L482 | L598 | L599 | L600 | L601 | L602
| L607 | L608 | L609 | L610
| L614 | L615 | L618
| Finished.

#[global] Instance point_eq_dec : EqDecision point.
Proof. solve_decision. Defined.

(** Local variables of the running job. [caught] is the [e] of the [except]
    clause; [pending] is an exception that escaped the [except] or [finally]
    block and leaves the function uncaught. *)
Record task := {
  pc : point;
  doc : option Doc;
  active_chunker : Chunker;
  excel_sheets : list string;
  chunks : list Chunk;
  result_data : pydict;
  caught : option exn;
  pending : option exn;
  temp_dir : pyval;
}.

Definition init_task : task :=
  {| pc := L435; doc := None; active_chunker := chunker; excel_sheets := [];
     chunks := []; result_data := ∅; caught := None; pending := None;
     temp_dir := PNone |}.

Definition goto (l : point) (t : task) : task :=
  {| pc := l; doc := doc t; active_chunker := active_chunker t;
     excel_sheets := excel_sheets t; chunks := chunks t;
     result_data := result_data t; caught := caught t; pending := pending t;
     temp_dir := temp_dir t |}.

(** An exception inside the [try] block enters the [except] clause. *)
Definition catch (e : exn) (t : task) : task :=
  {| pc := L607; doc := doc t; active_chunker := active_chunker t;
     excel_sheets := excel_sheets t; chunks := chunks t;
     result_data := result_data t; caught := Some e; pending := pending t;
     temp_dir := temp_dir t |}.

(** An exception inside the [except] clause runs the [finally] block and is
    raised again after it; inside the [finally] block it ends the function. *)
Definition escape (l : point) (e : exn) (t : task) : task :=
  {| pc := l; doc := doc t; active_chunker := active_chunker t;
     excel_sheets := excel_sheets t; chunks := chunks t;
     result_data := result_data t; caught := caught t; pending := Some e;
     temp_dir := temp_dir t |}.

(** [job_store[job_id][key] = v]: the outer lookup raises [KeyError] when the
    entry has been deleted. *)
Definition store_set (job_id key : string) (v : pyval) : M unit := λ w,
  match job_store w !! job_id with
  | Some job => (inr (), with_store <[job_id := <[key := v]> job]> w)
  | None => (inl (KeyError job_id), w)
  end.

(** A statement of the [try] block. *)
Definition in_try (next : point) (t : task) (r : result unit * world) : task * world :=
  match r with
  | (inr _, w) => (goto next t, w)
  | (inl e, w) => (catch e t, w)
  end.

(** A statement of the [except] block. *)
Definition in_except (next : point) (t : task) (r : result unit * world) : task * world :=
  match r with
  | (inr _, w) => (goto next t, w)
  | (inl e, w) => (escape L614 e t, w)
  end.

(** Truth value of [temp_dir and os.path.exists(temp_dir)]. *)
Definition temp_dir_exists (v : pyval) (w : world) : option string :=
  match v with
  | PStr d => if bool_decide (d ≠ "") && path_exists d w then Some d else None
  | _ => None
  end.

Section Job.
Context (X : externals).

(** Lines 482-595: the chunk records and the result dictionary. *)
Definition job_result_data (a : job_args) (t : task) : result pydict :=
  chunk_data ← chunk_loop
    (chunk_info_async X (arg_file_extension a) (excel_sheets t)
       (arg_contextualize a) (active_chunker t)) 0 (chunks t);
  let result_data : pydict :=
    <["chunks" := PList chunk_data]>
    (<["chunking_config" :=
        PDict (chunking_config (arg_max_tokens a) (arg_contextualize a))]>
    (<["total_chunks" := PInt (Z.of_nat (length (chunks t)))]>
    (<["file_type" := PStr (file_type (arg_file_extension a))]>
    (<["filename" := PStr (arg_filename a)]>
    (<["success" := PBool true]> ∅))))) in
  mret (if bool_decide (arg_file_extension a = ".xlsx" ∧ excel_sheets t ≠ []) then
          <["total_sheets" := PInt (Z.of_nat (length (excel_sheets t)))]>
            (<["excel_sheets" := PList (PStr <$> excel_sheets t)]> result_data)
        else result_data).

(** One statement of [process_chunking_job] (lines 423-621). *)
Definition task_step (a : job_args) (t : task) (w : world) : task * world :=
  let id := arg_job_id a in
  let '(dir, name) := arg_file_path a in
  match pc t with
  | L435 => in_try L436 t (store_set id "status" (PStr "processing") w)
  | L436 => in_try L440 t (store_set id "progress" (PInt 10) w)
  | L440 => in_try L441 t (store_set id "progress" (PInt 30) w)
  | L441 => in_try L442 t (store_set id "message" (PStr "문서 변환 중...") w)
  | L442 =>
      match doc_converter_convert X dir name w with
      | (inr d, w) =>
          ({| pc := L447; doc := Some d; active_chunker := active_chunker t;
              excel_sheets := excel_sheets t; chunks := chunks t;
              result_data := result_data t; caught := caught t;
              pending := pending t; temp_dir := temp_dir t |}, w)
      | (inl e, w) => (catch e t, w)
      end
  | L447 => in_try L448 t (store_set id "progress" (PInt 40) w)
  | L448 =>
      ({| pc := L462; doc := doc t;
          active_chunker := select_chunker (arg_max_tokens a);
          excel_sheets := excel_sheets t; chunks := chunks t;
          result_data := result_data t; caught := caught t;
          pending := pending t; temp_dir := temp_dir t |}, w)
  | L462 =>
      ({| pc := L474; doc := doc t; active_chunker := active_chunker t;
          excel_sheets := read_excel_sheets X (arg_file_extension a) dir name w;
          chunks := chunks t; result_data := result_data t; caught := caught t;
          pending := pending t; temp_dir := temp_dir t |}, w)
  | L474 => in_try L475 t (store_set id "progress" (PInt 60) w)
  | L475 => in_try L476 t (store_set id "message" (PStr "청킹 중...") w)
  | L476 =>
      match doc t with
      | Some d =>
          match chunker_chunk X (active_chunker t) d w with
          | (inr cs, w) =>
              ({| pc := L480; doc := doc t; active_chunker := active_chunker t;
                  excel_sheets := excel_sheets t; chunks := cs;
                  result_data := result_data t; caught := caught t;
                  pending := pending t; temp_dir := temp_dir t |}, w)
          | (inl e, w) => (catch e t, w)
          end
      | None => (catch (Raised "local variable 'doc' referenced before assignment") t, w)
      end
  | L480 => in_try L481 t (store_set id "progress" (PInt 80) w)
  | L481 => in_try L482 t (store_set id "message" (PStr "청크 메타데이터 처리 중...") w)
  | L482 =>
      match job_result_data a t with
      | inr rd =>
          ({| pc := L598; doc := doc t; active_chunker := active_chunker t;
              excel_sheets := excel_sheets t; chunks := chunks t;
              result_data := rd; caught := caught t;
              pending := pending t; temp_dir := temp_dir t |}, w)
      | inl e => (catch e t, w)
      end
  | L598 => in_try L599 t (store_set id "progress" (PInt 100) w)
  | L599 => in_try L600 t (store_set id "status" (PStr "completed") w)
  | L600 => in_try L601 t (store_set id "message" (PStr "처리 완료") w)
  | L601 => in_try L602 t (store_set id "result" (PDict (result_data t)) w)
  | L602 => in_try L614 t (store_set id "completed_at" (PStr (isoformat X (clock w))) w)
  | L607 => in_except L608 t (store_set id "status" (PStr "failed") w)
  | L608 => in_except L609 t (store_set id "progress" (PInt 0) w)
  | L609 =>
      in_except L610 t
        (store_set id "error" (PStr (from_option str_exn "" (caught t))) w)
  | L610 => in_except L614 t (store_set id "failed_at" (PStr (isoformat X (clock w))) w)
  | L614 =>
      match job_store w !! id with
      | Some job =>
          ({| pc := L615; doc := doc t; active_chunker := active_chunker t;
              excel_sheets := excel_sheets t; chunks := chunks t;
              result_data := result_data t; caught := caught t;
              pending := pending t; temp_dir := dict_get "temp_dir" job |}, w)
      | None => (escape Finished (KeyError id) t, w)
      end
  | L615 =>
      match temp_dir_exists (temp_dir t) w with
      | Some _ => (goto L618 t, w)
      | None => (goto Finished t, w)
      end
  | L618 =>
      match temp_dir t with
      | PStr d => (goto Finished t, snd (rmtree Background d w))
      | _ => (goto Finished t, w)
      end
  | Finished => (t, w)
  end.

(** ** Interleaving with client requests *)

(** The job runs in a worker thread next to the request handlers. A schedule
    lists, in order, the statements of the job ([Run]) and the [DELETE
    /job/{id}] requests served in between. Polling does not change the
    world and can be placed at any point of a schedule. *)
Inductive action :=
| Run
| Delete (job_id : string).

Definition act (a : job_args) (s : task * world) (ev : action) : task * world :=
  match ev with
  | Run => let '(t, w) := task_step a s.1 s.2 in (t, tick w)
  | Delete id => (s.1, tick (delete_job id s.2).2)
  end.

Definition run (a : job_args) (s : task * world) (sched : list action) : task * world :=
  foldl (act a) s sched.

(** All states visited by a schedule, the first one included. *)
Fixpoint trace (a : job_args) (s : task * world) (sched : list action)
    : list (task * world) :=
  s :: match sched with
       | [] => []
       | ev :: rest => trace a (act a s ev) rest
       end.

(** The job left alone: every statement in turn until the function ends,
    which takes at most 26 statements on any path. *)
Definition process_chunking_job (a : job_args) (w : world) : task * world :=
  run a (init_task, w) (replicate 26 Run).

(** The arguments passed to [add_task] by [/convert-chunked-async]. *)
Definition submitted_args (job_id temp_dir : string) (file : UploadFile)
    (include_metadata do_contextualize : bool) (max_tokens : option Z) : job_args :=
  {| arg_job_id := job_id;
     arg_file_path := (temp_dir, filename file);
     arg_filename := filename file;
     arg_file_extension := suffix_lower X (filename file);
     arg_include_metadata := include_metadata;
     arg_contextualize := do_contextualize;
     arg_max_tokens := max_tokens |}.

End Job.

(** ** A concrete instance of the externals

    Used to run the model on examples: an ASCII rendering of
    [Path(name).suffix.lower()] and [Path(name).stem], a converter that fails
    on empty files, a chunker that cuts the text after [max_tokens]
    characters, and a tokenizer that counts characters. *)

Module Demo.

Definition dot : Ascii.ascii := Ascii.ascii_of_nat 46.

Fixpoint rfind_dot (s : string) (i : nat) (best : option nat) : option nat :=
  match s with
  | EmptyString => best
  | String c rest => rfind_dot rest (S i) (if Ascii.eqb c dot then Some i else best)
  end.

Definition lower_ascii (c : Ascii.ascii) : Ascii.ascii :=
  let n := Ascii.nat_of_ascii c in
  if (65 <=? n)%nat && (n <=? 90)%nat then Ascii.ascii_of_nat (n + 32) else c.

Fixpoint lower (s : string) : string :=
  match s with
  | EmptyString => EmptyString
  | String c rest => String (lower_ascii c) (lower rest)
  end.

(** Index of the dot that starts the suffix, as [pathlib] finds it. *)
Definition suffix_index (name : string) : option nat :=
  match rfind_dot name 0 None with
  | Some i =>
      if (0 <? i)%nat && (i <? String.length name - 1)%nat then Some i else None
  | None => None
  end.

Definition ascii_suffix_lower (name : string) : string :=
  match suffix_index name with
  | Some i => lower (String.substring i (String.length name - i) name)
  | None => EmptyString
  end.

Definition ascii_stem (name : string) : string :=
  match suffix_index name with
  | Some i => String.substring 0 i name
  | None => name
  end.

Definition toy_convert (name content : string) : result Doc :=
  if bool_decide (content = "") then inl (Raised "empty document")
  else inr {| export_to_markdown := content; pages := None; main_text := None |}.

(** Two pieces: the first [max_tokens] characters, located on pages 2 and 1,
    and the remainder, without provenance. *)
Definition toy_chunk (c : Chunker) (d : Doc) : result (list Chunk) :=
  let n := Z.to_nat (tok_max_tokens (chunker_tokenizer c)) in
  let s := export_to_markdown d in
  let located (p : Z) : Prov :=
    {| page_no := Some p; bbox := None; charspan := None;
       sheet_name := None; page_name := None |} in
  inr [ {| text := String.substring 0 n s;
           meta := Some {| doc_items := Some [ {| prov := Some [located 2; located 1];
                                                  label := Some (PStr "text") |} ];
                           export_json_dict := None;
                           meta_str := "meta";
                           meta_dir := ["doc_items"; "_private"] |};
           chunk_dir := ["meta"; "text"; "__class__"] |};
        {| text := String.substring n (String.length s - n) s;
           meta := None;
           chunk_dir := ["text"] |} ].

Definition toy_contextualize (c : Chunker) (k : Chunk) : result string :=
  inr ("context: " +:+ text k).

(** The count depends on the tokenizer that computes it, so that the
    tokenizer in use shows in the result. *)
Definition toy_count_tokens (t : Tokenizer) (s : string) : result Z :=
  inr (tok_max_tokens t + len_str s).

Definition X : externals :=
  {| suffix_lower := ascii_suffix_lower;
     stem := ascii_stem;
     convert := toy_convert;
     chunk := toy_chunk;
     contextualize := toy_contextualize;
     has_count_tokens := true;
     count_tokens := toy_count_tokens;
     sheetnames := λ _ _, Some ["Sheet1"; "Sheet2"];
     guess_type := λ _, None;
     isoformat := λ n, pretty n |}.

Definition empty_world : world :=
  {| job_store := ∅; disk := ∅; log := []; clock := 0 |}.

Definition notes : UploadFile := {| filename := "notes.txt"; content := "hello world" |}.
Definition binary : UploadFile := {| filename := "setup.exe"; content := "MZ" |}.
Definition sheet : UploadFile := {| filename := "Book.XLSX"; content := "cells" |}.

End Demo.

(** * Vocabulary of the properties *)

(** [f] applied to a value that is a dictionary. *)
Definition on_dict (f : pydict → pydict) (v : pyval) : pyval :=
  match v with PDict d => PDict (f d) | _ => v end.

(** The keys written by [provenance_fields]. *)
Definition provenance_keys : list string :=
  ["page_info"; "pages"; "sheet_names"; "sheet"; "sheet_index"; "section_index"].

(** What a chunk record must show for its position [i] (counted from 0) in a
    file of extension [ext]. *)
Definition record_ok (ext : string) (i : nat) (d : pydict) : Prop :=
  d !! "chunk_id" = Some (PInt (Z.of_nat i + 1)) ∧
  ∃ ps, d !! "pages" = Some (PList (PInt <$> ps)) ∧
        Sorted Z.le ps ∧ (ext = ".xlsx" → ps = []).

Section Counting.
Context (X : externals).

(** [v] is the token count of [c] as computed by tokenizer [tk]. *)
Definition counted_by (tk : Tokenizer) (c : Chunk) (v : pyval) : Prop :=
  if has_count_tokens X
  then ∃ n, count_tokens X tk (text c) = inr n ∧ v = PInt n
  else v = PNone.

End Counting.

(** ** Vocabulary of the job lifecycle *)

(** The actors that removed [dir], in order, according to the log. *)
Definition releases (dir : string) (l : list event) : list actor :=
  omap (λ ev, match ev with
              | EvRmtree who d => if bool_decide (d = dir) then Some who else None
              | _ => None
              end) l.

(** [status] and [progress] of a job dictionary. *)
Definition fields (job : pydict) (status : string) (progress : Z) : Prop :=
  job !! "status" = Some (PStr status) ∧ job !! "progress" = Some (PInt progress).

(** Neither an outcome nor a terminal timestamp has been written. *)
Definition pristine (job : pydict) : Prop :=
  job !! "result" = None ∧ job !! "error" = None ∧
  job !! "completed_at" = None ∧ job !! "failed_at" = None.

(** How far the [try] block has got in binding its local variables. *)
Definition stage (p : point) : nat :=
  match p with
  | L447 | L448 => 1
  | L462 => 2
  | L474 | L475 | L476 => 3
  | L480 | L481 | L482 => 4
  | L598 | L599 | L600 | L601 | L602 => 5
  | _ => 0
  end.

(** The statuses in which a job stays for good. *)
Definition terminal (st : string) : bool :=
  bool_decide (st = "completed") || bool_decide (st = "failed").

(** Key [k] holds something other than [None]. *)
Definition written (k : string) (d : pydict) : Prop :=
  ∃ v, d !! k = Some v ∧ v ≠ PNone.

(** What holds of a job dictionary at every moment, whatever the statement
    the job is at: the outcome fields are written after the status they
    belong to, and the timestamps after the outcome. *)
Definition record_facts (job : pydict) : Prop :=
  ∃ st pr,
    fields job st pr ∧ 0 ≤ pr ≤ 100 ∧
    st ∈ ["queued"; "processing"; "completed"; "failed"] ∧
    (terminal st = false → pristine job) ∧
    (st = "completed" → pr = 100) ∧
    (is_Some (job !! "result") →
       (∃ rd, job !! "result" = Some (PDict rd)) ∧ st = "completed" ∧
       job !! "error" = None ∧ job !! "failed_at" = None) ∧
    (is_Some (job !! "completed_at") →
       (∃ ts, job !! "completed_at" = Some (PStr ts)) ∧ is_Some (job !! "result")) ∧
    (is_Some (job !! "error") →
       (∃ msg, job !! "error" = Some (PStr msg)) ∧ st = "failed" ∧ pr = 0 ∧
       job !! "result" = None ∧ job !! "completed_at" = None) ∧
    (is_Some (job !! "failed_at") →
       (∃ ts, job !! "failed_at" = Some (PStr ts)) ∧ is_Some (job !! "error")).

(** The job has left its [try] and [except] blocks. *)
Definition outcome_written (p : point) : bool :=
  match p with
  | L614 | L615 | L618 | Finished => true
  | _ => false
  end.

(** A bound on the statements left to run from a program point. *)
Definition steps_left (p : point) : nat :=
  match p with
  | L435 => 26 | L436 => 25 | L440 => 24 | L441 => 23 | L442 => 22
  | L447 => 21 | L448 => 20 | L462 => 19 | L474 => 18 | L475 => 17
  | L476 => 16 | L480 => 15 | L481 => 14 | L482 => 13 | L598 => 12
  | L599 => 11 | L600 => 10 | L601 => 9 | L602 => 8
  | L607 => 7 | L608 => 6 | L609 => 5 | L610 => 4
  | L614 => 3 | L615 => 2 | L618 => 1
  | Finished => 0
  end.

(** Number of job statements in a schedule. *)
Definition is_run (ev : action) : bool :=
  match ev with Run => true | Delete _ => false end.

Definition runs (sched : list action) : nat :=
  length (List.filter is_run sched).

Section Lifecycle.
Context (X : externals).
Context (id dir : string) (file : UploadFile).
Context (include_metadata do_contextualize : bool) (max_tokens : option Z).

Definition the_args : job_args :=
  submitted_args X id dir file include_metadata do_contextualize max_tokens.

(** The sheet names read from the stored upload. *)
Definition sheets_of_upload : list string :=
  if bool_decide (suffix_lower X (filename file) = ".xlsx")
  then default [] (sheetnames X (filename file) (content file))
  else [].

(** The local variables hold what the pipeline computes from the upload, as
    far as stage [n]. *)
Definition locals (n : nat) (t : task) : Prop :=
  ((1 ≤ n)%nat → ∃ d, doc t = Some d ∧ convert X (filename file) (content file) = inr d) ∧
  ((2 ≤ n)%nat → active_chunker t = select_chunker max_tokens) ∧
  ((3 ≤ n)%nat → excel_sheets t = sheets_of_upload) ∧
  ((4 ≤ n)%nat → ∃ d, doc t = Some d ∧ chunk X (active_chunker t) d = inr (chunks t)) ∧
  ((5 ≤ n)%nat → job_result_data X the_args t = inr (result_data t)).

(** A job dictionary after the last write of the [try] or [except] block. *)
Definition settled (t : task) (job : pydict) : Prop :=
  (fields job "completed" 100 ∧ job !! "result" = Some (PDict (result_data t)) ∧
   job !! "error" = None ∧ (∃ ts, job !! "completed_at" = Some (PStr ts)) ∧
   job !! "failed_at" = None ∧ locals 5 t)
  ∨
  (fields job "failed" 0 ∧ job !! "result" = None ∧
   (∃ msg, job !! "error" = Some (PStr msg)) ∧
   job !! "completed_at" = None ∧ (∃ ts, job !! "failed_at" = Some (PStr ts))).

(** What the job dictionary looks like when the job is about to run the
    statement at [p]. *)
Definition shape (p : point) (t : task) (job : pydict) : Prop :=
  match p with
  | L435 => fields job "queued" 0 ∧ pristine job
  | L436 => fields job "processing" 0 ∧ pristine job
  | L440 => fields job "processing" 10 ∧ pristine job
  | L441 | L442 | L447 => fields job "processing" 30 ∧ pristine job
  | L448 | L462 | L474 => fields job "processing" 40 ∧ pristine job
  | L475 | L476 | L480 => fields job "processing" 60 ∧ pristine job
  | L481 | L482 | L598 => fields job "processing" 80 ∧ pristine job
  | L599 => fields job "processing" 100 ∧ pristine job
  | L600 | L601 => fields job "completed" 100 ∧ pristine job
  | L602 =>
      fields job "completed" 100 ∧ job !! "result" = Some (PDict (result_data t)) ∧
      job !! "error" = None ∧ job !! "completed_at" = None ∧ job !! "failed_at" = None
  | L607 => (∃ pr, 30 ≤ pr ≤ 80 ∧ fields job "processing" pr) ∧ pristine job
  | L608 => (∃ pr, 30 ≤ pr ≤ 80 ∧ fields job "failed" pr) ∧ pristine job
  | L609 => fields job "failed" 0 ∧ pristine job
  | L610 =>
      fields job "failed" 0 ∧ job !! "result" = None ∧
      (∃ msg, job !! "error" = Some (PStr msg)) ∧
      job !! "completed_at" = None ∧ job !! "failed_at" = None
  | L614 | L615 | L618 | Finished => settled t job
  end.

(** No other job dictionary points at [dir]. *)
Definition dir_unshared (w : world) : Prop :=
  ∀ k job, job_store w !! k = Some job → k ≠ id → job !! "temp_dir" ≠ Some (PStr dir).

(** The upload as [/convert-chunked-async] stored it. *)
Definition upload_on_disk (w : world) : Prop :=
  disk w !! dir = Some (<[filename file := content file]> ∅).

(** The invariant of the interleaved system. While the entry exists, it has
    the shape of its program point, the locals are those of the pipeline and
    the directory is on disk until the job itself removes it; once the entry
    is gone, the directory is gone and was removed exactly once. *)
Definition inv (s : task * world) : Prop :=
  let '(t, w) := s in
  dir_unshared w ∧
  match job_store w !! id with
  | Some job =>
      job !! "temp_dir" = Some (PStr dir) ∧
      shape (pc t) t job ∧ locals (stage (pc t)) t ∧ pending t = None ∧
      match pc t with L615 | L618 => temp_dir t = PStr dir | _ => True end ∧
      if decide (pc t = Finished)
      then disk w !! dir = None ∧ releases dir (log w) = [Background]
      else upload_on_disk w ∧ releases dir (log w) = []
  | None => disk w !! dir = None ∧ ∃ who, releases dir (log w) = [who]
  end.

(** What the system guarantees about a directory name handed out by
    [mkdtemp]: it is not empty, no job dictionary mentions it and it has not
    been removed before. *)
Definition fresh_dir (w : world) : Prop :=
  dir ≠ "" ∧
  (∀ k job, job_store w !! k = Some job → job !! "temp_dir" ≠ Some (PStr dir)) ∧
  releases dir (log w) = [].

(** The world and the job right after [/convert-chunked-async] accepted the
    upload. *)
Definition submitted (w0 : world) : task * world :=
  (init_task,
   (convert_file_chunked_async X id dir file include_metadata do_contextualize
      max_tokens w0).2).

(** The job and the world after a schedule has run from there. *)
Definition reached (w0 : world) (sched : list action) : task * world :=
  run X the_args (submitted w0) sched.

(** The status and progress that [GET /job/{id}] reports in a world, when the
    entry exists. *)
Definition polled (w : world) : option (string * Z) :=
  match get_job_status id w with
  | JSON body =>
      match body !! "status", body !! "progress" with
      | Some (PStr st), Some (PInt pr) => Some (st, pr)
      | _, _ => None
      end
  | _ => None
  end.

(** The observations up to and including the first terminal one. *)
Fixpoint until_terminal (obs : list (string * Z)) : list (string * Z) :=
  match obs with
  | [] => []
  | o :: rest => if terminal o.1 then [o] else o :: until_terminal rest
  end.

(** The polls that a schedule makes possible: one observation per state in
    which the entry exists. *)
Definition observations (w0 : world) (sched : list action) : list (string * Z) :=
  omap (λ s, polled s.2) (trace X the_args (submitted w0) sched).

(** The confirmation returned by [DELETE /job/{id}]. *)
Definition delete_confirmation : response :=
  JSON (<["job_id" := PStr id]>
       (<["message" := PStr ("작업 " +:+ id +:+ "가 삭제되었습니다.")]> ∅)).

End Lifecycle.

(** ** Vocabulary of chunked results *)

(** A chunk record without its two debug fields. *)
Definition strip_debug (d : pydict) : pydict :=
  delete "debug_chunk_attrs" (delete "debug_meta_attrs" d).

Section Results.
Context (X : externals).

(** [rd] is the result of a chunked conversion of [file] with the given
    parameters: either the body of a [/convert-chunked] response, or the
    result found in the job store at some moment in the life of a job
    accepted by [/convert-chunked-async]. *)
Inductive chunked_result (file : UploadFile) (do_contextualize : bool)
    (max_tokens : option Z) : pydict → Prop :=
| sync_result dir include_metadata w body w' :
    convert_file_chunked X dir file include_metadata do_contextualize max_tokens w
      = (JSON body, w') →
    chunked_result file do_contextualize max_tokens body
| async_result id dir include_metadata w0 sched job rd :
    supported (suffix_lower X (filename file)) = true →
    fresh_dir dir w0 →
    job_store
      (reached X id dir file include_metadata do_contextualize max_tokens w0 sched).2
      !! id = Some job →
    job !! "result" = Some (PDict rd) →
    chunked_result file do_contextualize max_tokens rd.

(** The fields that the two result payloads have in common, for a
    conversion that produced [n] chunks. *)
Definition common_fields (file : UploadFile) (do_contextualize : bool)
    (max_tokens : option Z) (n : nat) : pydict :=
  <["chunking_config" := PDict (chunking_config max_tokens do_contextualize)]>
  (<["total_chunks" := PInt (Z.of_nat n)]>
  (<["file_type" := PStr (file_type (suffix_lower X (filename file)))]>
  (<["filename" := PStr (filename file)]>
  (<["success" := PBool true]> ∅)))).

(** What [/convert-chunked] adds to its payload. *)
Definition sync_extras (file : UploadFile) (include_metadata : bool) (doc : Doc)
    (payload : pydict) : pydict :=
  if include_metadata then
    <["file_metadata" := PDict (file_metadata X (filename file) (content file)
                                  (suffix_lower X (filename file)) doc)]> payload
  else payload.

(** What the background job adds to its payload. *)
Definition async_extras (file : UploadFile) (payload : pydict) : pydict :=
  if bool_decide (suffix_lower X (filename file) = ".xlsx" ∧ sheets_of_upload X file ≠ [])
  then <["total_sheets" := PInt (Z.of_nat (length (sheets_of_upload X file)))]>
         (<["excel_sheets" := PList (PStr <$> sheets_of_upload X file)]> payload)
  else payload.

End Results.

(** ** Vocabulary of request rejection *)

(** A response with a 400-class status. *)
Definition client_error (r : response) : Prop :=
  ∃ code detail, r = HTTPException code detail ∧ 400 ≤ code < 500.

(** The handler answers with a 400-class error and leaves the world as it
    found it: no directory, no job record, no call to the adapter. *)
Definition rejects_untouched (handler : world → response * world) : Prop :=
  ∀ w, client_error (handler w).1 ∧ (handler w).2 = w.

(** The entry that [/convert-multiple] records for a file it skips. *)
Definition skipped_entry (file : UploadFile) : pyval :=
  PDict (<["error" := PStr "지원되지 않는 파일 형식"]>
        (<["success" := PBool false]>
        (<["filename" := PStr (filename file)]> ∅))).

Section Batch.
Context (X : externals).

(** The events of a batch conversion: files written and converted have a
    supported extension, and nothing else but chunking happens. *)
Definition batch_event (ev : event) : Prop :=
  match ev with
  | EvWrite _ name | EvConvert _ name => supported (suffix_lower X name) = true
  | EvChunk _ => True
  | _ => False
  end.

(** The Markdown text of a converted document, or the exception met on the
    way. *)
Definition markdown_of (use_chunking do_contextualize : bool) (doc : Doc)
    : result string :=
  if use_chunking then
    chunks ← chunk X chunker doc;
    parts ← markdown_parts X do_contextualize 0 chunks;
    mret (join nl parts)
  else mret (export_to_markdown doc).

(** A file that [/convert-multiple] can turn into Markdown. *)
Definition convertible (use_chunking do_contextualize : bool) (file : UploadFile) : Prop :=
  supported (suffix_lower X (filename file)) = true ∧
  ∃ doc md, convert X (filename file) (content file) = inr doc ∧
            markdown_of use_chunking do_contextualize doc = inr md.

End Batch.

(** ** Scenarios on the concrete instance *)

Module Scenario.
Import Demo.

(** A job identifier and two directory names, as [uuid4] and [mkdtemp]
    could return them. *)
Definition jid : string := "7c9e6679".
Definition tmp : string := "/tmp/tmpk3x9".
Definition tmp' : string := "/tmp/tmpq72b".

(** Two schedules for an accepted asynchronous request for [notes.txt] in
    an empty world: the job left alone until it ends, and the record deleted
    by the client after two statements of the job. *)
Definition undisturbed : list action := replicate 26 Run.
Definition interrupted : list action := [Run; Run; Delete jid] ++ replicate 26 Run.

Abbreviation ended :=
  (reached X jid tmp notes false true None empty_world undisturbed).
Abbreviation cut_short :=
  (reached X jid tmp notes false true None empty_world interrupted).

(** The job stopped right after it has written the status [completed]. *)
Definition sixteen : list action := replicate 16 Run.
Abbreviation midway :=
  (reached X jid tmp notes false true None empty_world sixteen).

(** The same job with a custom token limit. *)
Abbreviation ended_custom :=
  (reached X jid tmp notes false true (Some 5) empty_world undisturbed).

(** The stored record, the stored result and the body of a response. *)
Definition record_of (s : task * world) : pydict := default ∅ (job_store s.2 !! jid).
Definition result_of (s : task * world) : pydict :=
  match record_of s !! "result" with
  | Some (PDict rd) => rd
  | _ => ∅
  end.
Definition body_of (r : response) : pydict :=
  match r with
  | JSON body => body
  | _ => ∅
  end.
Definition chunks_of (payload : pydict) : list pyval :=
  match payload !! "chunks" with
  | Some (PList recs) => recs
  | _ => []
  end.

(** The synchronous conversion of the same upload. *)
Abbreviation sync_reply :=
  (convert_file_chunked X tmp' notes false true None empty_world).

(** The synchronous conversion of a spreadsheet. *)
Abbreviation sheet_reply :=
  (convert_file_chunked X tmp' sheet false true None empty_world).

(** A batch made of one unsupported file. *)
Abbreviation batch_reply fmt :=
  (convert_multiple_files X tmp' [binary] fmt false true empty_world).

End Scenario.

(** ** Vocabulary of the further properties *)

Section Pipeline.
Context (X : externals).
Context (id dir : string) (file : UploadFile).
Context (include_metadata do_contextualize : bool) (max_tokens : option Z).

(** What the statements of the job compute from the stored upload when
    nothing interferes: the conversion, the chunking and the record loop in
    turn, each one able to raise. *)
Definition job_outcome : result pydict :=
  d ← convert X (filename file) (content file);
  cs ← chunk X (select_chunker max_tokens) d;
  recs ← chunk_loop
    (chunk_info_async X (suffix_lower X (filename file)) (sheets_of_upload X file)
       do_contextualize (select_chunker max_tokens)) 0 cs;
  mret (async_extras X file
          (<["chunks" := PList recs]>
             (common_fields X file do_contextualize max_tokens (length cs)))).

(** The exception that sent the job into its [except] clause is the one the
    pipeline raises, and so is the message stored under [error]. *)
Definition blamed (s : task * world) : Prop :=
  ∀ job, job_store s.2 !! id = Some job →
    match pc s.1 with
    | L607 | L608 | L609 => ∃ e, caught s.1 = Some e ∧ job_outcome = inl e
    | _ => ∀ msg, job !! "error" = Some (PStr msg) →
                  ∃ e, job_outcome = inl e ∧ msg = str_exn e
    end.

End Pipeline.

Section SyncPipeline.
Context (X : externals).
Context (file : UploadFile) (include_metadata do_contextualize : bool)
        (max_tokens : option Z).

(** What the [try] block of [/convert-chunked] computes from the upload:
    the conversion, the chunking and the record loop in turn. *)
Definition sync_outcome : result pydict :=
  d ← convert X (filename file) (content file);
  cs ← chunk X (select_chunker max_tokens) d;
  recs ← chunk_loop
    (chunk_info_sync X (suffix_lower X (filename file)) (sheets_of_upload X file)
       do_contextualize (select_chunker max_tokens)) 0 cs;
  mret (sync_extras X file include_metadata d
          (<["chunks" := PList recs]>
             (common_fields X file do_contextualize max_tokens (length cs)))).

(** The body with which [/convert-chunked] reports an exception. *)
Definition failure_body (msg : string) : pydict :=
  <["filename" := PStr (filename file)]>
  (<["error" := PStr msg]>
  (<["success" := PBool false]> ∅)).


End SyncPipeline.

Section BatchOutputs.
Context (X : externals) (use_chunking do_contextualize : bool).




End BatchOutputs.

(** ** Vocabulary of the job's writes *)

(** The fields that the statements of [process_chunking_job] assign in the
    job dictionary, with the values they can take. *)
Definition job_write (k : string) (v : pyval) : Prop :=
  (k = "status" ∧ ∃ s, v = PStr s ∧ s ∈ ["processing"; "completed"; "failed"]) ∨
  (k = "progress" ∧ ∃ p, v = PInt p ∧ p ∈ [0; 10; 30; 40; 60; 80; 100]) ∨
  (k = "message" ∧ ∃ m, v = PStr m) ∨
  (k = "result" ∧ ∃ rd, v = PDict rd) ∨
  (k = "completed_at" ∧ ∃ ts, v = PStr ts) ∨
  (k = "error" ∧ ∃ m, v = PStr m) ∨
  (k = "failed_at" ∧ ∃ ts, v = PStr ts).

(** The fields that [/convert-chunked-async] stores and that identify the
    job and its upload. *)
Definition identity_keys : list string :=
  ["job_id"; "filename"; "file_size"; "created_at"; "temp_dir"].


(** What stays true of the record of a job accepted at time [ts] for
    [file], stored in [dir]. *)
Definition kept_fields (id dir : string) (file : UploadFile) (ts : string)
    (job : pydict) : Prop :=
  job !! "job_id" = Some (PStr id) ∧
  job !! "filename" = Some (PStr (filename file)) ∧
  job !! "file_size" = Some (PInt (len_str (content file))) ∧
  job !! "temp_dir" = Some (PStr dir) ∧
  job !! "created_at" = Some (PStr ts) ∧
  ∃ p, job !! "progress" = Some (PInt p) ∧ p ∈ [0; 10; 30; 40; 60; 80; 100].

(** ** Vocabulary of chunk records *)

(** The page of an entry of [bbox_info]. *)
Definition bbox_page (b : pyval) : option Z :=
  match b with
  | PDict e => match e !! "page" with Some (PInt n) => Some n | _ => None end
  | _ => None
  end.

(** The [sheet] field for a list of sheet names: the name itself when there
    is one, the list otherwise. *)
Definition sheet_field (names : list string) : pyval :=
  match names with
  | [s] => PStr s
  | _ => PList (PStr <$> names)
  end.

(** How a record of a file that is not a spreadsheet locates its chunk: by
    its pages when it has some, and else by the rank of the chunk. *)
Definition paged_or_sectioned (i : nat) (d : pydict) : Prop :=
  d !! "sheet_names" = None ∧ d !! "sheet" = None ∧ d !! "sheet_index" = None ∧
  d !! "page_info" = d !! "pages" ∧
  ((∃ ps, ps ≠ [] ∧ d !! "pages" = Some (PList (PInt <$> ps)) ∧
          d !! "section_index" = None) ∨
   (d !! "pages" = Some (PList []) ∧
    d !! "section_index" = Some (PInt (Z.of_nat i + 1)))).

(** How a record of a spreadsheet locates its chunk: never by pages or by
    rank, and by sheet names when some could be found. *)
Definition sheet_located (d : pydict) : Prop :=
  d !! "section_index" = None ∧
  d !! "page_info" = Some (PList []) ∧ d !! "pages" = Some (PList []) ∧
  ((d !! "sheet_names" = None ∧ d !! "sheet" = None ∧ d !! "sheet_index" = None) ∨
   (∃ names, names ≠ [] ∧
      d !! "sheet_names" = Some (PList (PStr <$> names)) ∧
      d !! "sheet" = Some (sheet_field names) ∧
      (d !! "sheet_index" = None ∨
       ∃ idx, d !! "sheet_index" = Some (PList (PInt <$> idx)) ∧
              Sorted Z.le idx ∧ (length names ≤ length idx)%nat))).

(** The walk over the provenance entries keeps the pages and the bounding
    boxes together: every entry of [bbox_data] has a positive page, and the
    pages collected are the pages of these entries. *)
Definition pages_backed (acc : prov_acc) : Prop :=
  Forall (λ b, ∃ n, bbox_page b = Some n ∧ 0 < n) (bbox_data acc) ∧
  ∀ n, n ∈ page_numbers acc ↔ Some n ∈ bbox_page <$> bbox_data acc.

(** The number of jobs that [GET /health] reports. *)
Definition active_jobs (w : world) : Z :=
  match health_check w with
  | JSON body => match body !! "active_jobs" with Some (PInt n) => n | _ => -1 end
  | _ => -1
  end.

(** The job has not yet read [temp_dir] in its [finally] block. *)
Definition before_cleanup (p : point) : bool :=
  match p with
  | L615 | L618 | Finished => false
  | _ => true
  end.

(** The record of the job is gone, and the job is on its way to an
    unhandled [KeyError], or has ended with it. *)
Definition doomed (id : string) (s : task * world) : Prop :=
  job_store s.2 !! id = None ∧
  (before_cleanup (pc s.1) = true ∨
   (pc s.1 = Finished ∧ pending s.1 = Some (KeyError id))).

(** The order in which a job goes through its statuses. *)
Definition status_rank (st : string) : nat :=
  if bool_decide (st = "queued") then 0
  else if bool_decide (st = "processing") then 1
  else 2.

(** Status [b] can be seen after status [a]: a job does not go back, and a
    terminal status is final. *)
Definition status_follows (a b : string) : Prop :=
  (status_rank a ≤ status_rank b)%nat ∧ (terminal a = true → b = a).



Section Stages.
Context (X : externals).
Context (id : string) (file : UploadFile).
Context (do_contextualize : bool) (max_tokens : option Z).

(** The message of the last stage that the pipeline enters on the upload:
    the stage that raises, or the final one. *)
Definition last_stage_message : string :=
  match convert X (filename file) (content file) with
  | inl _ => "문서 변환 중..."
  | inr d =>
      match chunk X (select_chunker max_tokens) d with
      | inl _ => "청킹 중..."
      | inr cs =>
          match chunk_loop
                  (chunk_info_async X (suffix_lower X (filename file))
                     (sheets_of_upload X file) do_contextualize
                     (select_chunker max_tokens)) 0 cs with
          | inl _ => "청크 메타데이터 처리 중..."
          | inr _ => "처리 완료"
          end
      end
  end.

(** The message of the record at each program point of the job. *)
Definition staged (s : task * world) : Prop :=
  ∀ job, job_store s.2 !! id = Some job →
    match pc s.1 with
    | L435 | L436 | L440 | L441 => True
    | L442 | L447 | L448 | L462 | L474 | L475 =>
        job !! "message" = Some (PStr "문서 변환 중...")
    | L476 | L480 | L481 => job !! "message" = Some (PStr "청킹 중...")
    | L482 | L598 | L599 | L600 =>
        job !! "message" = Some (PStr "청크 메타데이터 처리 중...")
    | _ => job !! "message" = Some (PStr last_stage_message)
    end.

End Stages.

(** ** Further scenarios on the concrete instance *)

Module Cases.
Import Demo Scenario.

(** An upload that the converter refuses, and a second upload with the
    stem of [notes.txt]. *)
Definition blank : UploadFile := {| filename := "blank.md"; content := "" |}.

(** The job for [blank.md] left alone until it ends. *)
Abbreviation ended_blank :=
  (reached X jid tmp blank false true None empty_world undisturbed).

(** The job for [notes.txt] right after the submission. *)
Abbreviation queued :=
  (reached X jid tmp notes false true None empty_world []).

(** The record deleted after two statements of the job, which then runs to
    its end. *)
Definition early : list action := [Run; Run].
Abbreviation started :=
  (reached X jid tmp notes false true None empty_world early).
Abbreviation abandoned :=
  (reached X jid tmp notes false true None empty_world
     (early ++ Delete jid :: undisturbed)).

(** The synchronous conversions of [blank.md] and of [notes.txt]. *)
Abbreviation blank_reply :=
  (convert_file_chunked X tmp' blank false true None empty_world).
Abbreviation plain_reply :=
  (convert_file X tmp' notes None false false true empty_world).


End Cases.
(** * Properties *)

(** ** Sorting *)

Lemma sorted_ints_sorted (s : gset Z) : Sorted Z.le (sorted_ints s).
Proof. unfold sorted_ints. apply Sorted_merge_sort. intros x y. lia. Qed.

Lemma sorted_ints_empty : sorted_ints ∅ = [].
Proof. unfold sorted_ints. rewrite elements_empty. reflexivity. Qed.

(** ** The chunk loop *)

Lemma chunk_loop_length body i cs recs :
  chunk_loop body i cs = inr recs → length recs = length cs.
Proof.
  revert i recs. induction cs as [|c cs IH]; intros i recs H; simpl in H.
  - by inversion H.
  - destruct (body i c) as [e|d]; simpl in H; [done|].
    destruct (chunk_loop body (S i) cs) as [e|rest] eqn:E; simpl in H; [done|].
    inversion H; subst. simpl. f_equal. by eapply IH.
Qed.

(** The record at position [k] comes from the chunk at position [k], built
    with index [i + k]. *)
Lemma chunk_loop_lookup body i cs recs k r :
  chunk_loop body i cs = inr recs → recs !! k = Some r →
  ∃ c d, cs !! k = Some c ∧ body (i + k)%nat c = inr d ∧ r = PDict d.
Proof.
  revert i recs k. induction cs as [|c cs IH]; intros i recs k H Hk; simpl in H.
  - inversion H; subst. done.
  - destruct (body i c) as [e|d] eqn:Eb; simpl in H; [done|].
    destruct (chunk_loop body (S i) cs) as [e|rest] eqn:E; simpl in H; [done|].
    inversion H; subst. destruct k as [|k]; simpl in Hk.
    + inversion Hk; subst. exists c, d. by rewrite Nat.add_0_r.
    + destruct (IH _ _ _ E Hk) as (c' & d' & ? & ? & ?).
      exists c', d'. split_and!; try done.
      by replace (i + S k)%nat with (S i + k)%nat by lia.
Qed.


(** Two loop bodies that agree up to a map [f] on the records give loops
    that agree up to [f]. *)
Lemma chunk_loop_map (f : pydict → pydict) body1 body2 i cs :
  (∀ j c, body2 j c = rmap f (body1 j c)) →
  chunk_loop body2 i cs = rmap (fmap (on_dict f)) (chunk_loop body1 i cs).
Proof.
  intros Hb. revert i. induction cs as [|c cs IH]; intros i; simpl; [done|].
  rewrite Hb, IH. destruct (body1 i c); simpl; [done|].
  by destruct (chunk_loop body1 (S i) cs).
Qed.

(** ** Fields of a chunk record *)


Lemma provenance_fields_other ext sheets i acc info k :
  k ∉ provenance_keys →
  provenance_fields ext sheets i acc info !! k = info !! k.
Proof.
  intros Hk. unfold provenance_keys in Hk. unfold provenance_fields.
  repeat case_bool_decide;
    repeat (rewrite lookup_insert_ne; [|intros ?; subst k; apply Hk; set_solver]); done.
Qed.

(** [pages] is always written: empty for [.xlsx], otherwise the sorted page
    numbers (none when the chunk has no page). *)
Lemma provenance_fields_pages ext sheets i acc info :
  provenance_fields ext sheets i acc info !! "pages" =
    Some (PList (PInt <$> (if bool_decide (ext = ".xlsx") then []
                           else sorted_ints (page_numbers acc)))).
Proof.
  unfold provenance_fields.
  repeat case_bool_decide; simplify_map_eq; try done.
  assert (page_numbers acc = ∅) as -> by (destruct (decide (page_numbers acc = ∅)); done).
  by rewrite sorted_ints_empty.
Qed.

Lemma provenance_fields_delete ext sheets i acc info k :
  k ∉ provenance_keys →
  delete k (provenance_fields ext sheets i acc info) =
    provenance_fields ext sheets i acc (delete k info).
Proof.
  intros Hk. unfold provenance_keys in Hk. unfold provenance_fields.
  repeat case_bool_decide;
    repeat (rewrite delete_insert_ne; [|intros ?; subst k; apply Hk; set_solver]); done.
Qed.

Section Records.
Context (X : externals).



Lemma token_count_counted c v :
  token_count X (text c) = inr v → counted_by X tokenizer c v.
Proof.
  unfold token_count, counted_by. destruct (has_count_tokens X).
  - destruct (count_tokens X tokenizer (text c)) as [e|n] eqn:E; simpl; [done|].
    intros [= <-]. by exists n.
  - by intros [= <-].
Qed.

Lemma chunk_info_head_fields ctx ch i c d :
  chunk_info_head X ctx ch i c = inr d →
  d !! "chunk_id" = Some (PInt (Z.of_nat i + 1)) ∧
  (∃ v, d !! "token_count" = Some v ∧ counted_by X tokenizer c v) ∧
  d !! "debug_chunk_attrs" = None ∧ d !! "debug_meta_attrs" = None.
Proof.
  unfold chunk_info_head. intros H.
  destruct (token_count X (text c)) as [e|v] eqn:Etc; simpl in H; [done|].
  apply token_count_counted in Etc.
  destruct ctx; simpl in H.
  - destruct (contextualize X ch c) as [e|s]; simpl in H; [done|].
    injection H as <-. destruct (meta c); simplify_map_eq; eauto 10.
  - injection H as <-. destruct (meta c); simplify_map_eq; eauto 10.
Qed.

Lemma chunk_info_async_fields ext sheets ctx ch i c d :
  chunk_info_async X ext sheets ctx ch i c = inr d →
  record_ok ext i d ∧ ∃ v, d !! "token_count" = Some v ∧ counted_by X tokenizer c v.
Proof.
  unfold chunk_info_async. intros H.
  destruct (chunk_info_head X ctx ch i c) as [e|h] eqn:Eh; simpl in H; [done|].
  injection H as <-.
  destruct (chunk_info_head_fields _ _ _ _ _ Eh) as (Hid & Htc & _).
  unfold record_ok.
  rewrite !lookup_insert_ne by done.
  rewrite (provenance_fields_other _ _ _ _ _ "chunk_id"),
          (provenance_fields_other _ _ _ _ _ "token_count")
    by (unfold provenance_keys; set_solver).
  rewrite provenance_fields_pages.
  split_and!; try done.
  eexists. split; [done|]. case_bool_decide.
  - split; [constructor|done].
  - split; [apply sorted_ints_sorted|done].
Qed.

(** The record of the synchronous loop is the record of the background loop
    with the two debug fields added. *)
Lemma chunk_info_sync_async ext sheets ctx ch i c :
  chunk_info_async X ext sheets ctx ch i c =
    rmap (λ d, delete "debug_chunk_attrs" (delete "debug_meta_attrs" d))
         (chunk_info_sync X ext sheets ctx ch i c).
Proof.
  unfold chunk_info_async, chunk_info_sync.
  destruct (chunk_info_head X ctx ch i c) as [e|h] eqn:Eh; simpl; [done|].
  destruct (chunk_info_head_fields _ _ _ _ _ Eh) as (_ & _ & Hc & Hm).
  f_equal.
  rewrite !delete_insert_ne by done.
  rewrite !provenance_fields_delete by (unfold provenance_keys; set_solver).
  do 2 f_equal.
  destruct (meta c).
  - rewrite delete_insert_eq, delete_insert_ne, delete_insert_eq by done.
    rewrite (delete_id h "debug_meta_attrs") by done. by rewrite delete_id.
  - rewrite delete_insert_ne, delete_insert_eq by done.
    rewrite (delete_id h "debug_meta_attrs") by done. by rewrite delete_id.
Qed.

Lemma chunk_info_sync_fields ext sheets ctx ch i c d :
  chunk_info_sync X ext sheets ctx ch i c = inr d →
  record_ok ext i d ∧ ∃ v, d !! "token_count" = Some v ∧ counted_by X tokenizer c v.
Proof.
  intros H.
  pose proof (chunk_info_sync_async ext sheets ctx ch i c) as Ha.
  rewrite H in Ha. simpl in Ha.
  destruct (chunk_info_async_fields _ _ _ _ _ _ _ Ha) as ((Hid & ps & Hp & Hs) & v & Hv & Hc).
  rewrite !lookup_delete_ne in Hid, Hp, Hv by done.
  split; [split; eauto|eauto].
Qed.

End Records.

(** ** The job lifecycle invariant *)

Section LifecycleFacts.
Context (X : externals).
Context (id dir : string) (file : UploadFile).
Context (include_metadata do_contextualize : bool) (max_tokens : option Z).

#[local] Abbreviation a := (the_args X id dir file include_metadata do_contextualize max_tokens).
#[local] Abbreviation inv := (inv X id dir file include_metadata do_contextualize max_tokens).

Lemma releases_snoc d l ev :
  releases d (l ++ [ev]) = releases d l ++ releases d [ev].
Proof. unfold releases. by rewrite omap_app. Qed.

Lemma dir_unshared_insert w job :
  dir_unshared id dir w → dir_unshared id dir (with_store <[id := job]> w).
Proof.
  intros H k j Hk Hne. simpl in Hk. rewrite lookup_insert_ne in Hk by done. eauto.
Qed.

Lemma read_file_upload w :
  upload_on_disk dir file w → read_file dir (filename file) w = Some (content file).
Proof.
  unfold upload_on_disk, read_file. intros ->. simpl. apply lookup_insert_eq.
Qed.

Lemma path_exists_upload w :
  upload_on_disk dir file w → path_exists dir w = true.
Proof.
  unfold upload_on_disk, path_exists. intros ->. by apply bool_decide_eq_true.
Qed.

Lemma path_exists_gone w : disk w !! dir = None → path_exists dir w = false.
Proof.
  unfold path_exists. intros ->. apply bool_decide_eq_false. by intros [? ?].
Qed.

(** Once the entry is gone, the job changes neither the store nor the fate
    of the directory. *)
Lemma task_step_absent t w :
  job_store w !! id = None → disk w !! dir = None →
  let w' := (task_step X a t w).2 in
  job_store w' = job_store w ∧ disk w' !! dir = None ∧
  releases dir (log w') = releases dir (log w).
Proof.
  intros Hj Hd. unfold task_step, the_args, submitted_args. simpl.
  destruct (pc t); simpl;
    unfold in_try, in_except, store_set, doc_converter_convert, chunker_chunk;
    rewrite ?Hj; simpl; try done.
  - destruct (match read_file _ _ _ with Some _ => _ | None => _ end); simpl;
      rewrite releases_snoc; simpl; by rewrite app_nil_r.
  - destruct (doc t); simpl; [|done].
    destruct (chunk X _ _); simpl; rewrite releases_snoc; simpl; by rewrite app_nil_r.
  - by destruct (job_result_data _ _ _).
  - by destruct (temp_dir_exists _ _).
  - destruct (temp_dir t) as [| | |d| |]; simpl; try done.
    unfold rmtree. destruct (path_exists d w) eqn:Ep; simpl; [|done].
    assert (d ≠ dir) by (intros ->; unfold path_exists in Ep; rewrite Hd in Ep;
      apply bool_decide_eq_true in Ep; by destruct Ep).
    rewrite lookup_delete_ne by done. rewrite releases_snoc. simpl.
    rewrite bool_decide_eq_false_2 by done. by rewrite app_nil_r.
Qed.



Lemma locals_mono n m t :
  (m ≤ n)%nat → locals X id dir file include_metadata do_contextualize max_tokens n t →
  locals X id dir file include_metadata do_contextualize max_tokens m t.
Proof.
  intros Hle (H1 & H2 & H3 & H4 & H5).
  split_and!; intros; [apply H1|apply H2|apply H3|apply H4|apply H5]; lia.
Qed.

Lemma locals_0 t :
  locals X id dir file include_metadata do_contextualize max_tokens 0 t.
Proof. unfold locals. split_and!; intros; lia. Qed.

Lemma inv_step t w :
  dir ≠ "" → inv (t, w) → inv (task_step X a t w).
Proof.
  intros Hne [Hun Hi].
  destruct (job_store w !! id) as [job|] eqn:Ej.
  2:{ destruct Hi as [Hd [who Hr]].
      destruct (task_step_absent t w Ej Hd) as (Hs & Hd' & Hr').
      destruct (task_step X a t w) as [t' w']. simpl in *.
      split.
      - intros k j. rewrite Hs. apply Hun.
      - rewrite Hs, Ej. split; [done|]. exists who. by rewrite Hr'. }
  destruct Hi as (Htd & Hsh & Hlo & Hpe & H618 & Hdisk).
  unfold task_step, the_args, submitted_args. simpl.
  destruct (pc t) eqn:Epc; simpl in *;
    unfold in_try, in_except, store_set; rewrite ?Ej; simpl.
  all: try (split; [by apply dir_unshared_insert|];
            rewrite lookup_insert_eq;
            unfold fields, pristine, settled, fields in *;
            destruct_and?;
            split_and!; simplify_map_eq; try done;
            eauto 10 using locals_mono; fail).
  - (* L442 *)
    destruct Hdisk as [Hup Hrel]. rewrite (read_file_upload _ Hup).
    destruct (convert X (filename file) (content file)) as [e|d] eqn:Ec;
      (split; [done|]); simpl; rewrite Ej, releases_snoc, Hrel; simpl.
    + split_and!; try done; try apply locals_0; try naive_solver. exists 30. split; [lia|apply Hsh].
    + split_and!; try done; try apply locals_0; try naive_solver.
      unfold locals; simpl; split_and!; intros; try lia. by exists d.
  - (* L448 *)
    split_and!; try done; try apply locals_0; try naive_solver.
    destruct Hlo as (H1 & _). unfold locals; simpl; split_and!; intros; try lia; auto.
  - (* L462 *)
    split_and!; try done; try apply locals_0; try naive_solver.
    destruct Hlo as (H1 & H2 & _). unfold locals; simpl; split_and!; intros; try lia; auto.
    unfold read_excel_sheets, sheets_of_upload.
    by rewrite (read_file_upload _ (proj1 Hdisk)).
  - (* L476 *)
    destruct Hlo as (H1 & H2 & H3 & _).
    destruct H1 as (d & Hd & Hc); [lia|]. rewrite Hd.
    unfold chunker_chunk.
    destruct (chunk X (active_chunker t) d) as [e|cs] eqn:Ech;
      (split; [done|]); simpl; rewrite Ej, releases_snoc, (proj2 Hdisk); simpl.
    + split_and!; try done; try apply locals_0; try apply Hdisk; try naive_solver. exists 60. split; [lia|apply Hsh].
    + split_and!; try done; try apply locals_0; try apply Hdisk; try naive_solver.
      unfold locals; simpl; split_and!; intros; try lia; eauto.
  - (* L482 *)
    destruct (job_result_data X _ t) as [e|rd] eqn:Er;
      (split; [done|]); simpl; rewrite Ej.
    + split_and!; try done; try apply locals_0; try naive_solver. exists 80. split; [lia|apply Hsh].
    + split_and!; try done; try apply locals_0; try naive_solver.
      destruct Hlo as (H1 & H2 & H3 & H4 & _).
      unfold locals; simpl; split_and!; intros; auto.
  - (* L607 *)
    split; [by apply dir_unshared_insert|]. rewrite lookup_insert_eq.
    destruct Hsh as [(pr & Hpr & Hst & Hprog) (? & ? & ? & ?)].
    unfold fields, pristine.
    split_and!; simplify_map_eq; try done; try apply locals_0; try apply Hdisk.
    exists pr. by simplify_map_eq.
  - (* L608 *)
    split; [by apply dir_unshared_insert|]. rewrite lookup_insert_eq.
    destruct Hsh as [(pr & Hpr & Hst & Hprog) (? & ? & ? & ?)].
    unfold fields, pristine.
    split_and!; simplify_map_eq; try done; try apply locals_0; try apply Hdisk.
  - (* L614 *)
    split; [done|]. rewrite Ej. unfold dict_get. rewrite Htd. simpl.
    split_and!; try done; try apply locals_0; try naive_solver.
  - (* L615 *)
    rewrite H618. simpl.
    rewrite (path_exists_upload _ (proj1 Hdisk)).
    rewrite bool_decide_eq_true_2 by done. simpl.
    split; [done|]. rewrite Ej. split_and!; try done; try apply locals_0; try naive_solver.
  - (* L618 *)
    rewrite H618. simpl. unfold rmtree.
    rewrite (path_exists_upload _ (proj1 Hdisk)). simpl.
    split; [done|]. rewrite Ej. split_and!; try done; try apply locals_0; try naive_solver.
    + apply lookup_delete_eq.
    + rewrite releases_snoc, (proj2 Hdisk). simpl.
      by rewrite bool_decide_eq_true_2.
  - (* Finished *)
    rewrite Epc. simpl. split_and!; try done; try apply locals_0; apply Hdisk.
Qed.

(** The effect of [DELETE /job/{k}] on the world. *)
Lemma delete_job_effect k w :
  let w' := (delete_job k w).2 in
  (job_store w !! k = None ∧ w' = w) ∨
  (∃ job, job_store w !! k = Some job ∧ job_store w' = delete k (job_store w) ∧
     ((∃ d, job !! "temp_dir" = Some (PStr d) ∧ is_Some (disk w !! d) ∧
            disk w' = delete d (disk w) ∧ log w' = log w ++ [EvRmtree Handler d]) ∨
      ((∀ d, job !! "temp_dir" = Some (PStr d) → disk w !! d = None) ∧
       disk w' = disk w ∧ log w' = log w))).
Proof.
  unfold delete_job. destruct (job_store w !! k) as [job|] eqn:Ej; [right|by left].
  exists job. split; [done|].
  destruct (job !! "temp_dir") as [[| | |d| |]|] eqn:Et; simpl; try (split; [done|]; right; done).
  unfold rmtree. destruct (path_exists d w) eqn:Ep; simpl.
  - split; [done|]. left. exists d. split_and!; try done.
    unfold path_exists in Ep. by apply bool_decide_eq_true in Ep.
  - split; [done|]. right. split_and!; try done. intros ? [= <-].
    unfold path_exists in Ep. apply bool_decide_eq_false in Ep.
    destruct (disk w !! d); [|done]. by destruct Ep.
Qed.

Lemma inv_delete t w k : inv (t, w) → inv (t, (delete_job k w).2).
Proof.
  intros [Hun Hi].
  destruct (delete_job_effect k w) as [[_ ->]|(jobk & Hk & Hs & Hfx)]; [done|].
  set (w' := (delete_job k w).2) in *. clearbody w'.
  assert (dir_unshared id dir w') as Hun'.
  { intros k' j Hk' Hne. rewrite Hs in Hk'.
    apply lookup_delete_Some in Hk' as [_ Hk']. eauto. }
  split; [done|]. rewrite Hs.
  destruct (decide (k = id)) as [->|Hne].
  - rewrite lookup_delete_eq. rewrite Hk in Hi.
    destruct Hi as (Htd & _ & _ & _ & _ & Hdisk).
    destruct Hfx as [(d & Hd & Hex & Hdisk' & Hlog)|(Hno & Hdisk' & Hlog)].
    + assert (d = dir) as -> by congruence.
      rewrite Hdisk', Hlog, releases_snoc, lookup_delete_eq. split; [done|].
      case_decide; destruct Hdisk as [Hup Hrel].
      * rewrite Hup in Hex. by destruct Hex.
      * rewrite Hrel. simpl. rewrite bool_decide_eq_true_2 by done. eauto.
    + specialize (Hno _ Htd). rewrite Hdisk', Hlog. split; [done|].
      case_decide; destruct Hdisk as [Hup Hrel]; [eauto|].
      unfold upload_on_disk in Hup. congruence.
  - rewrite lookup_delete_ne by done.
    assert (disk w' !! dir = disk w !! dir ∧ releases dir (log w') = releases dir (log w))
      as [Hd' Hr'].
    { destruct Hfx as [(d & Hd & Hex & Hdisk' & Hlog)|(Hno & Hdisk' & Hlog)].
      - assert (d ≠ dir) by (intros ->; by eapply Hun).
        rewrite Hdisk', Hlog, releases_snoc, lookup_delete_ne by done. simpl.
        rewrite bool_decide_eq_false_2 by done. by rewrite app_nil_r.
      - by rewrite Hdisk', Hlog. }
    destruct (job_store w !! id) as [job|].
    + destruct Hi as (? & ? & ? & ? & ? & Hdisk). split_and!; try done.
      unfold upload_on_disk in *. by rewrite Hd', Hr'.
    + by rewrite Hd', Hr'.
Qed.

Lemma inv_tick t w : inv (t, w) → inv (t, tick w).
Proof. done. Qed.

Lemma inv_act s ev : dir ≠ "" → inv s → inv (act X a s ev).
Proof.
  intros Hne Hi. destruct s as [t w]. destruct ev as [|k]; simpl.
  - pose proof (inv_step t w Hne Hi) as H.
    destruct (task_step X a t w) as [t' w']. by apply inv_tick.
  - apply inv_tick. by apply inv_delete.
Qed.

Lemma inv_run s sched : dir ≠ "" → inv s → inv (run X a s sched).
Proof.
  intros Hne. revert s. induction sched as [|ev sched IH]; intros s Hi; [done|].
  simpl. apply IH. by apply inv_act.
Qed.

(** What [/convert-chunked-async] leaves behind when it accepts an upload. *)
Lemma submitted_world w0 :
  supported (suffix_lower X (filename file)) = true →
  convert_file_chunked_async X id dir file include_metadata do_contextualize
    max_tokens w0 =
  (JSON (<["created_at" := PStr (isoformat X (clock w0))]>
        (<["file_size" := PInt (len_str (content file))]>
        (<["filename" := PStr (filename file)]>
        (<["message" :=
            PStr "작업이 시작되었습니다. /job/{job_id} 엔드포인트로 상태를 확인하세요."]>
        (<["status" := PStr "queued"]>
        (<["job_id" := PStr id]> ∅)))))),
   {| job_store := <[id := new_job id dir file (isoformat X (clock w0))]> (job_store w0);
      disk := <[dir := <[filename file := content file]> ∅]> (disk w0);
      log := log w0 ++ [EvMkdtemp dir; EvWrite dir (filename file); EvAddTask id];
      clock := clock w0 |}).
Proof.
  intros Hs. unfold convert_file_chunked_async. rewrite Hs. simpl.
  unfold mbind, M_bind, write_file, mkdtemp, effect, emit, with_store, with_disk. simpl.
  rewrite lookup_insert_eq. simpl. rewrite insert_insert_eq.
  by rewrite <- !app_assoc.
Qed.

Lemma inv_submitted w0 :
  supported (suffix_lower X (filename file)) = true →
  fresh_dir dir w0 → inv (submitted X id dir file include_metadata do_contextualize max_tokens w0).
Proof.
  intros Hs (Hne & Hfree & Hrel). unfold submitted. rewrite (submitted_world w0 Hs).
  simpl. split.
  - intros k j Hk Hkne. simpl in Hk. rewrite lookup_insert_ne in Hk by done. eauto.
  - rewrite lookup_insert_eq. unfold new_job, fields, pristine.
    split_and!; simplify_map_eq; try done.
    + apply locals_0.
    + unfold upload_on_disk. simpl. by rewrite lookup_insert_eq.
    + unfold releases in *. rewrite omap_app, Hrel. done.
Qed.

End LifecycleFacts.

(** ** Consequences of the invariant *)

Section LifecycleResults.
Context (X : externals).
Context (id dir : string) (file : UploadFile).
Context (include_metadata do_contextualize : bool) (max_tokens : option Z).

#[local] Abbreviation a := (the_args X id dir file include_metadata do_contextualize max_tokens).
#[local] Abbreviation inv := (inv X id dir file include_metadata do_contextualize max_tokens).
#[local] Abbreviation Shape := (shape X id dir file include_metadata do_contextualize max_tokens).
#[local] Abbreviation locals := (locals X id dir file include_metadata do_contextualize max_tokens).
#[local] Abbreviation observed :=
  (observations X id dir file include_metadata do_contextualize max_tokens).
#[local] Abbreviation state_after :=
  (reached X id dir file include_metadata do_contextualize max_tokens).
#[local] Abbreviation submitted := (submitted X id dir file include_metadata do_contextualize max_tokens).

Lemma shape_facts p t job : Shape p t job → record_facts job.
Proof.
  unfold record_facts, shape, settled, fields, pristine.
  destruct p; intros H; destruct_and?;
    try (destruct H as [H|H]; destruct_and?);
    repeat match goal with H : ∃ _, _ |- _ => destruct H as [? H]; destruct_and? end;
    (eexists _, _; split; [split; eassumption|]);
    (split; [lia|]); (split; [set_solver|]);
    split_and!; intros; simplify_eq/=; try done;
    repeat match goal with
           | H : is_Some (_ !! _), E : _ !! _ = None |- _ =>
               rewrite E in H; by destruct H
           end;
    try (split_and!; eauto; fail).
Qed.

Lemma inv_record_facts t w job :
  inv (t, w) → job_store w !! id = Some job → record_facts job.
Proof.
  intros [_ Hi] Hj. rewrite Hj in Hi. destruct Hi as (_ & Hsh & _).
  by eapply shape_facts.
Qed.

(** What a poll reports is the status and progress stored at that moment. *)
Lemma polled_fields w job st pr :
  job_store w !! id = Some job → fields job st pr → polled id w = Some (st, pr).
Proof.
  intros Hj [Hst Hpr]. unfold polled, get_job_status, status_is.
  rewrite Hj, Hst, Hpr. simpl.
  repeat case_bool_decide; simplify_map_eq; done.
Qed.

Lemma polled_absent w : job_store w !! id = None → polled id w = None.
Proof. intros Hj. unfold polled, get_job_status. by rewrite Hj. Qed.

Lemma polled_inv t w o :
  inv (t, w) → polled id w = Some o →
  ∃ job, job_store w !! id = Some job ∧ fields job o.1 o.2 ∧ record_facts job.
Proof.
  intros Hi Hp. destruct (job_store w !! id) as [job|] eqn:Hj.
  - pose proof (inv_record_facts _ _ _ Hi Hj) as Hf.
    destruct Hf as (st & pr & Hfl & Hrest).
    rewrite (polled_fields _ _ _ _ Hj Hfl) in Hp. injection Hp as <-.
    exists job. split_and!; try done. by exists st, pr.
  - by rewrite polled_absent in Hp.
Qed.

(** A result in the store is the one the job assembled from the upload. *)
Lemma inv_result t w job v :
  inv (t, w) → job_store w !! id = Some job → job !! "result" = Some v →
  v = PDict (result_data t) ∧ locals 5 t.
Proof.
  intros [_ Hi] Hj Hr. rewrite Hj in Hi. destruct Hi as (_ & Hsh & Hlo & _).
  unfold shape, settled, pristine in Hsh.
  destruct (pc t); simpl in Hlo; destruct_and?;
    try (destruct Hsh as [Hsh|Hsh]; destruct_and?); simplify_eq; done.
Qed.

(** A statement of the job never lowers the progress of a job that is not
    yet in a terminal status. *)
Lemma step_progress t w job job' st pr st' pr' :
  inv (t, w) → job_store w !! id = Some job → fields job st pr →
  terminal st = false →
  job_store (task_step X a t w).2 !! id = Some job' → fields job' st' pr' →
  pr ≤ pr'.
Proof.
  intros [_ Hi] Hj [Hst Hpr] Hterm. rewrite Hj in Hi.
  destruct Hi as (_ & Hsh & Hlo & _ & Htmp & Hdisk).
  unfold task_step, the_args, submitted_args. simpl.
  unfold shape, settled, fields, pristine in *.
  destruct (pc t) eqn:Epc; simpl in *;
    unfold in_try, in_except, store_set, doc_converter_convert, chunker_chunk;
    rewrite ?Hj; simpl; destruct_and?;
    try (destruct Hsh as [Hsh|Hsh]; destruct_and?);
    repeat match goal with H : ∃ _, _ |- _ => destruct H as [? H]; destruct_and? end;
    simplify_eq/=; try done.
  all: try (rewrite lookup_insert_eq; intros [= <-] [??]; simplify_map_eq; lia).
  - destruct (match read_file _ _ _ with Some _ => _ | None => _ end); simpl;
      rewrite ?Hj; intros [= <-] [??]; simplify_eq; lia.
  - rewrite ?Hj; intros [= <-] [??]; simplify_eq; lia.
  - rewrite ?Hj; intros [= <-] [??]; simplify_eq; lia.
  - destruct (doc t); simpl; [destruct (chunk X _ _); simpl|];
      rewrite ?Hj; intros [= <-] [??]; simplify_eq; lia.
  - destruct (job_result_data _ _ _); simpl;
      rewrite ?Hj; intros [= <-] [??]; simplify_eq; lia.
Qed.

Lemma polled_tick w : polled id (tick w) = polled id w.
Proof. done. Qed.

Lemma act_store_absent s ev :
  inv s → job_store s.2 !! id = None → job_store (act X a s ev).2 !! id = None.
Proof.
  destruct s as [t w]. intros Hi Hj. simpl in Hj. destruct ev as [|k]; simpl.
  - destruct Hi as [_ Hi]. rewrite Hj in Hi. destruct Hi as [Hd _].
    destruct (task_step_absent X id dir file include_metadata do_contextualize
                max_tokens t w Hj Hd) as (Hs & _).
    destruct (task_step X a t w) as [t' w']. simpl in *. by rewrite Hs.
  - destruct (delete_job_effect k w) as [[_ ->]|(jobk & Hk & Hs & _)]; [done|].
    rewrite Hs. apply lookup_delete_None. by right.
Qed.

(** Neither a statement of the job nor a deletion lowers the progress that
    a poll reports, as long as the poll before it saw a non-terminal status. *)
Lemma act_progress s ev o o' :
  dir ≠ "" → inv s → polled id s.2 = Some o → terminal o.1 = false →
  polled id (act X a s ev).2 = Some o' → o.2 ≤ o'.2.
Proof.
  intros Hne Hi Hp Hterm Hp'.
  pose proof (inv_act X id dir file include_metadata do_contextualize max_tokens
                s ev Hne Hi) as Hi'.
  destruct s as [t w]. simpl in Hp.
  destruct (polled_inv _ _ _ Hi Hp) as (job & Hj & Hf & _).
  destruct (act X a (t, w) ev) as [t' w'] eqn:Ea. simpl in Hp'.
  destruct (polled_inv _ _ _ Hi' Hp') as (job' & Hj' & Hf' & _).
  destruct ev as [|k]; simpl in Ea.
  - destruct (task_step X a t w) as [t1 w1] eqn:Es. injection Ea as <- <-.
    eapply (step_progress t w job job'); eauto. by rewrite Es.
  - injection Ea as <- <-. simpl in Hj'.
    destruct (delete_job_effect k w) as [[_ Hw]|(jobk & Hk & Hs & _)].
    + rewrite Hw in Hj'. destruct Hf as [H1 H2], Hf' as [H1' H2']. simplify_eq. lia.
    + rewrite Hs in Hj'. apply lookup_delete_Some in Hj' as [_ Hj'].
      destruct Hf as [H1 H2], Hf' as [H1' H2']. simplify_eq. lia.
Qed.


Lemma observations_absent s sched :
  dir ≠ "" → inv s → job_store s.2 !! id = None →
  omap (λ s, polled id s.2) (trace X a s sched) = [].
Proof.
  intros Hne. revert s. induction sched as [|ev sched IH]; intros s Hi Hj; simpl;
    rewrite (polled_absent _ Hj); [done|].
  apply IH; [by apply inv_act|by apply act_store_absent].
Qed.

Lemma until_terminal_head o obs :
  head (until_terminal (o :: obs)) = Some o.
Proof. simpl. by destruct (terminal o.1). Qed.

Lemma trace_cons s sched : ∃ rest, trace X a s sched = s :: rest.
Proof. destruct sched; simpl; eauto. Qed.

Lemma observations_sorted s sched :
  dir ≠ "" → inv s →
  Sorted Z.le (until_terminal (omap (λ s, polled id s.2) (trace X a s sched))).*2.
Proof.
  intros Hne. revert s. induction sched as [|ev sched IH]; intros s Hi.
  - simpl. destruct (polled id s.2) as [o|]; simpl; [|constructor].
    destruct (terminal o.1); repeat constructor.
  - simpl. pose proof (inv_act X id dir file include_metadata do_contextualize
                         max_tokens s ev Hne Hi) as Hi'.
    specialize (IH _ Hi').
    destruct (polled id s.2) as [o|] eqn:Hp; simpl; [|done].
    destruct (terminal o.1) eqn:Ht; [repeat constructor|].
    simpl. constructor; [done|].
    destruct (trace_cons (act X a s ev) sched) as [rest Hrest].
    destruct (polled id (act X a s ev).2) as [o'|] eqn:Hp'.
    + rewrite Hrest. simpl. rewrite Hp'.
      pose proof (act_progress s ev o o' Hne Hi Hp Ht Hp').
      simpl. destruct (terminal o'.1); by constructor.
    + destruct (job_store (act X a s ev).2 !! id) as [job'|] eqn:Hj'.
      { destruct (act X a s ev) as [t' w']. simpl in *.
        destruct (inv_record_facts _ _ _ Hi' Hj') as (st & pr & Hf & _).
        by rewrite (polled_fields _ _ _ _ Hj' Hf) in Hp'. }
      pose proof (observations_absent _ sched Hne Hi' Hj') as Ho.
      unfold omap in Ho. rewrite Ho. constructor.
Qed.

Lemma observations_bounded s sched :
  dir ≠ "" → inv s →
  Forall (λ o, 0 ≤ o.2 ≤ 100) (omap (λ s, polled id s.2) (trace X a s sched)).
Proof.
  intros Hne. revert s. induction sched as [|ev sched IH]; intros s Hi; simpl.
  - destruct (polled id s.2) as [o|] eqn:Hp; simpl; [|constructor].
    constructor; [|constructor]. destruct s as [t w].
    destruct (polled_inv _ _ _ Hi Hp) as (job & Hj & [H1 H2] & st & pr & [H3 H4] & Hb & _).
    simplify_eq. lia.
  - assert (Forall (λ o, 0 ≤ o.2 ≤ 100)
              (omap (λ s, polled id s.2) (trace X a (act X a s ev) sched))) as Hrest
      by (apply IH; by apply inv_act).
    destruct (polled id s.2) as [o|] eqn:Hp; simpl; [|done].
    constructor; [|done]. destruct s as [t w].
    destruct (polled_inv _ _ _ Hi Hp) as (job & Hj & [H1 H2] & st & pr & [H3 H4] & Hb & _).
    simplify_eq. lia.
Qed.

(** Every statement of the job brings the end of the function closer. *)
Lemma steps_left_step t w :
  (steps_left (pc (task_step X a t w).1) ≤ pred (steps_left (pc t)))%nat.
Proof.
  unfold task_step, the_args, submitted_args. simpl.
  destruct (pc t) eqn:E; simpl; unfold in_try, in_except, store_set;
    repeat match goal with
           | |- context [match ?x with _ => _ end] => destruct x; simpl
           end; rewrite ?E; simpl; lia.
Qed.

Lemma steps_left_run s sched :
  (steps_left (pc (run X a s sched).1) ≤ steps_left (pc s.1) - runs sched)%nat.
Proof.
  revert s. induction sched as [|ev sched IH]; intros [t w]; simpl;
    [unfold runs; simpl; lia|].
  etrans; [apply IH|]. destruct ev as [|k]; unfold runs; simpl.
  - pose proof (steps_left_step t w). destruct (task_step X a t w). simpl in *. lia.
  - lia.
Qed.

(** After 26 of its statements the job has ended, whatever the requests
    served in between. *)
Lemma run_finishes w0 sched :
  (26 ≤ runs sched)%nat → pc (state_after w0 sched).1 = Finished.
Proof.
  intros Hr. pose proof (steps_left_run (submitted w0) sched) as H.
  unfold submitted in H at 2. simpl in H. unfold reached.
  destruct (pc (run X a (submitted w0) sched).1); simpl in H; try lia. done.
Qed.

Lemma inv_reachable w0 sched :
  supported (suffix_lower X (filename file)) = true → fresh_dir dir w0 →
  inv (state_after w0 sched).
Proof.
  intros Hs Hf. apply inv_run; [apply Hf|]. by apply inv_submitted.
Qed.

(** C5. For an accepted asynchronous job, the progress values that polling
    can observe are non-decreasing from creation up to and including the
    first moment the job is in a terminal status, and every observable
    progress value lies between 0 and 100. *)
Theorem progress_never_decreases w0 sched :
  supported (suffix_lower X (filename file)) = true → fresh_dir dir w0 →
  Sorted Z.le (until_terminal (observed w0 sched)).*2 ∧
  Forall (λ o, 0 ≤ o.2 ≤ 100) (observed w0 sched).
Proof.
  intros Hs Hf. pose proof (inv_submitted X id dir file include_metadata
    do_contextualize max_tokens w0 Hs Hf) as Hi.
  unfold observations.
  split; [apply observations_sorted|apply observations_bounded]; try done; apply Hf.
Qed.

(** C4, as amended. At every moment of a job's life its record has one of
    the four statuses; [result] and [error] are both unset while the status
    is queued or processing; [result] is set only under status completed and
    [error] only under status failed, never both; and once the job has left
    its try/except blocks exactly one of the two is set, [result] iff the
    status is completed and [error] iff it is failed. *)
Theorem outcome_follows_status w0 sched job :
  supported (suffix_lower X (filename file)) = true → fresh_dir dir w0 →
  job_store (state_after w0 sched).2 !! id = Some job →
  ∃ st, job !! "status" = Some (PStr st) ∧
    st ∈ ["queued"; "processing"; "completed"; "failed"] ∧
    (terminal st = false → job !! "result" = None ∧ job !! "error" = None) ∧
    (is_Some (job !! "result") → st = "completed" ∧ job !! "error" = None) ∧
    (is_Some (job !! "error") → st = "failed" ∧ job !! "result" = None) ∧
    (outcome_written (pc (state_after w0 sched).1) = true →
       (st = "completed" ∧ is_Some (job !! "result") ∧ job !! "error" = None) ∨
       (st = "failed" ∧ is_Some (job !! "error") ∧ job !! "result" = None)).
Proof.
  intros Hs Hf. pose proof (inv_reachable w0 sched Hs Hf) as Hi.
  destruct (state_after w0 sched) as [t w]. simpl. intros Hj.
  destruct (inv_record_facts _ _ _ Hi Hj)
    as (st & pr & [Hst Hpr] & _ & Hin & Hnt & _ & Hres & _ & Herr & _).
  exists st. split_and!; try done.
  - intros Ht. by destruct (Hnt Ht) as (? & ? & _).
  - intros H. by destruct (Hres H) as (_ & ? & ? & _).
  - intros H. by destruct (Herr H) as (_ & ? & _ & ? & _).
  - intros Hout. destruct Hi as [_ Hi]. rewrite Hj in Hi.
    destruct Hi as (_ & Hsh & _). unfold shape, settled, fields in Hsh.
    destruct (pc t); try done;
      (destruct Hsh as [Hsh|Hsh]; destruct_and?; simplify_eq; [left|right]);
      split_and!; try done;
      repeat match goal with H : ∃ _, _ |- _ => destruct H as [? H] end; eauto.
Qed.

(** How the fields of a poll response relate to the stored record. *)
Lemma response_fields w job st body :
  job_store w !! id = Some job → job !! "status" = Some (PStr st) →
  get_job_status id w = JSON body →
  body !! "status" = Some (PStr st) ∧
  body !! "progress" = Some (default (PInt 0) (job !! "progress")) ∧
  (∀ k, k ∈ ["result"; "completed_at"] →
     (written k body → st = "completed" ∧ written k job) ∧
     (st = "completed" → written k job → written k body)) ∧
  (∀ k, k ∈ ["error"; "failed_at"] →
     (written k body → st = "failed" ∧ written k job) ∧
     (st = "failed" → written k job → written k body)).
Proof.
  intros Hj Hst Hg. unfold get_job_status in Hg. rewrite Hj, Hst in Hg.
  unfold status_is in Hg. rewrite Hst in Hg.
  assert (∀ k v, default PNone (job !! k) = v → v ≠ PNone → job !! k = Some v) as Hget.
  { intros k v Hv Hne. destruct (job !! k); simpl in Hv; congruence. }
  unfold written, dict_get in *.
  repeat case_bool_decide; simplify_eq/=;
    (split; [by simplify_map_eq|]); (split; [by simplify_map_eq|]).
  all: split; intros k Hk; repeat (apply elem_of_cons in Hk as [->|Hk]);
    try (by apply elem_of_nil in Hk).
  all: split; [intros (v & Hv & Hne)|intros Hs' (v & Hv & Hne)]; try done.
  all: try (rewrite ?lookup_insert_eq, ?lookup_insert_ne, ?lookup_empty in Hv by done;
            try done; injection Hv as Hv; apply Hget in Hv; [|done]; by eauto).
  all: exists v; rewrite ?lookup_insert_eq, ?lookup_insert_ne by done; by rewrite Hv.
Qed.

(** C8, as amended. A poll reads the record between two single-field writes
    of the job, and the writes of a terminal transition come in a fixed
    order, so a poll sees a prefix of them: a response with status completed
    has progress 100; one that carries a result has status completed and
    progress 100; one that carries completed_at carries the result; one that
    carries an error has status failed and progress 0; one that carries
    failed_at carries the error. *)
Theorem poll_sees_prefix_of_writes w0 sched body :
  supported (suffix_lower X (filename file)) = true → fresh_dir dir w0 →
  get_job_status id (state_after w0 sched).2 = JSON body →
  (body !! "status" = Some (PStr "completed") → body !! "progress" = Some (PInt 100)) ∧
  (written "result" body →
     body !! "status" = Some (PStr "completed") ∧ body !! "progress" = Some (PInt 100)) ∧
  (written "completed_at" body → written "result" body) ∧
  (written "error" body →
     body !! "status" = Some (PStr "failed") ∧ body !! "progress" = Some (PInt 0)) ∧
  (written "failed_at" body → written "error" body).
Proof.
  intros Hs Hf. pose proof (inv_reachable w0 sched Hs Hf) as Hi.
  destruct (state_after w0 sched) as [t w]. simpl. intros Hg.
  destruct (job_store w !! id) as [job|] eqn:Hj;
    [|unfold get_job_status in Hg; by rewrite Hj in Hg].
  destruct (inv_record_facts _ _ _ Hi Hj)
    as (st & pr & [Hst Hpr] & _ & Hin & Hnt & Hc & Hres & Hca & Herr & Hfa).
  destruct (response_fields w job st body Hj Hst Hg) as (Hbs & Hbp & Hok & Hko).
  rewrite Hpr in Hbp. simpl in Hbp. rewrite Hbs, Hbp.
  assert (∀ k, written k job → is_Some (job !! k)) as Hsome
    by (intros k (v & -> & _); eauto).
  split_and!.
  - intros [= ->]. by rewrite Hc.
  - intros Hw. apply Hok in Hw as [-> Hw]; [|set_solver]. by rewrite Hc.
  - intros Hw. apply Hok in Hw as [-> Hw]; [|set_solver].
    apply Hok; [set_solver|done|].
    destruct Hca as [_ Hr]; [by apply Hsome|].
    destruct Hres as [[rd Hrd] _]; [done|]. by exists (PDict rd).
  - intros Hw. apply Hko in Hw as [-> Hw]; [|set_solver].
    destruct Herr as (_ & _ & -> & _); [by apply Hsome|]. done.
  - intros Hw. apply Hko in Hw as [-> Hw]; [|set_solver].
    apply Hko; [set_solver|done|].
    destruct Hfa as [_ He]; [by apply Hsome|].
    destruct Herr as [[msg Hmsg] _]; [done|]. by exists (PStr msg).
Qed.

(** Once the entry is gone, nothing removes the directory again. *)
Lemma act_absent_releases s ev :
  inv s → job_store s.2 !! id = None →
  releases dir (log (act X a s ev).2) = releases dir (log s.2).
Proof.
  destruct s as [t w]. intros [Hun Hi] Hj. simpl in Hj. rewrite Hj in Hi.
  destruct Hi as [Hd _]. destruct ev as [|k]; simpl.
  - destruct (task_step_absent X id dir file include_metadata do_contextualize
                max_tokens t w Hj Hd) as (_ & _ & Hr).
    by destruct (task_step X a t w).
  - destruct (delete_job_effect k w)
      as [[_ ->]|(jobk & Hk & _ & [(d & Ht & Hex & _ & ->)|(_ & _ & ->)])]; try done.
    assert (k ≠ id) by congruence.
    assert (d ≠ dir) by (intros ->; by eapply Hun).
    rewrite releases_snoc. simpl. rewrite bool_decide_eq_false_2 by done.
    by rewrite app_nil_r.
Qed.

Lemma run_absent_releases s sched :
  dir ≠ "" → inv s → job_store s.2 !! id = None →
  releases dir (log (run X a s sched).2) = releases dir (log s.2).
Proof.
  intros Hne. revert s. induction sched as [|ev sched IH]; intros s Hi Hj; [done|].
  simpl. rewrite IH.
  - by apply act_absent_releases.
  - by apply inv_act.
  - by apply act_store_absent.
Qed.

(** C1, as amended. The workspace of an accepted job is removed from disk
    exactly once over the life of the job. When the record is still in the
    store at the end of the background execution, the removal was made by the
    execution's own final step, whatever its outcome. When [DELETE /job/{id}]
    removes the record while the execution is in flight, the removal is made
    by the delete handler, and the final step of the execution removes
    nothing. *)
Theorem workspace_released_exactly_once w0 sched :
  supported (suffix_lower X (filename file)) = true → fresh_dir dir w0 →
  (26 ≤ runs sched)%nat →
  pc (state_after w0 sched).1 = Finished ∧ disk (state_after w0 sched).2 !! dir = None ∧
  ∃ who, releases dir (log (state_after w0 sched).2) = [who] ∧
    (is_Some (job_store (state_after w0 sched).2 !! id) → who = Background) ∧
    (∀ before after,
       sched = before ++ Delete id :: after →
       pc (state_after w0 before).1 ≠ Finished →
       is_Some (job_store (state_after w0 before).2 !! id) →
       who = Handler).
Proof.
  intros Hs Hf Hruns.
  pose proof (run_finishes w0 sched Hruns) as Hfin.
  pose proof (inv_reachable w0 sched Hs Hf) as Hi.
  pose proof (inv_reachable w0) as Hany.
  unfold reached in *.
  destruct (run X a (submitted w0) sched) as [t w] eqn:Hrun. simpl in Hfin |- *.
  assert (disk w !! dir = None ∧ ∃ who, releases dir (log w) = [who] ∧
          (is_Some (job_store w !! id) → who = Background)) as (Hd & who & Hw & Hb).
  { destruct Hi as [_ Hi]. destruct (job_store w !! id) as [job|].
    - destruct Hi as (_ & _ & _ & _ & _ & Hdisk). simpl in Hfin.
      destruct (decide (pc t = Finished)); [|done].
      destruct Hdisk. split; [done|]. by exists Background.
    - destruct Hi as [? [who ?]]. split; [done|]. exists who. split; [done|].
      by intros [? ?]. }
  split_and!; try done. exists who. split_and!; try done.
  intros before after -> Hnf [job Hj].
  pose proof (Hany before Hs Hf) as Hib.
  unfold run in Hrun. rewrite foldl_app in Hrun. simpl in Hrun.
  fold (run X a (submitted w0) before) in Hrun.
  destruct (run X a (submitted w0) before) as [tb wb] eqn:Eb. simpl in *.
  assert (inv (tb, tick (delete_job id wb).2)) as Hid
    by (apply inv_tick; by apply inv_delete).
  assert (job_store (tick (delete_job id wb).2) !! id = None ∧
          releases dir (log (tick (delete_job id wb).2)) = [Handler]) as [Hgone Hrel].
  { destruct Hib as [_ Hib]. rewrite Hj in Hib.
    destruct Hib as (Htd & _ & _ & _ & _ & Hdisk).
    destruct (decide (pc tb = Finished)); [done|]. destruct Hdisk as [Hup Hrel].
    unfold delete_job. rewrite Hj, Htd. unfold rmtree.
    rewrite (path_exists_upload dir file _ Hup). simpl.
    split; [apply lookup_delete_eq|].
    rewrite releases_snoc, Hrel. simpl. by rewrite bool_decide_eq_true_2. }
  pose proof (run_absent_releases (tb, tick (delete_job id wb).2) after
                (proj1 Hf) Hid Hgone) as Hkeep.
  fold (run X a (tb, tick (delete_job id wb).2) after) in Hrun.
  rewrite Hrun in Hkeep. simpl in Hkeep, Hrel. rewrite Hrel, Hw in Hkeep. congruence.
Qed.


(** C7. When the background execution of a job has ended and has removed the
    workspace, [DELETE /job/{id}] on the record that is still in the store
    returns the confirmation and removes the record, without raising: the
    missing directory is tolerated. *)
Theorem delete_after_release_succeeds w0 sched :
  supported (suffix_lower X (filename file)) = true → fresh_dir dir w0 →
  pc (state_after w0 sched).1 = Finished →
  is_Some (job_store (state_after w0 sched).2 !! id) →
  disk (state_after w0 sched).2 !! dir = None ∧
  releases dir (log (state_after w0 sched).2) = [Background] ∧
  delete_job id (state_after w0 sched).2
    = (delete_confirmation id, with_store (delete id) (state_after w0 sched).2).
Proof.
  intros Hs Hf. pose proof (inv_reachable w0 sched Hs Hf) as Hi.
  destruct (state_after w0 sched) as [t w]. simpl. intros Hfin [job Hj].
  destruct Hi as [_ Hi]. rewrite Hj in Hi. destruct Hi as (Htd & _ & _ & _ & _ & Hdisk).
  destruct (decide (pc t = Finished)); [|done]. destruct Hdisk as [Hd Hr].
  split_and!; try done.
  unfold delete_job. rewrite Hj, Htd.
  by rewrite (path_exists_gone dir _ Hd).
Qed.

End LifecycleResults.

(** ** Results of chunked conversions *)

Section ChunkedResults.
Context (X : externals).

(** Reading back the upload right after it was stored. *)
Lemma read_file_written d name content w files :
  disk w !! d = Some files →
  ∀ w', write_file d name content w = (inr (), w') →
  read_file d name w' = Some content ∧ job_store w' = job_store w.
Proof.
  intros Hd w'. unfold write_file. rewrite Hd. intros [= <-].
  unfold read_file. simpl. rewrite lookup_insert_eq. simpl.
  by rewrite lookup_insert_eq.
Qed.

(** The body of a successful [/convert-chunked] response, in terms of the
    calls into the document library. *)
Lemma convert_file_chunked_chunks d file im ctx mt w body w' recs :
  convert_file_chunked X d file im ctx mt w = (JSON body, w') →
  body !! "chunks" = Some (PList recs) →
  ∃ doc cs,
    convert X (filename file) (content file) = inr doc ∧
    chunk X (select_chunker mt) doc = inr cs ∧
    chunk_loop (chunk_info_sync X (suffix_lower X (filename file))
                  (sheets_of_upload X file) ctx (select_chunker mt)) 0 cs = inr recs ∧
    body =
      (if im then
         <["file_metadata" := PDict (file_metadata X (filename file) (content file)
                                       (suffix_lower X (filename file)) doc)]>
       else λ b, b)
      (<["chunks" := PList recs]>
      (<["chunking_config" := PDict (chunking_config mt ctx)]>
      (<["total_chunks" := PInt (Z.of_nat (length cs))]>
      (<["file_type" := PStr (file_type (suffix_lower X (filename file)))]>
      (<["filename" := PStr (filename file)]>
      (<["success" := PBool true]> ∅)))))).
Proof.
  unfold convert_file_chunked.
  destruct (supported (suffix_lower X (filename file))); simpl; [|done].
  unfold mbind, M_bind, write_file, mkdtemp, doc_converter_convert, get_excel_sheets,
    chunker_chunk, lift, read_excel_sheets, read_file, sheets_of_upload. simpl.
  repeat (rewrite lookup_insert_eq; simpl).
  destruct (convert X (filename file) (content file)) as [e|doc] eqn:Ec; simpl.
  { intros [= <- _]. by simplify_map_eq. }
  destruct (chunk X (select_chunker mt) doc) as [e|cs] eqn:Eh; simpl.
  { intros [= <- _]. by simplify_map_eq. }
  match goal with |- context [chunk_loop ?b 0 cs] => destruct (chunk_loop b 0 cs) as [e|recs'] eqn:El end; simpl.
  { intros [= <- _]. by simplify_map_eq. }
  intros [= <- _] Hrecs. exists doc, cs.
  assert (recs' = recs) as ->.
  { destruct im; [rewrite lookup_insert_ne in Hrecs by done|];
      rewrite lookup_insert_eq in Hrecs; by injection Hrecs. }
  split_and!; try done. by destruct im.
Qed.

(** The result assembled by the background job, in terms of the calls into
    the document library. *)
Lemma job_result_chunks id dir file im ctx mt t :
  locals X id dir file im ctx mt 5 t →
  ∃ doc cs recs,
    convert X (filename file) (content file) = inr doc ∧
    chunk X (select_chunker mt) doc = inr cs ∧
    chunk_loop (chunk_info_async X (suffix_lower X (filename file))
                  (sheets_of_upload X file) ctx (select_chunker mt)) 0 cs = inr recs ∧
    result_data t =
      async_extras X file
        (<["chunks" := PList recs]> (common_fields X file ctx mt (length cs))).
Proof.
  intros (H1 & H2 & H3 & H4 & H5).
  destruct H1 as (doc & Hd & Hc); [lia|].
  destruct H4 as (doc' & Hd' & Hch); [lia|].
  rewrite Hd in Hd'. injection Hd' as <-.
  specialize (H2 ltac:(lia)). specialize (H3 ltac:(lia)). specialize (H5 ltac:(lia)).
  unfold job_result_data, the_args, submitted_args in H5. simpl in H5.
  rewrite H2, H3 in H5. rewrite H2 in Hch.
  destruct (chunk_loop _ 0 (chunks t)) as [e|recs] eqn:El; simpl in H5; [done|].
  injection H5 as H5. exists doc, (chunks t), recs. by split_and!.
Qed.

Lemma sync_response_chunks d file im ctx mt w body w' recs :
  convert_file_chunked X d file im ctx mt w = (JSON body, w') →
  body !! "chunks" = Some (PList recs) →
  ∃ doc cs,
    convert X (filename file) (content file) = inr doc ∧
    chunk X (select_chunker mt) doc = inr cs ∧
    chunk_loop (chunk_info_sync X (suffix_lower X (filename file))
                  (sheets_of_upload X file) ctx (select_chunker mt)) 0 cs = inr recs ∧
    body = sync_extras X file im doc
             (<["chunks" := PList recs]> (common_fields X file ctx mt (length cs))).
Proof.
  intros H Hr. destruct (convert_file_chunked_chunks _ _ _ _ _ _ _ _ _ H Hr)
    as (doc & cs & ? & ? & ? & ->).
  exists doc, cs. split_and!; try done. unfold sync_extras. by destruct im.
Qed.

Lemma async_extras_chunks file payload :
  async_extras X file payload !! "chunks" = payload !! "chunks".
Proof. unfold async_extras. case_bool_decide; by simplify_map_eq. Qed.

(** Every chunked result comes from one conversion and one chunking of the
    upload, followed by one of the two record loops. *)
Lemma chunked_result_chunks file ctx mt rd recs :
  chunked_result X file ctx mt rd → rd !! "chunks" = Some (PList recs) →
  ∃ doc cs,
    convert X (filename file) (content file) = inr doc ∧
    chunk X (select_chunker mt) doc = inr cs ∧
    (chunk_loop (chunk_info_sync X (suffix_lower X (filename file))
                   (sheets_of_upload X file) ctx (select_chunker mt)) 0 cs = inr recs ∨
     chunk_loop (chunk_info_async X (suffix_lower X (filename file))
                   (sheets_of_upload X file) ctx (select_chunker mt)) 0 cs = inr recs).
Proof.
  intros [dir im w body w' H|id dir im w0 sched job rd' Hs Hf Hj Hres] Hr.
  - destruct (sync_response_chunks _ _ _ _ _ _ _ _ _ H Hr) as (doc & cs & ? & ? & ? & _).
    exists doc, cs. eauto.
  - pose proof (inv_reachable X id dir file im ctx mt w0 sched Hs Hf) as Hi.
    destruct (reached X id dir file im ctx mt w0 sched) as [t w]. simpl in Hj.
    destruct (inv_result X id dir file im ctx mt _ _ _ _ Hi Hj Hres) as [Heq Hlo].
    injection Heq as ->.
    destruct (job_result_chunks _ _ _ _ _ _ _ Hlo) as (doc & cs & recs' & ? & ? & Hl & Hrd).
    rewrite Hrd, async_extras_chunks, lookup_insert_eq in Hr. injection Hr as ->.
    exists doc, cs. eauto.
Qed.

(** C9. In every chunked-conversion result, synchronous or asynchronous,
    the record at position [i] (counted from 0) has [chunk_id] equal to
    [i + 1], its [pages] list is sorted in ascending order, and [pages] is
    empty when the upload is an [.xlsx] file. *)
Theorem chunk_records_numbered_and_paged file ctx mt rd recs i r :
  chunked_result X file ctx mt rd → rd !! "chunks" = Some (PList recs) →
  recs !! i = Some r →
  ∃ d, r = PDict d ∧ record_ok (suffix_lower X (filename file)) i d.
Proof.
  intros Hres Hr Hi.
  destruct (chunked_result_chunks _ _ _ _ _ Hres Hr) as (doc & cs & _ & _ & [Hl|Hl]);
    destruct (chunk_loop_lookup _ _ _ _ _ _ Hl Hi) as (c & d & _ & Hb & ->);
    exists d; (split; [done|]); simpl in Hb.
  - by apply (chunk_info_sync_fields X _ _ _ _ _ _ _ Hb).
  - by apply (chunk_info_async_fields X _ _ _ _ _ _ _ Hb).
Qed.

(** C10. When a request gives a [max_tokens] other than the default 512, the
    chunks come from the chunker selected for that value, which for any
    value other than 0 is a chunker built on a new tokenizer with that limit;
    but the [token_count] reported in each chunk record is computed by the
    module-level tokenizer with limit 512, in the synchronous and in the
    asynchronous path alike: the custom tokenizer takes no part in it. *)
Theorem token_count_uses_default_tokenizer file ctx n rd recs :
  n ≠ 512 →
  chunked_result X file ctx (Some n) rd → rd !! "chunks" = Some (PList recs) →
  ∃ doc cs,
    convert X (filename file) (content file) = inr doc ∧
    chunk X (select_chunker (Some n)) doc = inr cs ∧
    (n ≠ 0 →
       select_chunker (Some n)
         = HybridChunker (HuggingFaceTokenizer EMBED_MODEL_ID n) true) ∧
    length recs = length cs ∧
    ∀ i r, recs !! i = Some r →
      ∃ c d v, cs !! i = Some c ∧ r = PDict d ∧ d !! "token_count" = Some v ∧
               counted_by X (HuggingFaceTokenizer EMBED_MODEL_ID 512) c v.
Proof.
  intros Hn Hres Hr.
  destruct (chunked_result_chunks _ _ _ _ _ Hres Hr) as (doc & cs & Hc & Hch & Hl).
  exists doc, cs. split_and!; try done.
  - intros Hn0. unfold select_chunker. by rewrite bool_decide_eq_true_2.
  - destruct Hl as [Hl|Hl]; by apply chunk_loop_length in Hl.
  - intros i r Hi.
    destruct Hl as [Hl|Hl];
      destruct (chunk_loop_lookup _ _ _ _ _ _ Hl Hi) as (c & d & Hci & Hb & ->);
      simpl in Hb; exists c, d.
    + destruct (chunk_info_sync_fields X _ _ _ _ _ _ _ Hb) as (_ & v & ? & ?). eauto.
    + destruct (chunk_info_async_fields X _ _ _ _ _ _ _ Hb) as (_ & v & ? & ?). eauto.
Qed.

(** C3, as amended. For the same upload and the same [contextualize] and
    [max_tokens], the body of a successful [/convert-chunked] response and
    the result stored by the background job agree on [success], [filename],
    [file_type], [total_chunks] and [chunking_config], and their chunk
    records agree field by field once the debug fields of the synchronous
    records are set aside. The synchronous body has, in addition,
    [debug_chunk_attrs] in every chunk record and [file_metadata] when
    [include_metadata] is set; the stored result has, in addition,
    [excel_sheets] and [total_sheets] for an [.xlsx] upload whose sheet
    names could be read. *)
Theorem sync_and_async_results_agree_up_to_extras
    id dir dir' file im im' ctx mt ws body ws' recs w0 sched job rd :
  convert_file_chunked X dir' file im' ctx mt ws = (JSON body, ws') →
  body !! "chunks" = Some (PList recs) →
  supported (suffix_lower X (filename file)) = true → fresh_dir dir w0 →
  job_store (reached X id dir file im ctx mt w0 sched).2 !! id = Some job →
  job !! "result" = Some (PDict rd) →
  ∃ doc,
    body = sync_extras X file im' doc
             (<["chunks" := PList recs]> (common_fields X file ctx mt (length recs))) ∧
    rd = async_extras X file
           (<["chunks" := PList (on_dict strip_debug <$> recs)]>
              (common_fields X file ctx mt (length recs))) ∧
    ∀ r, r ∈ recs → ∃ d, r = PDict d ∧ is_Some (d !! "debug_chunk_attrs").
Proof.
  intros Hsync Hr Hs Hf Hj Hres.
  destruct (sync_response_chunks _ _ _ _ _ _ _ _ _ Hsync Hr)
    as (doc & cs & Hc & Hch & Hl & Hbody).
  pose proof (inv_reachable X id dir file im ctx mt w0 sched Hs Hf) as Hi.
  destruct (reached X id dir file im ctx mt w0 sched) as [t w]. simpl in Hj.
  destruct (inv_result X id dir file im ctx mt _ _ _ _ Hi Hj Hres) as [Heq Hlo].
  injection Heq as ->.
  destruct (job_result_chunks _ _ _ _ _ _ _ Hlo)
    as (doc' & cs' & recs' & Hc' & Hch' & Hl' & Hrd).
  rewrite Hc in Hc'. injection Hc' as <-. rewrite Hch in Hch'. injection Hch' as <-.
  rewrite (chunk_loop_map strip_debug _ _ _ _
             (chunk_info_sync_async X _ _ _ _)), Hl in Hl'.
  simpl in Hl'. injection Hl' as <-.
  rewrite (chunk_loop_length _ _ _ _ Hl). exists doc. split_and!; try done.
  intros r Hin. apply list_elem_of_lookup in Hin as [i Hi'].
  destruct (chunk_loop_lookup _ _ _ _ _ _ Hl Hi') as (c & d & _ & Hb & ->).
  exists d. split; [done|]. simpl in Hb. unfold chunk_info_sync in Hb.
  destruct (chunk_info_head X ctx (select_chunker mt) i c) as [e|h]; simpl in Hb; [done|].
  injection Hb as <-. rewrite lookup_insert_ne by done.
  rewrite provenance_fields_other by (unfold provenance_keys; set_solver).
  destruct (meta c); [rewrite lookup_insert_ne by done|]; by rewrite lookup_insert_eq.
Qed.

End ChunkedResults.

(** ** Rejections *)

Section Rejections.
Context (X : externals).

Ltac batch_close :=
  simpl; rewrite ?lookup_insert_eq; split_and!;
  try done; try (by eauto); try (by rewrite <- ?app_assoc);
  try (repeat constructor; done).

Lemma client_error_400 detail : client_error (HTTPException 400 detail).
Proof. exists 400, detail. split; [done|lia]. Qed.

Lemma to_markdown_spec uc ctx doc w :
  ∃ evs, to_markdown X uc ctx doc w =
           (markdown_of X uc ctx doc,
            {| job_store := job_store w; disk := disk w;
               log := log w ++ evs; clock := clock w |}) ∧
         Forall (batch_event X) evs.
Proof.
  unfold to_markdown, markdown_of. destruct uc; simpl.
  - unfold mbind at 1, M_bind, chunker_chunk, lift, emit. simpl.
    exists [EvChunk (tok_max_tokens (chunker_tokenizer chunker))].
    split; [|by repeat constructor].
    destruct (chunk X chunker doc) as [e|cs]; simpl; [done|].
    by destruct (markdown_parts X ctx 0 cs).
  - exists []. split; [|constructor]. rewrite app_nil_r. by destruct w.
Qed.

(** One file of a batch: the store is untouched, the directory stays, the
    log grows by batch events only, one entry is appended to [results], and
    [converted_files] changes only for a convertible file. *)
Lemma batch_step_spec d uc ctx results cf w file :
  is_Some (disk w !! d) →
  ∃ entry cf' w' evs,
    batch_step X d uc ctx ((results, cf), w) file = ((results ++ [entry], cf'), w') ∧
    job_store w' = job_store w ∧ is_Some (disk w' !! d) ∧
    log w' = log w ++ evs ∧ Forall (batch_event X) evs ∧
    (supported (suffix_lower X (filename file)) = false →
       entry = skipped_entry file ∧ evs = []) ∧
    (¬ convertible X uc ctx file → cf' = cf).
Proof.
  intros [files Hd]. unfold batch_step.
  destruct (supported (suffix_lower X (filename file))) eqn:Hs; simpl.
  2:{ exists (skipped_entry file), cf, w, []. rewrite app_nil_r.
      by split_and!. }
  unfold convert_one. unfold mbind at 1, M_bind, write_file. rewrite Hd. simpl.
  unfold mbind at 1, M_bind, doc_converter_convert, read_file. simpl.
  rewrite lookup_insert_eq. simpl. rewrite lookup_insert_eq.
  destruct (convert X (filename file) (content file)) as [e|doc] eqn:Ec; simpl.
  { eexists _, cf, _, [EvWrite d (filename file); EvConvert d (filename file)].
    split; [reflexivity|]. batch_close. }
  unfold mbind, M_bind. simpl.
  match goal with |- context [to_markdown X uc ctx doc ?w1] =>
    destruct (to_markdown_spec uc ctx doc w1) as (evs & -> & Hevs) end.
  simpl.
  destruct (markdown_of X uc ctx doc) as [e|md] eqn:Em; simpl.
  { eexists _, cf, _, (EvWrite d (filename file) :: EvConvert d (filename file) :: evs).
    split; [reflexivity|]. batch_close. }
  assert (convertible X uc ctx file) as Hconv by (split; eauto).
  destruct uc; simpl.
  - unfold chunker_chunk. simpl.
    destruct (chunk X chunker doc) as [e|cs]; simpl;
      (eexists _, _, _,
         (EvWrite d (filename file) :: EvConvert d (filename file) :: evs ++
          [EvChunk (tok_max_tokens (chunker_tokenizer chunker))]);
       split; [reflexivity|]; batch_close).
    all: repeat constructor; try done; apply Forall_app; split; [done|];
      by repeat constructor.
  - eexists _, _, _, (EvWrite d (filename file) :: EvConvert d (filename file) :: evs).
    split; [reflexivity|]. batch_close.
Qed.

Lemma batch_fold_spec d uc ctx files results cf w :
  is_Some (disk w !! d) →
  ∃ results' cf' w' evs,
    foldl (batch_step X d uc ctx) ((results, cf), w) files
      = ((results ++ results', cf'), w') ∧
    job_store w' = job_store w ∧ is_Some (disk w' !! d) ∧
    log w' = log w ++ evs ∧ Forall (batch_event X) evs ∧
    (∀ f, f ∈ files → supported (suffix_lower X (filename f)) = false →
          skipped_entry f ∈ results') ∧
    ((∀ f, f ∈ files → ¬ convertible X uc ctx f) → cf' = cf).
Proof.
  revert results cf w. induction files as [|file files IH]; intros results cf w Hd.
  - exists [], cf, w, []. rewrite !app_nil_r.
    split_and!; try done; try (intros f Hf; by apply elem_of_nil in Hf).
  - cbn [foldl].
    destruct (batch_step_spec d uc ctx results cf w file Hd)
      as (entry & cf1 & w1 & evs1 & -> & Hs1 & Hd1 & Hl1 & He1 & Hskip & Hcf1).
    destruct (IH (results ++ [entry]) cf1 w1 Hd1)
      as (results' & cf' & w' & evs & -> & Hs & Hd' & Hl & He & Hsk & Hcf).
    exists (entry :: results'), cf', w', (evs1 ++ evs).
    split; [by rewrite <- app_assoc|]. split_and!; try done.
    + congruence.
    + by rewrite Hl, Hl1, app_assoc.
    + by apply Forall_app.
    + intros f Hf Hun. apply elem_of_cons in Hf as [->|Hf].
      * destruct (Hskip Hun) as [-> _]. apply elem_of_cons. by left.
      * apply elem_of_cons. right. by apply Hsk.
    + intros Hnone. rewrite Hcf.
      * apply Hcf1, Hnone, elem_of_cons. by left.
      * intros f Hf. apply Hnone, elem_of_cons. by right.
Qed.

(** The outcome of [/convert-multiple] on at most ten files. *)
Lemma convert_multiple_spec d files fmt uc ctx w :
  (length files ≤ 10)%nat →
  ∃ results cf w' evs,
    convert_multiple_files X d files fmt uc ctx w =
      (match fmt with
       | json =>
           JSON (<["converted_content" := PDict (PStr <$> cf)]>
                (<["results" := PList results]>
                (<["contextualize_applied" := PBool ctx]>
                (<["chunking_applied" := PBool uc]>
                (<["successful_conversions" := PInt (Z.of_nat (size cf))]>
                (<["total_files" := PInt (Z.of_nat (length files))]> ∅))))))
       | zip =>
           if bool_decide (cf ≠ ∅) then
             Response (Zip cf) "application/zip"
               [("Content-Disposition",
                 "attachment; filename=docling_converted_files.zip")]
           else HTTPException 400 "변환 가능한 파일이 없습니다."
       end, w') ∧
    job_store w' = job_store w ∧
    log w' = log w ++ EvMkdtemp d :: evs ++ [EvRmtree Handler d] ∧
    Forall (batch_event X) evs ∧
    (∀ f, f ∈ files → supported (suffix_lower X (filename f)) = false →
          skipped_entry f ∈ results) ∧
    ((∀ f, f ∈ files → ¬ convertible X uc ctx f) → cf = ∅).
Proof.
  intros Hlen. unfold convert_multiple_files.
  rewrite bool_decide_eq_false_2 by lia.
  destruct (batch_fold_spec d uc ctx files [] ∅ (mkdtemp d w))
    as (results & cf & w1 & evs & -> & Hs & Hd & Hl & He & Hsk & Hcf).
  { simpl. rewrite lookup_insert_eq. eauto. }
  simpl. exists results, cf, (cleanup d w1), evs.
  split; [by destruct fmt; [case_bool_decide|]|].
  unfold cleanup, path_exists. rewrite (bool_decide_eq_true_2 _ Hd).
  simpl. rewrite Hl. simpl. rewrite <- !app_assoc. by split_and!.
Qed.

(** C2, as amended. An upload whose extension is outside the supported set
    is rejected by [/convert], [/convert-chunked] and [/convert-chunked-async]
    with status 400 before any directory is created, any job is recorded or
    any call to the adapter is made. [/convert-multiple] does not reject the
    request for it: it creates its one directory for the batch first, then
    skips the file with a failure entry in [results], never writing the file
    or handing it to the adapter, and creates no job record. *)
Theorem unsupported_upload_handling file :
  supported (suffix_lower X (filename file)) = false →
  (∀ d o im uc ctx, rejects_untouched (convert_file X d file o im uc ctx)) ∧
  (∀ d im ctx mt, rejects_untouched (convert_file_chunked X d file im ctx mt)) ∧
  (∀ id d im ctx mt,
     rejects_untouched (convert_file_chunked_async X id d file im ctx mt)) ∧
  (∀ d files fmt uc ctx w,
     file ∈ files → (length files ≤ 10)%nat →
     ∃ evs,
       job_store (convert_multiple_files X d files fmt uc ctx w).2 = job_store w ∧
       log (convert_multiple_files X d files fmt uc ctx w).2
         = log w ++ EvMkdtemp d :: evs ∧
       (∀ d', (EvWrite d' (filename file) ∉ evs) ∧ (EvConvert d' (filename file) ∉ evs)) ∧
       (fmt = json →
          ∃ body results,
            (convert_multiple_files X d files fmt uc ctx w).1 = JSON body ∧
            body !! "results" = Some (PList results) ∧
            skipped_entry file ∈ results)).
Proof.
  intros Hun. split_and!.
  - intros d o im uc ctx w. unfold convert_file. rewrite Hun. simpl.
    split; [apply client_error_400|done].
  - intros d im ctx mt w. unfold convert_file_chunked. rewrite Hun. simpl.
    split; [apply client_error_400|done].
  - intros id d im ctx mt w. unfold convert_file_chunked_async. rewrite Hun. simpl.
    split; [apply client_error_400|done].
  - intros d files fmt uc ctx w Hin Hlen.
    destruct (convert_multiple_spec d files fmt uc ctx w Hlen)
      as (results & cf & w' & evs & -> & Hs & Hl & He & Hsk & _).
    simpl. exists (evs ++ [EvRmtree Handler d]). split_and!; try done.
    + intros d'. split; intros Hev; apply elem_of_app in Hev as [Hev|Hev].
      * rewrite Forall_forall in He. specialize (He _ Hev). simpl in He. congruence.
      * apply list_elem_of_singleton in Hev. done.
      * rewrite Forall_forall in He. specialize (He _ Hev). simpl in He. congruence.
      * apply list_elem_of_singleton in Hev. done.
    + intros ->. eexists _, results. split; [done|]. split; [by simplify_map_eq|].
      by apply Hsk.
Qed.

(** C6, as amended. [/convert-multiple] answers 400 without touching
    anything when more than ten files are submitted. When at most ten files
    are submitted and none of them is convertible, it answers 400 if the
    requested output format is [zip]; if the format is [json] it answers 200
    with a body that reports zero successful conversions. *)
Theorem convert_multiple_rejections d files fmt uc ctx w :
  ((10 < length files)%nat →
     convert_multiple_files X d files fmt uc ctx w
       = (HTTPException 400 "한 번에 최대 10개 파일까지 처리 가능합니다.", w)) ∧
  ((length files ≤ 10)%nat → (∀ f, f ∈ files → ¬ convertible X uc ctx f) →
     match fmt with
     | zip =>
         (convert_multiple_files X d files fmt uc ctx w).1
           = HTTPException 400 "변환 가능한 파일이 없습니다."
     | json =>
         ∃ body,
           (convert_multiple_files X d files fmt uc ctx w).1 = JSON body ∧
           body !! "successful_conversions" = Some (PInt 0) ∧
           body !! "converted_content" = Some (PDict ∅)
     end).
Proof.
  split.
  - intros Hlen. unfold convert_multiple_files. by rewrite bool_decide_eq_true_2.
  - intros Hlen Hnone.
    destruct (convert_multiple_spec d files fmt uc ctx w Hlen)
      as (results & cf & w' & evs & -> & _ & _ & _ & _ & Hcf).
    rewrite (Hcf Hnone). simpl. destruct fmt.
    + by rewrite bool_decide_eq_false_2 by (intros H; by apply H).
    + eexists. split; [done|]. rewrite fmap_empty. by simplify_map_eq.
Qed.

End Rejections.

(** ** The properties on the scenarios *)

Section ScenarioFacts.
Import Demo Scenario.

Lemma binary_unsupported : supported (suffix_lower X (filename binary)) = false.
Proof. vm_compute. reflexivity. Qed.

Lemma binary_not_convertible f : f ∈ [binary] → ¬ convertible X false true f.
Proof.
  intros Hf [Hs _]. apply list_elem_of_singleton in Hf as ->.
  by rewrite binary_unsupported in Hs.
Qed.

(** Counterexample to C1 as stated: the record is deleted while the job is
    in flight; the job ends with an uncaught [KeyError] raised by its cleanup
    step, and the only removal of the directory was made by the delete
    handler. *)
Lemma deleted_job_is_not_released_by_its_execution :
  (26 ≤ runs interrupted)%nat ∧
  pc cut_short.1 = Finished ∧
  pending cut_short.1 = Some (KeyError jid) ∧
  releases tmp (log cut_short.2) = [Handler] ∧
  releases tmp (log cut_short.2) ≠ [Background].
Proof. vm_compute. split_and!; try done. lia. Qed.

(** Counterexample to C4 as stated: right after the job has written the
    status [completed], the record in the store has a terminal status and
    neither [result] nor [error]. *)
Lemma completed_record_without_result :
  job_store midway.2 !! jid = Some (record_of midway) ∧
  record_of midway !! "status" = Some (PStr "completed") ∧
  record_of midway !! "result" = None ∧
  record_of midway !! "error" = None.
Proof. vm_compute. by split_and!. Qed.

(** Counterexample to C8 as stated: a poll at that moment answers with
    status [completed] while [result] and [completed_at] are still [None]. *)
Lemma poll_sees_completed_without_result :
  get_job_status jid midway.2 = JSON (body_of (get_job_status jid midway.2)) ∧
  body_of (get_job_status jid midway.2) !! "status" = Some (PStr "completed") ∧
  body_of (get_job_status jid midway.2) !! "result" = Some PNone ∧
  body_of (get_job_status jid midway.2) !! "completed_at" = Some PNone.
Proof. vm_compute. by split_and!. Qed.

(** Counterexample to C2 as stated: a batch holding only an unsupported file
    is not rejected by [/convert-multiple] when JSON output is requested,
    and a directory has been created for it. *)
Lemma batch_with_unsupported_file_is_not_rejected :
  supported (suffix_lower X (filename binary)) = false ∧
  ¬ rejects_untouched (convert_multiple_files X tmp' [binary] json false true) ∧
  EvMkdtemp tmp' ∈ log (batch_reply json).2.
Proof.
  split; [apply binary_unsupported|]. split.
  - intros H. destruct (H empty_world) as [(code & detail & Hr & _) _].
    vm_compute in Hr. discriminate.
  - vm_compute. apply elem_of_cons. by left.
Qed.

(** Counterexample to C6 as stated: no file of the batch is convertible,
    yet with JSON output the answer is not a 400-class error. *)
Lemma unconvertible_batch_answered_in_json :
  (∀ f, f ∈ [binary] → ¬ convertible X false true f) ∧
  ¬ client_error (batch_reply json).1 ∧
  body_of (batch_reply json).1 !! "successful_conversions" = Some (PInt 0).
Proof.
  split; [apply binary_not_convertible|]. split.
  - intros (code & detail & Hr & _). vm_compute in Hr. discriminate.
  - vm_compute. reflexivity.
Qed.

(** Counterexample to C3 as stated: for the same upload and parameters both
    paths succeed, but the payloads differ: the first synchronous chunk
    record has [debug_chunk_attrs], the first stored one has not. *)
Lemma sync_and_async_payloads_differ :
  body_of sync_reply.1 !! "success" = Some (PBool true) ∧
  result_of ended !! "success" = Some (PBool true) ∧
  body_of sync_reply.1 ≠ result_of ended ∧
  (∃ d, chunks_of (body_of sync_reply.1) !! 0%nat = Some (PDict d) ∧
        is_Some (d !! "debug_chunk_attrs")) ∧
  (∃ d, chunks_of (result_of ended) !! 0%nat = Some (PDict d) ∧
        d !! "debug_chunk_attrs" = None).
Proof.
  split_and!.
  - vm_compute. reflexivity.
  - vm_compute. reflexivity.
  - intros H. apply (f_equal chunks_of) in H. vm_compute in H. discriminate.
  - eexists. split; [vm_compute; reflexivity|]. vm_compute. eauto.
  - eexists. split; [vm_compute; reflexivity|]. vm_compute. reflexivity.
Qed.

(** With a limit of 5 tokens the first chunk is ["hello"]; the record
    reports the count of the 512-token tokenizer, which on this instance is
    not the count that the tokenizer of the request would give. *)
Lemma reported_count_is_not_the_custom_count :
  (∃ d, chunks_of (result_of ended_custom) !! 0%nat = Some (PDict d) ∧
        d !! "text" = Some (PStr "hello") ∧
        d !! "token_count" = Some (PInt 517)) ∧
  count_tokens X tokenizer "hello" = inr 517 ∧
  count_tokens X (HuggingFaceTokenizer EMBED_MODEL_ID 5) "hello" = inr 10.
Proof.
  split_and!.
  - eexists. split; [vm_compute; reflexivity|]. vm_compute. by split.
  - vm_compute. reflexivity.
  - vm_compute. reflexivity.
Qed.

(** The toy chunker locates the first chunk on pages 2 and 1: the record of
    [notes.txt] lists them in ascending order, and numbers the chunk 1. *)
Lemma first_chunk_of_notes :
  ∃ d, chunks_of (body_of sync_reply.1) !! 0%nat = Some (PDict d) ∧
       d !! "chunk_id" = Some (PInt 1) ∧
       d !! "pages" = Some (PList [PInt 1; PInt 2]) ∧
       d !! "section_index" = None.
Proof. eexists. split; [vm_compute; reflexivity|]. vm_compute. by split_and!. Qed.

(** The second chunk has no provenance: no pages, and a section index. *)
Lemma second_chunk_of_notes :
  ∃ d, chunks_of (body_of sync_reply.1) !! 1%nat = Some (PDict d) ∧
       d !! "chunk_id" = Some (PInt 2) ∧
       d !! "pages" = Some (PList []) ∧
       d !! "section_index" = Some (PInt 2).
Proof. eexists. split; [vm_compute; reflexivity|]. vm_compute. by split_and!. Qed.

(** For [Book.XLSX] the same page numbers select sheets, and [pages] stays
    empty. *)
Lemma first_chunk_of_sheet :
  ∃ d, chunks_of (body_of sheet_reply.1) !! 0%nat = Some (PDict d) ∧
       d !! "pages" = Some (PList []) ∧
       d !! "sheet_names" = Some (PList [PStr "Sheet1"; PStr "Sheet2"]) ∧
       d !! "sheet_index" = Some (PList [PInt 1; PInt 2]).
Proof. eexists. split; [vm_compute; reflexivity|]. vm_compute. by split_and!. Qed.

End ScenarioFacts.

(** ** The theorems applied to the scenarios *)

Section Witnesses.
Import Demo Scenario.

(** The release theorem on the interrupted job: the directory is gone and was removed once. *)
Lemma workspace_released_exactly_once_witness :
  supported (suffix_lower X (filename notes)) = true ∧
  fresh_dir tmp empty_world ∧
  (26 ≤ runs interrupted)%nat ∧
  pc cut_short.1 = Finished ∧ disk cut_short.2 !! tmp = None ∧
  ∃ who, releases tmp (log cut_short.2) = [who].
Proof.
  assert (supported (suffix_lower X (filename notes)) = true) as Hs
    by (vm_compute; reflexivity).
  assert (fresh_dir tmp empty_world) as Hf.
  { split; [discriminate|]. split; [|reflexivity].
    intros k job H. vm_compute in H. discriminate. }
  assert (26 ≤ runs interrupted)%nat as Hn by (vm_compute; lia).
  split; [exact Hs|]. split; [exact Hf|]. split; [exact Hn|].
  destruct (workspace_released_exactly_once X jid tmp notes false true None
              empty_world interrupted Hs Hf Hn) as (Hp & Hd & who & Hw & _).
  split; [exact Hp|]. split; [exact Hd|]. exists who. exact Hw.
Defined.

(** The outcome theorem on the job that ran to its end. *)
Lemma outcome_follows_status_witness :
  supported (suffix_lower X (filename notes)) = true ∧
  fresh_dir tmp empty_world ∧
  job_store ended.2 !! jid = Some (record_of ended) ∧
  ∃ st, record_of ended !! "status" = Some (PStr st) ∧
        (outcome_written (pc ended.1) = true →
           (st = "completed" ∧ is_Some (record_of ended !! "result") ∧
            record_of ended !! "error" = None) ∨
           (st = "failed" ∧ is_Some (record_of ended !! "error") ∧
            record_of ended !! "result" = None)).
Proof.
  assert (supported (suffix_lower X (filename notes)) = true) as Hs
    by (vm_compute; reflexivity).
  assert (fresh_dir tmp empty_world) as Hf.
  { split; [discriminate|]. split; [|reflexivity].
    intros k job H. vm_compute in H. discriminate. }
  assert (job_store ended.2 !! jid = Some (record_of ended)) as Hj
    by (vm_compute; reflexivity).
  split; [exact Hs|]. split; [exact Hf|]. split; [exact Hj|].
  destruct (outcome_follows_status X jid tmp notes false true None empty_world
              undisturbed _ Hs Hf Hj) as (st & Hst & _ & _ & _ & _ & Hout).
  exists st. split; [exact Hst|exact Hout].
Defined.

(** The progress theorem on the job that ran to its end. *)
Lemma progress_never_decreases_witness :
  supported (suffix_lower X (filename notes)) = true ∧
  fresh_dir tmp empty_world ∧
  Sorted Z.le
    (until_terminal
       (observations X jid tmp notes false true None empty_world undisturbed)).*2 ∧
  Forall (λ o, 0 ≤ o.2 ≤ 100)
    (observations X jid tmp notes false true None empty_world undisturbed).
Proof.
  assert (supported (suffix_lower X (filename notes)) = true) as Hs
    by (vm_compute; reflexivity).
  assert (fresh_dir tmp empty_world) as Hf.
  { split; [discriminate|]. split; [|reflexivity].
    intros k job H. vm_compute in H. discriminate. }
  split; [exact Hs|]. split; [exact Hf|].
  exact (progress_never_decreases X jid tmp notes false true None empty_world
           undisturbed Hs Hf).
Defined.

(** Deleting the record of the job that ran to its end. *)
Lemma delete_after_release_succeeds_witness :
  supported (suffix_lower X (filename notes)) = true ∧
  fresh_dir tmp empty_world ∧
  pc ended.1 = Finished ∧
  is_Some (job_store ended.2 !! jid) ∧
  disk ended.2 !! tmp = None ∧
  releases tmp (log ended.2) = [Background] ∧
  delete_job jid ended.2 = (delete_confirmation jid, with_store (delete jid) ended.2).
Proof.
  assert (supported (suffix_lower X (filename notes)) = true) as Hs
    by (vm_compute; reflexivity).
  assert (fresh_dir tmp empty_world) as Hf.
  { split; [discriminate|]. split; [|reflexivity].
    intros k job H. vm_compute in H. discriminate. }
  assert (pc ended.1 = Finished) as Hp by (vm_compute; reflexivity).
  assert (is_Some (job_store ended.2 !! jid)) as Hj
    by (exists (record_of ended); vm_compute; reflexivity).
  split; [exact Hs|]. split; [exact Hf|].
  split; [exact Hp|]. split; [exact Hj|].
  exact (delete_after_release_succeeds X jid tmp notes false true None empty_world
           undisturbed Hs Hf Hp Hj).
Defined.

(** The polling theorem on the job that ran to its end. *)
Lemma poll_sees_prefix_of_writes_witness :
  supported (suffix_lower X (filename notes)) = true ∧
  fresh_dir tmp empty_world ∧
  get_job_status jid ended.2 = JSON (body_of (get_job_status jid ended.2)) ∧
  (written "completed_at" (body_of (get_job_status jid ended.2)) →
   written "result" (body_of (get_job_status jid ended.2))).
Proof.
  assert (supported (suffix_lower X (filename notes)) = true) as Hs
    by (vm_compute; reflexivity).
  assert (fresh_dir tmp empty_world) as Hf.
  { split; [discriminate|]. split; [|reflexivity].
    intros k job H. vm_compute in H. discriminate. }
  assert (get_job_status jid ended.2 = JSON (body_of (get_job_status jid ended.2)))
    as Hg by (vm_compute; reflexivity).
  split; [exact Hs|]. split; [exact Hf|]. split; [exact Hg|].
  exact (proj1 (proj2 (proj2
           (poll_sees_prefix_of_writes X jid tmp notes false true None empty_world
              undisturbed _ Hs Hf Hg)))).
Defined.

(** The rejection theorem on [setup.exe]. *)
Lemma unsupported_upload_handling_witness :
  supported (suffix_lower X (filename binary)) = false ∧
  rejects_untouched (convert_file_chunked_async X jid tmp binary false true None).
Proof.
  assert (supported (suffix_lower X (filename binary)) = false) as Hs
    by (vm_compute; reflexivity).
  split; [exact Hs|].
  exact (proj1 (proj2 (proj2 (unsupported_upload_handling X binary Hs)))
           jid tmp false true None).
Defined.

(** The batch theorem on a batch holding only [setup.exe], with ZIP output. *)
Lemma convert_multiple_rejections_witness :
  (length [binary] ≤ 10)%nat ∧
  (∀ f, f ∈ [binary] → ¬ convertible X false true f) ∧
  (batch_reply zip).1 = HTTPException 400 "변환 가능한 파일이 없습니다.".
Proof.
  assert (length [binary] ≤ 10)%nat as Hl by (vm_compute; lia).
  assert (∀ f, f ∈ [binary] → ¬ convertible X false true f) as Hn.
  { intros f Hf [Hs _]. apply list_elem_of_singleton in Hf. subst f.
    vm_compute in Hs. discriminate. }
  split; [exact Hl|]. split; [exact Hn|].
  exact (proj2 (convert_multiple_rejections X tmp' [binary] zip false true empty_world)
           Hl Hn).
Defined.

(** The record theorem on the second chunk of the synchronous conversion of [notes.txt]. *)
Lemma chunk_records_numbered_and_paged_witness :
  chunked_result X notes true None (body_of sync_reply.1) ∧
  body_of sync_reply.1 !! "chunks"
    = Some (PList (chunks_of (body_of sync_reply.1))) ∧
  (∀ r, chunks_of (body_of sync_reply.1) !! 1%nat = Some r →
        ∃ d, r = PDict d ∧ record_ok ".txt" 1 d).
Proof.
  assert (chunked_result X notes true None (body_of sync_reply.1)) as Hc.
  { apply (sync_result X notes true None tmp' false empty_world _ sync_reply.2).
    vm_compute. reflexivity. }
  assert (body_of sync_reply.1 !! "chunks"
            = Some (PList (chunks_of (body_of sync_reply.1)))) as Hr
    by (vm_compute; reflexivity).
  split; [exact Hc|]. split; [exact Hr|].
  intros r Hi.
  exact (chunk_records_numbered_and_paged X notes true None _ _ 1%nat r Hc Hr Hi).
Defined.

(** The token-count theorem on the job run with a limit of 5 tokens. *)
Lemma token_count_uses_default_tokenizer_witness :
  (5 : Z) ≠ 512 ∧
  chunked_result X notes true (Some 5) (result_of ended_custom) ∧
  result_of ended_custom !! "chunks" = Some (PList (chunks_of (result_of ended_custom))) ∧
  ∃ doc cs,
    convert X (filename notes) (content notes) = inr doc ∧
    chunk X (select_chunker (Some 5)) doc = inr cs ∧
    length (chunks_of (result_of ended_custom)) = length cs.
Proof.
  assert ((5 : Z) ≠ 512) as H5 by lia.
  assert (chunked_result X notes true (Some 5) (result_of ended_custom)) as Hc.
  { apply (async_result X notes true (Some 5) jid tmp false empty_world undisturbed
             (record_of ended_custom)).
    - vm_compute. reflexivity.
    - split; [discriminate|]. split; [|reflexivity].
      intros k job H. vm_compute in H. discriminate.
    - vm_compute. reflexivity.
    - vm_compute. reflexivity. }
  assert (result_of ended_custom !! "chunks"
            = Some (PList (chunks_of (result_of ended_custom)))) as Hr
    by (vm_compute; reflexivity).
  split; [exact H5|]. split; [exact Hc|]. split; [exact Hr|].
  destruct (token_count_uses_default_tokenizer X notes true 5 _ _ H5 Hc Hr)
    as (doc & cs & Hd & Hk & _ & Hl & _).
  exists doc, cs. split; [exact Hd|]. split; [exact Hk|exact Hl].
Defined.

(** The comparison theorem on the two conversions of [notes.txt]. *)
Lemma sync_and_async_results_agree_up_to_extras_witness :
  sync_reply = (JSON (body_of sync_reply.1), sync_reply.2) ∧
  body_of sync_reply.1 !! "chunks"
    = Some (PList (chunks_of (body_of sync_reply.1))) ∧
  supported (suffix_lower X (filename notes)) = true ∧
  fresh_dir tmp empty_world ∧
  job_store ended.2 !! jid = Some (record_of ended) ∧
  record_of ended !! "result" = Some (PDict (result_of ended)) ∧
  ∃ doc,
    result_of ended =
      async_extras X notes
        (<["chunks" := PList (on_dict strip_debug <$> chunks_of (body_of sync_reply.1))]>
           (common_fields X notes true None
              (length (chunks_of (body_of sync_reply.1))))) ∧
    body_of sync_reply.1 =
      sync_extras X notes false doc
        (<["chunks" := PList (chunks_of (body_of sync_reply.1))]>
           (common_fields X notes true None
              (length (chunks_of (body_of sync_reply.1))))).
Proof.
  assert (sync_reply = (JSON (body_of sync_reply.1), sync_reply.2))
    as Hy by (vm_compute; reflexivity).
  assert (body_of sync_reply.1 !! "chunks"
            = Some (PList (chunks_of (body_of sync_reply.1)))) as Hk
    by (vm_compute; reflexivity).
  assert (supported (suffix_lower X (filename notes)) = true) as Hs
    by (vm_compute; reflexivity).
  assert (fresh_dir tmp empty_world) as Hf.
  { split; [discriminate|]. split; [|reflexivity].
    intros k job H. vm_compute in H. discriminate. }
  assert (job_store ended.2 !! jid = Some (record_of ended)) as Hj
    by (vm_compute; reflexivity).
  assert (record_of ended !! "result" = Some (PDict (result_of ended))) as Hres
    by (vm_compute; reflexivity).
  split; [exact Hy|]. split; [exact Hk|]. split; [exact Hs|]. split; [exact Hf|].
  split; [exact Hj|]. split; [exact Hres|].
  destruct (sync_and_async_results_agree_up_to_extras X jid tmp tmp' notes false false
              true None empty_world _ _ _ empty_world undisturbed _ _
              Hy Hk Hs Hf Hj Hres) as (doc & Hb & Hrd & _).
  exists doc. split; [exact Hrd|exact Hb].
Defined.

End Witnesses.
(** * Further properties of the code *)

(** ** The synchronous conversions *)

Section SyncHandlers.
Context (X : externals).

Lemma convert_file_chunked_spec d file im ctx mt w :
  supported (suffix_lower X (filename file)) = true →
  ∃ evs,
    convert_file_chunked X d file im ctx mt w =
      (JSON (match sync_outcome X file im ctx mt with
             | inr body => body
             | inl e => failure_body file (str_exn e)
             end),
       {| job_store := job_store w; disk := delete d (disk w);
          log := log w ++ EvMkdtemp d :: EvWrite d (filename file) ::
                   EvConvert d (filename file) :: evs ++ [EvRmtree Handler d];
          clock := clock w |}) ∧
    (evs = [] ∨ evs = [EvChunk (tok_max_tokens (chunker_tokenizer (select_chunker mt)))]).
Proof.
  intros Hs. unfold convert_file_chunked, sync_outcome. rewrite Hs. simpl.
  unfold mbind, M_bind, write_file, mkdtemp, doc_converter_convert, get_excel_sheets,
    chunker_chunk, lift, read_excel_sheets, read_file, sheets_of_upload. simpl.
  repeat (rewrite lookup_insert_eq; simpl).
  assert (∀ l c, cleanup d {| job_store := job_store w;
                   disk := <[d:=<[filename file:=content file]> ∅]> (<[d:=∅]> (disk w));
                   log := l; clock := c |}
          = {| job_store := job_store w; disk := delete d (disk w);
               log := l ++ [EvRmtree Handler d];
               clock := c |}) as Hclean.
  { intros l c. unfold cleanup, path_exists. simpl. rewrite lookup_insert_eq.
    rewrite bool_decide_eq_true_2 by eauto. unfold emit, with_disk. simpl.
    by rewrite !delete_insert_eq. }
  destruct (convert X (filename file) (content file)) as [e|doc] eqn:Ec; simpl.
  { exists []. split; [|by left]. unfold emit, with_disk. simpl.
    rewrite Hclean. by rewrite <- !app_assoc. }
  destruct (chunk X (select_chunker mt) doc) as [e|cs] eqn:Eh; simpl.
  { eexists. split; [|by right]. unfold emit, with_disk. simpl.
    rewrite Hclean. by rewrite <- !app_assoc. }
  match goal with |- context [chunk_loop ?b 0 cs] =>
    destruct (chunk_loop b 0 cs) as [e|recs'] eqn:El end; simpl.
  { eexists. split; [|by right]. unfold emit, with_disk. simpl.
    rewrite Hclean. by rewrite <- !app_assoc. }
  eexists. split; [|by right]. unfold emit, with_disk. simpl.
  rewrite Hclean. rewrite <- !app_assoc. simpl.
  unfold sync_extras, common_fields. by destruct im.
Qed.



End SyncHandlers.

(** ** The outcome of the job *)

Section Outcome.
Context (X : externals).
Context (id dir : string) (file : UploadFile).
Context (include_metadata do_contextualize : bool) (max_tokens : option Z).

#[local] Abbreviation a := (the_args X id dir file include_metadata do_contextualize max_tokens).
#[local] Abbreviation inv := (inv X id dir file include_metadata do_contextualize max_tokens).
#[local] Abbreviation blamed := (blamed X id file do_contextualize max_tokens).
#[local] Abbreviation outcome := (job_outcome X file do_contextualize max_tokens).
#[local] Abbreviation state_after :=
  (reached X id dir file include_metadata do_contextualize max_tokens).

Lemma blamed_step t w :
  inv (t, w) → blamed (t, w) → blamed (task_step X a t w).
Proof.
  intros [Hun Hi] Hb.
  destruct (job_store w !! id) as [job|] eqn:Ej.
  2:{ destruct Hi as [Hd _].
      destruct (task_step_absent X id dir file include_metadata do_contextualize
                  max_tokens t w Ej Hd) as (Hs & _).
      intros job'. rewrite Hs, Ej. done. }
  specialize (Hb job Ej). simpl in Hb.
  destruct Hi as (Htd & Hsh & Hlo & Hpe & H618 & Hdisk).
  unfold task_step, the_args, submitted_args. simpl.
  destruct (pc t) eqn:Epc; simpl in *;
    unfold in_try, in_except, store_set; rewrite ?Ej; simpl.
  all: try (intros job'; simpl; rewrite lookup_insert_eq; intros [= <-];
            rewrite ?lookup_insert_ne by done; done).
  - (* L442 *)
    rewrite (read_file_upload dir file _ (proj1 Hdisk)).
    destruct (convert X (filename file) (content file)) as [e|d] eqn:Ec;
      intros job'; simpl; rewrite Ej; intros [= <-]; [|done].
    exists e. split; [done|]. unfold job_outcome. by rewrite Ec.
  - (* L448 *) intros job'; simpl; rewrite Ej; by intros [= <-].
  - (* L462 *) intros job'; simpl; rewrite Ej; by intros [= <-].
  - (* L476 *)
    destruct Hlo as (H1 & H2 & _).
    destruct H1 as (d & Hd & Hc); [lia|]. rewrite Hd.
    destruct (chunk X (active_chunker t) d) as [e|cs] eqn:Ech;
      intros job'; simpl; rewrite Ej; intros [= <-]; [|done].
    exists e. split; [done|]. unfold job_outcome. rewrite Hc. simpl.
    rewrite <- H2 by lia. by rewrite Ech.
  - (* L482 *)
    destruct (job_result_data X _ t) as [e|rd] eqn:Er;
      intros job'; simpl; rewrite Ej; intros [= <-]; [|done].
    exists e. split; [done|].
    destruct Hlo as (H1 & H2 & H3 & H4 & _).
    destruct H1 as (d & Hd & Hc); [lia|].
    destruct H4 as (d' & Hd' & Hch); [lia|].
    rewrite Hd in Hd'. injection Hd' as <-.
    unfold job_outcome. rewrite Hc. simpl.
    rewrite <- H2 by lia. rewrite Hch. simpl.
    unfold job_result_data in Er. simpl in Er. rewrite <- H3 by lia.
    by destruct (chunk_loop _ 0 (chunks t)).
  - (* L609 *)
    destruct Hb as (e & Hc & Ho). rewrite Hc.
    intros job'; simpl; rewrite lookup_insert_eq; intros [= <-].
    rewrite lookup_insert_eq. intros msg [= <-]. by exists e.
  - (* L614 *) intros job'; simpl; rewrite Ej; by intros [= <-].
  - (* L615 *)
    destruct (temp_dir_exists (temp_dir t) w);
      intros job'; simpl; rewrite Ej; by intros [= <-].
  - (* L618 *)
    destruct (temp_dir t); intros job'; simpl; rewrite ?Ej; try by intros [= <-].
    unfold rmtree. destruct (path_exists s w); simpl; rewrite Ej; by intros [= <-].
  - (* Finished *)
    intros job'; simpl; rewrite Epc, Ej; by intros [= <-].
Qed.

Lemma blamed_act s ev : dir ≠ "" → inv s → blamed s → blamed (act X a s ev).
Proof.
  intros Hne Hi Hb. destruct s as [t w]. destruct ev as [|k]; simpl.
  - pose proof (blamed_step t w Hi Hb) as H.
    by destruct (task_step X a t w) as [t' w'].
  - intros job. simpl.
    destruct (delete_job_effect k w) as [[_ ->]|(jobk & Hk & -> & _)]; [apply Hb|].
    intros Hj. apply lookup_delete_Some in Hj as [_ Hj]. by apply Hb.
Qed.

Lemma blamed_run s sched :
  dir ≠ "" → inv s → blamed s → blamed (run X a s sched).
Proof.
  intros Hne. revert s. induction sched as [|ev sched IH]; intros s Hi Hb; [done|].
  simpl. apply IH; [by apply inv_act|by apply blamed_act].
Qed.

Lemma blamed_reachable w0 sched :
  supported (suffix_lower X (filename file)) = true → fresh_dir dir w0 →
  blamed (state_after w0 sched).
Proof.
  intros Hs Hf. apply blamed_run; [apply Hf|by apply inv_submitted|].
  unfold submitted. rewrite (submitted_world X id dir file include_metadata
    do_contextualize max_tokens w0 Hs). intros job. simpl.
  rewrite lookup_insert_eq. intros [= <-]. unfold new_job. by simplify_map_eq.
Qed.

(** The record of a job that has ended. *)
Lemma ended_record w0 sched job :
  supported (suffix_lower X (filename file)) = true → fresh_dir dir w0 →
  (26 ≤ runs sched)%nat →
  job_store (state_after w0 sched).2 !! id = Some job →
  (∃ rd, outcome = inr rd ∧
     fields job "completed" 100 ∧ job !! "result" = Some (PDict rd) ∧
     job !! "error" = None ∧ is_Some (job !! "completed_at")) ∨
  (∃ e, outcome = inl e ∧
     fields job "failed" 0 ∧ job !! "error" = Some (PStr (str_exn e)) ∧
     job !! "result" = None ∧ is_Some (job !! "failed_at")).
Proof.
  intros Hs Hf Hr.
  pose proof (run_finishes X id dir file include_metadata do_contextualize
                max_tokens w0 sched Hr) as Hfin.
  pose proof (inv_reachable X id dir file include_metadata do_contextualize
                max_tokens w0 sched Hs Hf) as Hi.
  pose proof (blamed_reachable w0 sched Hs Hf) as Hb.
  destruct (state_after w0 sched) as [t w]. simpl in *. intros Hj.
  specialize (Hb job Hj). simpl in Hb. rewrite Hfin in Hb.
  destruct Hi as [_ Hi]. rewrite Hj, Hfin in Hi.
  destruct Hi as (_ & Hsh & _). simpl in Hsh.
  destruct Hsh as [(Hfl & Hres & Herr & [ts Hts] & _ & Hlo)
                  |(Hfl & Hres & [msg Hmsg] & _ & [ts Hts])].
  - left.
    destruct (job_result_chunks X _ _ _ _ _ _ _ Hlo)
      as (d & cs & recs & Hc & Hch & Hl & Hrd).
    exists (result_data t). split.
    + unfold job_outcome. rewrite Hc. simpl. rewrite Hch. simpl. rewrite Hl. simpl.
      by rewrite Hrd.
    + rewrite Hts. split_and!; eauto.
  - right. destruct (Hb msg Hmsg) as (e & He & ->). exists e.
    rewrite Hts. split_and!; eauto.
Qed.

(** X2. When the job has ended and its record is still in the store, the record
    tells what the pipeline computed from the upload: status completed,
    progress 100 and the result when conversion, chunking and the record
    loop succeeded; status failed, progress 0 and the message of the
    exception when one of them raised. *)
Theorem job_record_tells_pipeline_outcome w0 sched job :
  supported (suffix_lower X (filename file)) = true → fresh_dir dir w0 →
  (26 ≤ runs sched)%nat →
  job_store (state_after w0 sched).2 !! id = Some job →
  match outcome with
  | inr rd =>
      fields job "completed" 100 ∧ job !! "result" = Some (PDict rd) ∧
      job !! "error" = None ∧ is_Some (job !! "completed_at")
  | inl e =>
      fields job "failed" 0 ∧ job !! "error" = Some (PStr (str_exn e)) ∧
      job !! "result" = None ∧ is_Some (job !! "failed_at")
  end.
Proof.
  intros Hs Hf Hr Hj.
  destruct (ended_record w0 sched job Hs Hf Hr Hj) as [(rd & -> & H)|(e & -> & H)]; done.
Qed.

(** The two record loops fail together, with the same exception. *)
Lemma outcomes_fail_together im e :
  sync_outcome X file im do_contextualize max_tokens = inl e ↔ outcome = inl e.
Proof.
  unfold sync_outcome, job_outcome.
  destruct (convert X (filename file) (content file)) as [e1|d]; simpl; [done|].
  destruct (chunk X (select_chunker max_tokens) d) as [e1|cs]; simpl; [done|].
  rewrite (chunk_loop_map strip_debug _ _ _ _ (chunk_info_sync_async X _ _ _ _)).
  by destruct (chunk_loop _ 0 cs).
Qed.

(** X3. The job and [/convert-chunked] fail on the same uploads with the same
    message: the record of a job that has ended carries an error message
    exactly when the synchronous conversion of the same upload with the same
    parameters answers with that message in its failure body. *)
Theorem job_fails_as_synchronous_conversion_fails w0 sched job d' im' ws msg :
  supported (suffix_lower X (filename file)) = true → fresh_dir dir w0 →
  (26 ≤ runs sched)%nat →
  job_store (state_after w0 sched).2 !! id = Some job →
  job !! "error" = Some (PStr msg) ↔
  (convert_file_chunked X d' file im' do_contextualize max_tokens ws).1
    = JSON (failure_body file msg).
Proof.
  intros Hs Hf Hr Hj.
  destruct (convert_file_chunked_spec X d' file im' do_contextualize max_tokens ws Hs)
    as (evs & -> & _). simpl.
  destruct (ended_record w0 sched job Hs Hf Hr Hj)
    as [(rd & Ho & _ & _ & Herr & _)|(e & Ho & _ & Herr & _)].
  - rewrite Herr. split; [done|].
    destruct (sync_outcome X file im' do_contextualize max_tokens) as [e|body] eqn:Es.
    { apply outcomes_fail_together in Es. congruence. }
    intros Hb. exfalso.
    assert (body !! "success" = Some (PBool false)) as Hfalse.
    { pose proof (f_equal (λ r, match r with JSON b => b !! "success" | _ => None end) Hb)
        as Hb'. simpl in Hb'. rewrite Hb'. unfold failure_body. by simplify_map_eq. }
    unfold sync_outcome in Es.
    destruct (convert X _ _) as [|doc]; simpl in Es; [done|].
    destruct (chunk X _ _) as [|cs]; simpl in Es; [done|].
    destruct (chunk_loop _ _ _) as [|recs]; simpl in Es; [done|].
    injection Es as Es. rewrite <- Es in Hfalse.
    unfold sync_extras, common_fields in Hfalse.
    destruct im'; by simplify_map_eq.
  - rewrite Herr. apply outcomes_fail_together with (im := im') in Ho. rewrite Ho.
    split; [by intros [= ->]|].
    intros Hb.
    pose proof (f_equal (λ r, match r with JSON b => b !! "error" | _ => None end) Hb)
      as Hb'. simpl in Hb'. unfold failure_body in Hb'.
    by simplify_map_eq.
Qed.

End Outcome.

(** ** Batches *)

Section BatchFacts.
Context (X : externals).










End BatchFacts.

(** ** The writes of the job and the requests on jobs *)

Section JobWrites.
Context (X : externals).

#[local] Ltac job_write_case :=
  unfold job_write;
  repeat first
    [ left; split; [reflexivity|]; eexists; split; [reflexivity|]; set_solver
    | left; split; [reflexivity|]; eexists; reflexivity
    | split; [reflexivity|]; eexists; reflexivity
    | right ].

Lemma task_step_store a t w :
  job_store (task_step X a t w).2 = job_store w ∨
  ∃ job k v, job_store w !! arg_job_id a = Some job ∧ job_write k v ∧
    job_store (task_step X a t w).2 = <[arg_job_id a := <[k := v]> job]> (job_store w).
Proof.
  unfold task_step. destruct (arg_file_path a) as [d name].
  destruct (pc t); unfold in_try, in_except, store_set;
    try (destruct (job_store w !! arg_job_id a) as [job|] eqn:Ej; simpl;
         [right; exists job; eexists _, _; split; [done|]; split; [|done]; job_write_case
         |by left]; fail).
  all: try (by left).
  - left. unfold doc_converter_convert.
    destruct (read_file d name w) as [c|]; [by destruct (convert X name c)|done].
  - left. destruct (doc t); [|done]. unfold chunker_chunk. by destruct (chunk X _ _).
  - left. by destruct (job_result_data X a t).
  - left. by destruct (job_store w !! arg_job_id a).
  - left. by destruct (temp_dir_exists _ _).
  - left. destruct (temp_dir t); try done. unfold rmtree. by destruct (path_exists _ _).
Qed.

Lemma act_store a s ev :
  job_store (act X a s ev).2 = job_store s.2 ∨
  (∃ job k v, job_store s.2 !! arg_job_id a = Some job ∧ job_write k v ∧
     job_store (act X a s ev).2 = <[arg_job_id a := <[k := v]> job]> (job_store s.2)) ∨
  (∃ k, ev = Delete k ∧ job_store (act X a s ev).2 = delete k (job_store s.2)).
Proof.
  destruct s as [t w]. destruct ev as [|k]; simpl.
  - destruct (task_step_store a t w) as [H|H];
      destruct (task_step X a t w) as [t' w']; simpl in *; eauto.
  - destruct (delete_job_effect k w) as [[_ ->]|(job & _ & -> & _)]; eauto.
Qed.

(** X7. The background job writes nowhere but in its own record: the record
    of any other job is the same after any schedule that does not delete it,
    and once the job's own record has been deleted the job never puts one
    back. *)
Theorem job_writes_only_its_own_record a s sched :
  (∀ k, k ≠ arg_job_id a → Delete k ∉ sched →
        job_store (run X a s sched).2 !! k = job_store s.2 !! k) ∧
  (job_store s.2 !! arg_job_id a = None →
     job_store (run X a s sched).2 !! arg_job_id a = None).
Proof.
  split.
  - intros k Hne. revert s. induction sched as [|ev sched IH]; intros s Hno; [done|].
    simpl. rewrite IH by (intros ?; apply Hno; apply elem_of_cons; by right).
    destruct (act_store a s ev) as [->|[(job & k' & v & _ & _ & ->)|(k' & -> & ->)]];
      [done|by rewrite lookup_insert_ne|].
    rewrite lookup_delete_ne; [done|]. intros ->. apply Hno, elem_of_cons. by left.
  - revert s. induction sched as [|ev sched IH]; intros s Hn; [done|].
    simpl. apply IH.
    destruct (act_store a s ev) as [->|[(job & k' & v & Hj & _ & ->)|(k' & -> & ->)]];
      [done|congruence|].
    apply lookup_delete_None. by right.
Qed.

End JobWrites.

Section JobRecord.
Context (X : externals).
Context (id dir : string) (file : UploadFile).
Context (include_metadata do_contextualize : bool) (max_tokens : option Z).

#[local] Abbreviation a := (the_args X id dir file include_metadata do_contextualize max_tokens).
#[local] Abbreviation state_after :=
  (reached X id dir file include_metadata do_contextualize max_tokens).

Lemma kept_write ts job k v :
  job_write k v → kept_fields id dir file ts job →
  kept_fields id dir file ts (<[k := v]> job).
Proof.
  unfold job_write, kept_fields.
  intros [[-> H]|[[-> H]|[[-> H]|[[-> H]|[[-> H]|[[-> H]|[-> H]]]]]]] (? & ? & ? & ? & ? & ?);
    simplify_map_eq; split_and!; try done.
  destruct H as (p & -> & Hp). eauto.
Qed.

Lemma kept_run ts s sched :
  (∀ job, job_store s.2 !! id = Some job → kept_fields id dir file ts job) →
  ∀ job, job_store (run X a s sched).2 !! id = Some job → kept_fields id dir file ts job.
Proof.
  revert s. induction sched as [|ev sched IH]; intros s Hk; [done|].
  simpl. apply IH. intros job.
  destruct (act_store X a s ev) as [->|[(job0 & k' & v & Hj & Hw & ->)|(k' & -> & ->)]].
  - apply Hk.
  - simpl. rewrite lookup_insert_eq. intros [= <-]. apply kept_write; [done|].
    by apply Hk.
  - intros Hj. apply lookup_delete_Some in Hj as [_ Hj]. by apply Hk.
Qed.

(** X8. At every moment of the life of an accepted job, its record still
    carries the identifier, the file name, the file size, the directory and
    the creation time stored at submission, and its progress is one of the
    seven values 0, 10, 30, 40, 60, 80 and 100. *)
Theorem job_record_keeps_its_identity w0 sched job :
  supported (suffix_lower X (filename file)) = true →
  job_store (state_after w0 sched).2 !! id = Some job →
  job !! "job_id" = Some (PStr id) ∧
  job !! "filename" = Some (PStr (filename file)) ∧
  job !! "file_size" = Some (PInt (len_str (content file))) ∧
  job !! "temp_dir" = Some (PStr dir) ∧
  job !! "created_at" = Some (PStr (isoformat X (clock w0))) ∧
  ∃ p, job !! "progress" = Some (PInt p) ∧ p ∈ [0; 10; 30; 40; 60; 80; 100].
Proof.
  intros Hs. unfold reached. apply kept_run.
  unfold submitted. rewrite (submitted_world X id dir file include_metadata
    do_contextualize max_tokens w0 Hs). simpl.
  intros job'. rewrite lookup_insert_eq. intros [= <-].
  unfold kept_fields, new_job. simplify_map_eq.
  split_and!; try done; try (exists 0; split; [done|set_solver]).
Qed.

(** X9. [include_metadata] is accepted by [/convert-chunked-async] and handed
    to the job, which never reads it: the job and the world are the same
    with the flag set or not, at every point of every schedule. *)
Theorem include_metadata_is_ignored_by_the_job w0 sched :
  reached X id dir file true do_contextualize max_tokens w0 sched =
  reached X id dir file false do_contextualize max_tokens w0 sched.
Proof.
  unfold reached, submitted.
  assert (∀ s, run X (the_args X id dir file true do_contextualize max_tokens) s sched
             = run X (the_args X id dir file false do_contextualize max_tokens) s sched)
    as ->; [|done].
  (* the two records of arguments differ in a field that no statement reads *)
  induction sched as [|ev sched IH]; intros s; [done|].
  simpl. by rewrite IH.
Qed.



End JobRecord.



(** ** Where a chunk record locates its chunk *)

Lemma sorted_ints_elem s n : n ∈ sorted_ints s ↔ n ∈ s.
Proof. unfold sorted_ints. rewrite merge_sort_Permutation. apply elem_of_elements. Qed.

Lemma sorted_ints_nil s : sorted_ints s = [] ↔ s = ∅.
Proof.
  split; [|intros ->; apply sorted_ints_empty].
  intros H. apply set_eq. intros n. rewrite <- sorted_ints_elem, H. set_solver.
Qed.

Lemma sorted_strs_nil s : sorted_strs s = [] ↔ s = ∅.
Proof.
  unfold sorted_strs. split.
  - intros H. apply leibniz_equiv, elements_empty_inv, Permutation_nil_r.
    by rewrite <- (merge_sort_Permutation str_le), H.
  - intros ->. by rewrite elements_empty.
Qed.

Lemma sorted_strs_single s x : elements s = [x] ↔ sorted_strs s = [x].
Proof.
  unfold sorted_strs. split; intros H.
  - apply Permutation_singleton_r. by rewrite merge_sort_Permutation, H.
  - apply Permutation_singleton_r. by rewrite <- (merge_sort_Permutation str_le), H.
Qed.

Lemma single_or_sheet_field s :
  single_or (elements s) (sorted_strs s) = sheet_field (sorted_strs s).
Proof.
  unfold single_or, sheet_field.
  destruct (elements s) as [|x [|y l]] eqn:E.
  - unfold sorted_strs. by rewrite E.
  - apply sorted_strs_single in E. by rewrite E.
  - destruct (sorted_strs s) as [|x' [|y' l']] eqn:E'; try done.
    apply sorted_strs_single in E'. congruence.
Qed.

Lemma match_sheets_length sheets pages :
  (length (match_sheets sheets pages) ≤ length pages)%nat.
Proof.
  unfold match_sheets. induction pages as [|p pages IH]; simpl; [done|].
  rewrite length_app. case_bool_decide; simpl; [|lia].
  destruct (sheets !! _); simpl; lia.
Qed.

Section RecordFields.
Context (X : externals).

Lemma chunk_info_head_keys ctx ch i c d k :
  chunk_info_head X ctx ch i c = inr d →
  k ∈ "bbox_info" :: "debug_chunk_attrs" :: "debug_meta_attrs" :: provenance_keys →
  d !! k = None.
Proof.
  unfold chunk_info_head, provenance_keys. intros H Hk.
  destruct (token_count X (text c)) as [e|v]; simpl in H; [done|].
  destruct ctx; simpl in H;
    [destruct (contextualize X ch c) as [e|s]; simpl in H; [done|]|];
    injection H as <-; destruct (meta c);
    repeat (apply elem_of_cons in Hk as [->|Hk];
            [by rewrite ?lookup_insert_ne by done|]);
    by apply elem_of_nil in Hk.
Qed.

(** Every record of either loop is put together in the same way from the
    fields that come before the provenance walk. *)
Lemma record_assembled ext sheets ctx ch i c d :
  chunk_info_sync X ext sheets ctx ch i c = inr d ∨
  chunk_info_async X ext sheets ctx ch i c = inr d →
  ∃ info,
    (∀ k, k ∈ "bbox_info" :: provenance_keys → info !! k = None) ∧
    d = <["bbox_info" := PList (bbox_data (collect_provenance c))]>
          (provenance_fields ext sheets i (collect_provenance c) info).
Proof.
  intros [H|H].
  - unfold chunk_info_sync in H.
    destruct (chunk_info_head X ctx ch i c) as [e|h] eqn:Eh; simpl in H; [done|].
    injection H as <-. eexists. split; [|done].
    intros k Hk.
    assert (k ≠ "debug_chunk_attrs" ∧ k ≠ "debug_meta_attrs") as [? ?].
    { unfold provenance_keys in Hk. set_unfold. split; intros ->; destruct_or!; done. }
    destruct (meta c); rewrite ?lookup_insert_ne by done;
      apply (chunk_info_head_keys _ _ _ _ _ _ Eh); set_solver.
  - unfold chunk_info_async in H.
    destruct (chunk_info_head X ctx ch i c) as [e|h] eqn:Eh; simpl in H; [done|].
    injection H as <-. exists h. split; [|done].
    intros k Hk. apply (chunk_info_head_keys _ _ _ _ _ _ Eh). set_solver.
Qed.

Lemma chunked_record file ctx mt rd recs i r :
  chunked_result X file ctx mt rd → rd !! "chunks" = Some (PList recs) →
  recs !! i = Some r →
  ∃ c d info,
    r = PDict d ∧
    (∀ k, k ∈ "bbox_info" :: provenance_keys → info !! k = None) ∧
    d = <["bbox_info" := PList (bbox_data (collect_provenance c))]>
          (provenance_fields (suffix_lower X (filename file)) (sheets_of_upload X file)
             i (collect_provenance c) info).
Proof.
  intros Hres Hr Hi.
  destruct (chunked_result_chunks X _ _ _ _ _ Hres Hr) as (doc & cs & _ & _ & Hl).
  assert (∃ c d, r = PDict d ∧
            (chunk_info_sync X (suffix_lower X (filename file)) (sheets_of_upload X file)
               ctx (select_chunker mt) i c = inr d ∨
             chunk_info_async X (suffix_lower X (filename file)) (sheets_of_upload X file)
               ctx (select_chunker mt) i c = inr d)) as (c & d & -> & Hb).
  { destruct Hl as [Hl|Hl];
      destruct (chunk_loop_lookup _ _ _ _ _ _ Hl Hi) as (c & d & _ & Hb & ->);
      exists c, d; simpl in Hb; eauto. }
  destruct (record_assembled _ _ _ _ _ _ _ Hb) as (info & Hinfo & ->).
  exists c; eexists _, info; eauto.
Qed.

Lemma provenance_fields_document ext sheets i acc info v :
  ext ≠ ".xlsx" →
  (∀ k, k ∈ "bbox_info" :: provenance_keys → info !! k = None) →
  paged_or_sectioned i (<["bbox_info" := v]> (provenance_fields ext sheets i acc info)).
Proof.
  intros Hext Hinfo. unfold provenance_keys in Hinfo.
  assert (info !! "sheet_names" = None ∧ info !! "sheet" = None ∧
          info !! "sheet_index" = None ∧ info !! "section_index" = None)
    as (? & ? & ? & ?) by (split_and!; apply Hinfo; set_solver).
  unfold provenance_fields, paged_or_sectioned.
  rewrite bool_decide_eq_false_2 by done.
  case_bool_decide as Hp; simplify_map_eq; split_and!; try done.
  - left. exists (sorted_ints (page_numbers acc)). split_and!; try done.
    by rewrite sorted_ints_nil.
  - by right.
Qed.

Lemma provenance_fields_sheet sheets i acc info v :
  (∀ k, k ∈ "bbox_info" :: provenance_keys → info !! k = None) →
  sheet_located (<["bbox_info" := v]> (provenance_fields ".xlsx" sheets i acc info)).
Proof.
  intros Hinfo. unfold provenance_keys in Hinfo.
  assert (info !! "sheet_names" = None ∧ info !! "sheet" = None ∧
          info !! "sheet_index" = None ∧ info !! "section_index" = None)
    as (? & ? & ? & ?) by (split_and!; apply Hinfo; set_solver).
  unfold provenance_fields, sheet_located.
  rewrite bool_decide_eq_true_2 by done.
  case_bool_decide as Hs; [|case_bool_decide as Hp; [case_bool_decide as Hm|]];
    simplify_map_eq; split_and!; try done; try (by left).
  - right. exists (sorted_strs (sheet_names acc)). split_and!.
    + by rewrite sorted_strs_nil.
    + done.
    + by rewrite single_or_sheet_field.
    + by left.
  - right. exists (match_sheets sheets (sorted_ints (page_numbers acc))).
    split_and!; try done.
    right. eexists. split; [done|]. split; [apply sorted_ints_sorted|].
      apply match_sheets_length.
Qed.

(** X14. In every chunked result of a file that is not a spreadsheet, a chunk
    record never carries a sheet field, its [page_info] repeats its [pages],
    and it locates the chunk either by a non-empty list of pages, without
    [section_index], or, when no page is known, by a [section_index] that
    is the rank of the chunk. *)
Theorem document_records_are_paged_or_sectioned file ctx mt rd recs i r :
  suffix_lower X (filename file) ≠ ".xlsx" →
  chunked_result X file ctx mt rd → rd !! "chunks" = Some (PList recs) →
  recs !! i = Some r →
  ∃ d, r = PDict d ∧ paged_or_sectioned i d.
Proof.
  intros Hext Hres Hr Hi.
  destruct (chunked_record _ _ _ _ _ _ _ Hres Hr Hi) as (c & d & info & -> & Hinfo & ->).
  eexists. split; [done|]. by apply provenance_fields_document.
Qed.

(** X15. In every chunked result of a spreadsheet, a chunk record has empty
    [pages] and [page_info] and no [section_index]; when it names sheets,
    [sheet] is the name itself if there is one name and the list of names
    otherwise, and a [sheet_index], when present, is sorted and lists at
    least as many positions as there are names. *)
Theorem spreadsheet_records_name_their_sheets file ctx mt rd recs i r :
  suffix_lower X (filename file) = ".xlsx" →
  chunked_result X file ctx mt rd → rd !! "chunks" = Some (PList recs) →
  recs !! i = Some r →
  ∃ d, r = PDict d ∧ sheet_located d.
Proof.
  intros Hext Hres Hr Hi.
  destruct (chunked_record _ _ _ _ _ _ _ Hres Hr Hi) as (c & d & info & -> & Hinfo & ->).
  eexists. split; [done|]. rewrite Hext. by apply provenance_fields_sheet.
Qed.

End RecordFields.

(** ** Pages, bounding boxes and the file type *)

Lemma pages_backed_add acc n b s :
  pages_backed acc → bbox_page b = Some n → 0 < n →
  pages_backed {| page_numbers := {[n]} ∪ page_numbers acc;
                  bbox_data := bbox_data acc ++ [b]; sheet_names := s |}.
Proof.
  intros [Hall Hiff] Hb Hn. split; cbn [bbox_data page_numbers].
  - apply Forall_app. split; [done|]. constructor; [|done]. eauto.
  - intros m. rewrite fmap_app, elem_of_app, elem_of_union, elem_of_singleton, Hiff.
    cbn [fmap list_fmap]. rewrite Hb, list_elem_of_singleton. naive_solver.
Qed.

Lemma pages_backed_sheets acc s :
  pages_backed acc →
  pages_backed {| page_numbers := page_numbers acc; bbox_data := bbox_data acc;
                  sheet_names := s |}.
Proof. done. Qed.

Lemma visit_prov_backed item acc p :
  pages_backed acc → pages_backed (visit_prov item acc p).
Proof.
  intros Hacc. unfold visit_prov.
  destruct (page_no p) as [n|]; [case_bool_decide as Hn|];
    destruct (sheet_name p), (page_name p); try done;
    try apply pages_backed_sheets; try done;
    apply pages_backed_add; try done;
    unfold bbox_page; destruct (charspan p), (bbox p); by simplify_map_eq.
Qed.

Lemma collect_provenance_backed c : pages_backed (collect_provenance c).
Proof.
  assert (pages_backed empty_acc) as H0.
  { split; [constructor|]. intros n. simpl. set_solver. }
  unfold collect_provenance. destruct (meta c) as [m|]; [|done].
  destruct (doc_items m) as [items|]; [|done].
  revert H0. generalize empty_acc. induction items as [|it items IH]; intros acc Hacc; [done|].
  simpl. apply IH. unfold visit_item. destruct (prov it) as [ps|]; [|done].
  revert acc Hacc. induction ps as [|p ps IHp]; intros acc Hacc; [done|].
  simpl. apply IHp. by apply visit_prov_backed.
Qed.

Lemma sorted_ints_NoDup s : NoDup (sorted_ints s).
Proof. unfold sorted_ints. rewrite merge_sort_Permutation. apply NoDup_elements. Qed.

Lemma supported_label ext :
  supported ext = true → (ext, file_type ext) ∈ SUPPORTED_EXTENSIONS.
Proof.
  unfold supported. intros H. apply bool_decide_eq_true in H.
  apply list_elem_of_fmap in H as ([e l] & -> & Hin).
  assert ((list_to_map SUPPORTED_EXTENSIONS : gmap string string) !! e = Some l) as Hl.
  { apply elem_of_list_to_map_1; [|done]. apply (bool_decide_unpack _). vm_compute. exact I. }
  unfold file_type. cbn [fst]. by rewrite Hl.
Qed.

Section RecordPages.
Context (X : externals).

(** X16. In every chunked result, each entry of a record's [bbox_info] has a
    positive page; and for a file that is not a spreadsheet, [pages] is the
    sorted list, without repetition, of the pages of these entries. *)
Theorem bbox_entries_back_the_pages file ctx mt rd recs i r :
  chunked_result X file ctx mt rd → rd !! "chunks" = Some (PList recs) →
  recs !! i = Some r →
  ∃ d bs,
    r = PDict d ∧ d !! "bbox_info" = Some (PList bs) ∧
    Forall (λ b, ∃ n, bbox_page b = Some n ∧ 0 < n) bs ∧
    (suffix_lower X (filename file) ≠ ".xlsx" →
       ∃ ps, d !! "pages" = Some (PList (PInt <$> ps)) ∧
             Sorted Z.le ps ∧ NoDup ps ∧
             ∀ n, n ∈ ps ↔ Some n ∈ bbox_page <$> bs).
Proof.
  intros Hres Hr Hi.
  destruct (chunked_record X _ _ _ _ _ _ _ Hres Hr Hi) as (c & d & info & -> & Hinfo & ->).
  destruct (collect_provenance_backed c) as [Hall Hiff].
  eexists _, _. split; [done|]. split; [apply lookup_insert_eq|]. split; [done|].
  intros Hext. exists (sorted_ints (page_numbers (collect_provenance c))).
  rewrite lookup_insert_ne by done. rewrite provenance_fields_pages.
  rewrite bool_decide_eq_false_2 by done.
  split_and!; [done|apply sorted_ints_sorted|apply sorted_ints_NoDup|].
  intros n. by rewrite sorted_ints_elem.
Qed.

(** X17. The fallback label of [file_type] is never sent: a successful chunked
    result names the type listed for the extension of the upload. *)
Theorem reported_file_type_is_listed file ctx mt rd :
  chunked_result X file ctx mt rd → rd !! "success" = Some (PBool true) →
  ∃ label, rd !! "file_type" = Some (PStr label) ∧
           (suffix_lower X (filename file), label) ∈ SUPPORTED_EXTENSIONS.
Proof.
  intros [dir im w body w' H|id dir im w0 sched job rd' Hs Hf Hj Hres] Hok.
  - destruct (supported (suffix_lower X (filename file))) eqn:Hs.
    2:{ unfold convert_file_chunked in H. by rewrite Hs in H. }
    exists (file_type (suffix_lower X (filename file))).
    split; [|by apply supported_label].
    destruct (convert_file_chunked_spec X dir file im ctx mt w Hs) as (evs & Heq & _).
    rewrite Heq in H. injection H as H _.
    destruct (sync_outcome X file im ctx mt) as [e|b] eqn:Eo.
    { rewrite <- H in Hok. unfold failure_body in Hok. by simplify_map_eq. }
    subst b. unfold sync_outcome in Eo.
    destruct (convert X _ _) as [|doc]; simpl in Eo; [done|].
    destruct (chunk X _ _) as [|cs]; simpl in Eo; [done|].
    destruct (chunk_loop _ _ _) as [|recs]; simpl in Eo; [done|].
    injection Eo as <-. unfold sync_extras, common_fields.
    destruct im; by simplify_map_eq.
  - exists (file_type (suffix_lower X (filename file))).
    split; [|by apply supported_label].
    pose proof (inv_reachable X id dir file im ctx mt w0 sched Hs Hf) as Hi.
    destruct (reached X id dir file im ctx mt w0 sched) as [t w]. simpl in Hj.
    destruct (inv_result X id dir file im ctx mt _ _ _ _ Hi Hj Hres) as [Heq Hlo].
    injection Heq as ->.
    destruct (job_result_chunks X _ _ _ _ _ _ _ Hlo) as (doc & cs & recs & _ & _ & _ & ->).
    unfold async_extras, common_fields. case_bool_decide; by simplify_map_eq.
Qed.

End RecordPages.

(** ** Configuration, metadata, Markdown and the listings *)

(** X18. The token limit, the model and the merge option that [chunking_config]
    reports are those of the chunker that [select_chunker] hands to the
    conversion, whatever [max_tokens] was given; and that chunker is a
    custom one exactly when [max_tokens] is given, is not 0 and is not the
    default 512. *)
Theorem reported_limit_is_the_limit_in_use mt ctx :
  chunking_config mt ctx !! "max_tokens"
    = Some (PInt (tok_max_tokens (chunker_tokenizer (select_chunker mt)))) ∧
  chunking_config mt ctx !! "tokenizer"
    = Some (PStr (tok_model (chunker_tokenizer (select_chunker mt)))) ∧
  chunking_config mt ctx !! "merge_peers"
    = Some (PBool (merge_peers (select_chunker mt))) ∧
  (select_chunker mt ≠ chunker ↔ ∃ n, mt = Some n ∧ n ≠ 0 ∧ n ≠ MAX_TOKENS).
Proof.
  unfold chunking_config, select_chunker, max_tokens_or_default.
  destruct mt as [n|]; simpl.
  - destruct (decide (n = 0)) as [->|H0]; [|destruct (decide (n = MAX_TOKENS)) as [->|H1]].
    + split_and!; try done. split; [done|]. by intros (m & [= <-] & ? & ?).
    + split_and!; try done. split; [done|]. by intros (m & [= <-] & ? & ?).
    + rewrite (bool_decide_eq_true_2 (n ≠ 0 ∧ n ≠ MAX_TOKENS)) by done.
      rewrite (bool_decide_eq_false_2 (n = 0)) by done. simpl.
      split_and!; try by simplify_map_eq.
      split; [eauto|]. intros _ [= ?]. done.
  - split_and!; try done. split; [done|]. by intros (n & ? & _).
Qed.

Lemma total_pages_nonneg doc : 0 ≤ total_pages doc.
Proof.
  unfold total_pages. destruct (pages doc) as [[|n]|]; try lia;
    (destruct (main_text doc) as [items|]; [|done]);
    (assert (∀ a, 0 ≤ a → 0 ≤ foldl (λ m p, Z.max m (default m p)) a items) as H;
     [induction items as [|p items IH]; intros a Ha; [done|]; simpl; apply IH; lia
     |by apply H]).
Qed.

Section Responses.
Context (X : externals).

(** X19. [total_pages] of [file_metadata] is never 0 or negative: it is null
    when no page is known, and otherwise a positive number, the length of
    [doc.pages] when that list is not empty. The size reported is the length
    of the upload. *)
Theorem total_pages_is_null_or_positive fn content ext doc :
  file_metadata X fn content ext doc !! "original_file_size"
    = Some (PInt (len_str content)) ∧
  (∀ n, pages doc = Some (S n) →
        file_metadata X fn content ext doc !! "total_pages"
          = Some (PInt (Z.of_nat (S n)))) ∧
  ((total_pages doc = 0 ∧
    file_metadata X fn content ext doc !! "total_pages" = Some PNone) ∨
   (0 < total_pages doc ∧
    file_metadata X fn content ext doc !! "total_pages"
      = Some (PInt (total_pages doc)))).
Proof.
  unfold file_metadata. split_and!.
  - by simplify_map_eq.
  - intros n Hn. rewrite lookup_insert_eq. unfold total_pages. rewrite Hn.
    by rewrite bool_decide_eq_true_2 by lia.
  - rewrite lookup_insert_eq. pose proof (total_pages_nonneg doc).
    case_bool_decide; [right|left]; split; (done || lia).
Qed.

(** X20. The Markdown of a chunked conversion has one section per chunk, in
    order, headed by the rank of the chunk and holding its contextualized
    text, or its own text when contextualization is off, in which case
    building the sections cannot fail. *)
Theorem chunked_markdown_has_one_section_per_chunk ctx cs :
  (∀ parts, markdown_parts X ctx 0 cs = inr parts →
     length parts = length cs ∧
     ∀ j c, cs !! j = Some c →
       ∃ body, parts !! j = Some (chunk_heading j body) ∧
               if ctx then contextualize X chunker c = inr body else body = text c) ∧
  (ctx = false → ∃ parts, markdown_parts X ctx 0 cs = inr parts).
Proof.
  assert (∀ i parts, markdown_parts X ctx i cs = inr parts →
     length parts = length cs ∧
     ∀ j c, cs !! j = Some c →
       ∃ body, parts !! j = Some (chunk_heading (i + j) body) ∧
               if ctx then contextualize X chunker c = inr body else body = text c) as H.
  { induction cs as [|c cs IH]; intros i parts Hp; simpl in Hp.
    - injection Hp as <-. split; [done|]. intros j c Hj. done.
    - destruct ctx; simpl in Hp.
      + destruct (contextualize X chunker c) as [e|t] eqn:Ec; simpl in Hp; [done|].
        destruct (markdown_parts X true (S i) cs) as [e|rest] eqn:Er; simpl in Hp; [done|].
        injection Hp as <-. destruct (IH _ _ Er) as [Hl Hs].
        split; [simpl; by rewrite Hl|]. intros [|j] c' Hj; simpl in Hj.
        * injection Hj as <-. exists t. by rewrite Nat.add_0_r.
        * destruct (Hs j c' Hj) as (b & Hb & Hc). exists b.
          by replace (i + S j)%nat with (S i + j)%nat by lia.
      + destruct (markdown_parts X false (S i) cs) as [e|rest] eqn:Er; simpl in Hp; [done|].
        injection Hp as <-. destruct (IH _ _ Er) as [Hl Hs].
        split; [simpl; by rewrite Hl|]. intros [|j] c' Hj; simpl in Hj.
        * injection Hj as <-. exists (text c). by rewrite Nat.add_0_r.
        * destruct (Hs j c' Hj) as (b & Hb & Hc). exists b.
          by replace (i + S j)%nat with (S i + j)%nat by lia. }
  split; [apply H|]. intros ->. clear H.
  assert (∀ i, ∃ parts, markdown_parts X false i cs = inr parts) as Ht; [|apply Ht].
  induction cs as [|c cs IH]; intros i; simpl; [eauto|].
  destruct (IH (S i)) as [rest ->]. simpl. eauto.
Qed.


End Responses.

Lemma elem_of_concat {A} (x : A) (ls : list (list A)) :
  x ∈ concat ls ↔ ∃ l, l ∈ ls ∧ x ∈ l.
Proof.
  rewrite list_elem_of_In, in_concat. split; intros (l & H1 & H2); exists l.
  - by rewrite !list_elem_of_In.
  - by rewrite <- !list_elem_of_In.
Qed.

Lemma categories_NoDup : NoDup (concat categories.*2).
Proof. apply (bool_decide_unpack _). vm_compute. exact I. Qed.

(** X22. The categories of [/supported-formats] partition the extensions that
    the handlers accept: an extension is accepted exactly when a category
    lists it, no extension is listed twice, and [total_formats] is the
    number of extensions listed. *)
Theorem categories_partition_the_supported_extensions :
  (∀ ext, supported ext = true ↔
          ∃ cat exts, (cat, exts) ∈ categories ∧ ext ∈ exts) ∧
  NoDup (concat categories.*2) ∧
  ∃ body cats,
    get_supported_formats = JSON body ∧
    body !! "total_formats" = Some (PInt (Z.of_nat (length (concat categories.*2)))) ∧
    body !! "categories" = Some (PDict cats) ∧
    ∀ cat exts, (cat, exts) ∈ categories → cats !! cat = Some (PList (PStr <$> exts)).
Proof.
  split_and!.
  - intros ext. unfold supported. rewrite bool_decide_eq_true.
    assert (ext ∈ SUPPORTED_EXTENSIONS.*1 ↔ ext ∈ concat categories.*2) as ->.
    { split; intros H.
      - revert ext H. apply Forall_forall. apply (bool_decide_unpack _). vm_compute. exact I.
      - revert ext H. apply Forall_forall. apply (bool_decide_unpack _). vm_compute. exact I. }
    rewrite elem_of_concat. split.
    + intros (exts & Hin & He). apply list_elem_of_fmap in Hin as ([cat exts'] & -> & Hin).
      eauto.
    + intros (cat & exts & Hin & He). exists exts. split; [|done].
      apply list_elem_of_fmap. by exists (cat, exts).
  - apply categories_NoDup.
  - eexists _, ((λ exts, PList (PStr <$> exts)) <$>
                  (list_to_map categories : gmap string (list string))).
    split; [done|]. split; [vm_compute; reflexivity|].
    split; [vm_compute; reflexivity|].
    intros cat exts Hin. rewrite lookup_fmap.
    rewrite (elem_of_list_to_map_1 categories cat exts); [done| |done].
    apply (bool_decide_unpack _). vm_compute. exact I.
Qed.

Section JobCounting.
Context (X : externals).

Lemma active_jobs_size w : active_jobs w = Z.of_nat (size (job_store w)).
Proof. unfold active_jobs, health_check. by simplify_map_eq. Qed.


End JobCounting.

Lemma jobs_loop_spec items :
  Forall (λ kj, is_Some (kj.2 !! "status")) items →
  ∃ jobs, jobs_loop items = inr jobs ∧
          Forall2 (λ kj entry, job_summary kj.1 kj.2 = inr entry) items jobs.
Proof.
  induction 1 as [|[k job] items [st Hst] _ (jobs & Hj & Hall)]; simpl.
  - exists []. by split.
  - simpl in Hst. unfold job_summary at 1. rewrite Hst. simpl. rewrite Hj. simpl.
    eexists. split; [done|]. constructor; [|done]. simpl.
    unfold job_summary. by rewrite Hst.
Qed.

(** X24. When every record has a status, [GET /jobs] lists the records: its
    [total_jobs] is the number of records, the same as [active_jobs] of
    [/health], and its entries are the summaries of the records, one for
    each, with the identifier, the status and the progress of the record. *)
Theorem jobs_lists_every_record w :
  (∀ k job, job_store w !! k = Some job → is_Some (job !! "status")) →
  ∃ jobs,
    list_jobs w = JSON (<["jobs" := PList jobs]>
                       (<["total_jobs" := PInt (active_jobs w)]> ∅)) ∧
    length jobs = size (job_store w) ∧
    (∀ entry, entry ∈ jobs ↔
       ∃ k job, job_store w !! k = Some job ∧ job_summary k job = inr entry) ∧
    (∀ k job, job_store w !! k = Some job →
       ∃ e, PDict e ∈ jobs ∧ e !! "job_id" = Some (PStr k) ∧
            e !! "status" = job !! "status" ∧
            e !! "progress" = Some (default (PInt 0) (job !! "progress"))).
Proof.
  intros Hst.
  destruct (jobs_loop_spec (map_to_list (job_store w))) as (jobs & Hj & Hall).
  { apply Forall_forall. intros [k job] Hin. apply elem_of_map_to_list in Hin. eauto. }
  assert (length jobs = size (job_store w)) as Hlen.
  { rewrite <- (Forall2_length _ _ _ Hall). apply length_map_to_list. }
  assert (∀ entry, entry ∈ jobs ↔
       ∃ k job, job_store w !! k = Some job ∧ job_summary k job = inr entry) as Hiff.
  { intros entry. split.
    - intros Hin. apply list_elem_of_lookup in Hin as [i Hi].
      destruct (Forall2_lookup_r _ _ _ _ _ Hall Hi) as ([k job] & Hk & Hs).
      exists k, job. split; [|done].
      apply elem_of_map_to_list. by eapply list_elem_of_lookup_2.
    - intros (k & job & Hk & Hs). apply elem_of_map_to_list in Hk.
      apply list_elem_of_lookup in Hk as [i Hi].
      destruct (Forall2_lookup_l _ _ _ _ _ Hall Hi) as (entry' & He & Hs').
      simpl in Hs'. rewrite Hs in Hs'. injection Hs' as <-.
      by eapply list_elem_of_lookup_2. }
  exists jobs. unfold list_jobs. rewrite Hj, Hlen, active_jobs_size.
  split_and!; try done.
  intros k job Hk. destruct (Hst k job Hk) as [st Hs].
  eexists. split.
  - apply Hiff. exists k, job. split; [done|]. unfold job_summary. by rewrite Hs.
  - by simplify_map_eq.
Qed.

(** ** Deleted jobs and the order of the statuses *)

Section Doomed.
Context (X : externals).

Lemma doomed_step a t w :
  doomed (arg_job_id a) (t, w) → doomed (arg_job_id a) (task_step X a t w).
Proof.
  intros [Hj Hpc]. simpl in Hj, Hpc.
  unfold task_step. destruct (arg_file_path a) as [d name].
  unfold doomed.
  destruct (pc t) eqn:Epc; simpl in Hpc;
    try (destruct Hpc as [?|[? ?]]; done);
    unfold in_try, in_except, store_set; rewrite ?Hj; simpl;
    try (split; [done|by left]).
  - destruct (read_file d name w) as [c|]; [destruct (convert X name c)|];
      (split; [done|by left]).
  - destruct (doc t); [unfold chunker_chunk; destruct (chunk X _ _)|];
      (split; [done|by left]).
  - destruct (job_result_data X a t); (split; [done|by left]).
  - split; [done|]. right. done.
  - rewrite Epc. split; [done|]. destruct Hpc as [?|[_ ?]]; [done|]. by right.
Qed.

Lemma doomed_run a s sched :
  doomed (arg_job_id a) s → doomed (arg_job_id a) (run X a s sched).
Proof.
  revert s. induction sched as [|ev sched IH]; intros s Hd; [done|].
  simpl. apply IH. destruct s as [t w]. destruct ev as [|k]; simpl.
  - pose proof (doomed_step a t w Hd) as H.
    by destruct (task_step X a t w) as [t' w'].
  - destruct Hd as [Hj Hpc]. split; [|done]. simpl in *.
    destruct (delete_job_effect k w) as [[_ ->]|(job & _ & -> & _)]; [done|].
    apply lookup_delete_None. by right.
Qed.

End Doomed.

Section DeletedJob.
Context (X : externals).
Context (id dir : string) (file : UploadFile).
Context (include_metadata do_contextualize : bool) (max_tokens : option Z).

#[local] Abbreviation a := (the_args X id dir file include_metadata do_contextualize max_tokens).
#[local] Abbreviation inv := (inv X id dir file include_metadata do_contextualize max_tokens).
#[local] Abbreviation observed :=
  (observations X id dir file include_metadata do_contextualize max_tokens).
#[local] Abbreviation state_after :=
  (reached X id dir file include_metadata do_contextualize max_tokens).

(** X25. A job whose record is deleted before its [finally] block has read
    [temp_dir] ends with an unhandled [KeyError] for its identifier: every
    later write fails, the [except] clause fails in turn on its first write,
    and so does the lookup in the [finally] block. *)
Theorem deleted_job_ends_with_an_unhandled_KeyError w0 before after :
  before_cleanup (pc (state_after w0 before).1) = true →
  (26 ≤ runs (before ++ Delete id :: after))%nat →
  pc (state_after w0 (before ++ Delete id :: after)).1 = Finished ∧
  pending (state_after w0 (before ++ Delete id :: after)).1 = Some (KeyError id) ∧
  job_store (state_after w0 (before ++ Delete id :: after)).2 !! id = None.
Proof.
  intros Hpc Hr.
  pose proof (run_finishes X id dir file include_metadata do_contextualize
                max_tokens w0 _ Hr) as Hfin.
  unfold reached, run in *. rewrite foldl_app in *. cbn [foldl] in *.
  fold (run X a (submitted X id dir file include_metadata do_contextualize max_tokens w0)
          before) in *.
  set (s := run X a _ before) in *.
  assert (doomed id (act X a s (Delete id))) as Hd.
  { split; [|by left]. simpl.
    destruct (delete_job_effect id s.2) as [[? ->]|(job & _ & -> & _)]; [done|].
    apply lookup_delete_eq. }
  pose proof (doomed_run X a _ after Hd) as [Hj Hend]. unfold run in Hj, Hend.
  split; [done|]. rewrite Hfin in Hend. simpl in Hend.
  destruct Hend as [?|[_ ?]]; done.
Qed.

Lemma step_status t w job job' st pr st' pr' :
  inv (t, w) → job_store w !! id = Some job → fields job st pr →
  job_store (task_step X a t w).2 !! id = Some job' → fields job' st' pr' →
  status_follows st st'.
Proof.
  intros [_ Hi] Hj [Hst Hpr]. rewrite Hj in Hi.
  destruct Hi as (_ & Hsh & Hlo & _ & Htmp & Hdisk).
  unfold task_step, the_args, submitted_args. simpl.
  unfold shape, settled, fields, pristine in *.
  destruct (pc t) eqn:Epc; simpl in *;
    unfold in_try, in_except, store_set, doc_converter_convert, chunker_chunk;
    rewrite ?Hj; simpl; destruct_and?;
    try (destruct Hsh as [Hsh|Hsh]; destruct_and?);
    repeat match goal with H : ∃ _, _ |- _ => destruct H as [? H]; destruct_and? end;
    simplify_eq/=; try done.
  all: try (rewrite lookup_insert_eq; intros [= <-] [??]; simplify_map_eq;
            split; [vm_compute; lia|done]).
  all: try (rewrite ?Hj; intros [= <-] [??]; simplify_eq; by split).
  all: try (destruct (temp_dir_exists _ _); simpl;
            rewrite ?Hj; intros [= <-] [??]; simplify_eq; by split).
  all: try (destruct (temp_dir t); simpl; unfold rmtree; try destruct (path_exists _ _);
            simpl; rewrite ?Hj; intros [= <-] [??]; simplify_eq; by split).
  - destruct (match read_file _ _ _ with Some _ => _ | None => _ end); simpl;
      rewrite ?Hj; intros [= <-] [??]; simplify_eq; by split.
  - destruct (doc t); simpl; [destruct (chunk X _ _); simpl|];
      rewrite ?Hj; intros [= <-] [??]; simplify_eq; by split.
  - destruct (job_result_data _ _ _); simpl;
      rewrite ?Hj; intros [= <-] [??]; simplify_eq; by split.
Qed.

Lemma act_status s ev job job' st pr st' pr' :
  dir ≠ "" → inv s → job_store s.2 !! id = Some job → fields job st pr →
  job_store (act X a s ev).2 !! id = Some job' → fields job' st' pr' →
  status_follows st st'.
Proof.
  intros Hne Hi Hj Hf Hj' Hf'. destruct s as [t w]. destruct ev as [|k]; simpl in *.
  - destruct (task_step X a t w) as [t1 w1] eqn:Es. simpl in Hj'.
    eapply (step_status t w job job'); eauto. by rewrite Es.
  - assert (job' = job) as ->.
    { destruct (delete_job_effect k w) as [[_ Hw]|(jobk & Hk & Hs & _)].
      - rewrite Hw in Hj'. congruence.
      - rewrite Hs in Hj'. apply lookup_delete_Some in Hj' as [_ Hj']. congruence. }
    destruct Hf as [H1 _], Hf' as [H1' _]. simplify_eq. by split.
Qed.

Lemma statuses_sorted s sched :
  dir ≠ "" → inv s →
  Sorted status_follows (omap (λ s, polled id s.2) (trace X a s sched)).*1.
Proof.
  intros Hne. revert s. induction sched as [|ev sched IH]; intros s Hi.
  - simpl. destruct (polled id s.2) as [o|]; simpl; repeat constructor.
  - simpl. pose proof (inv_act X id dir file include_metadata do_contextualize
                         max_tokens s ev Hne Hi) as Hi'.
    specialize (IH _ Hi').
    destruct (polled id s.2) as [o|] eqn:Hp; simpl; [|done].
    constructor; [done|].
    destruct (trace_cons X id dir file include_metadata do_contextualize max_tokens
                (act X a s ev) sched) as [rest Hrest].
    rewrite Hrest. simpl.
    destruct (polled id (act X a s ev).2) as [o'|] eqn:Hp'; simpl.
    + constructor. destruct s as [t w]. simpl in Hp.
      destruct (polled_inv X id dir file include_metadata do_contextualize max_tokens
                  _ _ _ Hi Hp) as (job & Hj & Hf & _).
      destruct (act X a (t, w) ev) as [t' w'] eqn:Ea. simpl in Hp'.
      destruct (polled_inv X id dir file include_metadata do_contextualize max_tokens
                  _ _ _ Hi' Hp') as (job' & Hj' & Hf' & _).
      eapply (act_status (t, w) ev job job'); eauto. by rewrite Ea.
    + destruct (job_store (act X a s ev).2 !! id) as [job'|] eqn:Hj'.
      { destruct (act X a s ev) as [t' w']. simpl in *.
        destruct (inv_record_facts X id dir file include_metadata do_contextualize
                    max_tokens _ _ _ Hi' Hj') as (st & pr & Hf & _).
        by rewrite (polled_fields id _ _ _ _ Hj' Hf) in Hp'. }
      pose proof (observations_absent X id dir file include_metadata do_contextualize
                    max_tokens _ sched Hne Hi' Hj') as Ho.
      rewrite Hrest in Ho. simpl in Ho. rewrite Hp' in Ho. unfold omap in Ho.
      rewrite Ho. constructor.
Qed.

(** X26. The statuses that polling can observe over the life of an accepted
    job never go back: queued comes before processing, processing before
    completed or failed, and a terminal status, once observed, is the one
    observed from then on. *)
Theorem status_never_goes_back w0 sched :
  supported (suffix_lower X (filename file)) = true → fresh_dir dir w0 →
  Sorted status_follows (observed w0 sched).*1.
Proof.
  intros Hs Hf. unfold observations. apply statuses_sorted; [apply Hf|].
  by apply inv_submitted.
Qed.

End DeletedJob.

(** ** The message of a job that has ended *)

Section StageMessages.
Context (X : externals).
Context (id dir : string) (file : UploadFile).
Context (include_metadata do_contextualize : bool) (max_tokens : option Z).

#[local] Abbreviation a := (the_args X id dir file include_metadata do_contextualize max_tokens).
#[local] Abbreviation inv := (inv X id dir file include_metadata do_contextualize max_tokens).
#[local] Abbreviation staged := (staged X id file do_contextualize max_tokens).
#[local] Abbreviation last_message :=
  (last_stage_message X file do_contextualize max_tokens).
#[local] Abbreviation state_after :=
  (reached X id dir file include_metadata do_contextualize max_tokens).

Lemma staged_step t w :
  inv (t, w) → staged (t, w) → staged (task_step X a t w).
Proof.
  intros [Hun Hi] Hb.
  destruct (job_store w !! id) as [job|] eqn:Ej.
  2:{ destruct Hi as [Hd _].
      destruct (task_step_absent X id dir file include_metadata do_contextualize
                  max_tokens t w Ej Hd) as (Hs & _).
      intros job'. rewrite Hs, Ej. done. }
  specialize (Hb job Ej). simpl in Hb.
  destruct Hi as (Htd & Hsh & Hlo & Hpe & H618 & Hdisk).
  unfold task_step, the_args, submitted_args. simpl.
  destruct (pc t) eqn:Epc; simpl in *;
    unfold in_try, in_except, store_set; rewrite ?Ej; simpl.
  all: try (intros job'; simpl; rewrite lookup_insert_eq; intros [= <-];
            rewrite ?lookup_insert_ne by done; rewrite ?lookup_insert_eq; done).
  - (* L442 *)
    rewrite (read_file_upload dir file _ (proj1 Hdisk)).
    destruct (convert X (filename file) (content file)) as [e|d] eqn:Ec;
      intros job'; simpl; rewrite Ej; intros [= <-]; [|done].
    unfold last_stage_message. by rewrite Ec.
  - (* L448 *) intros job'; simpl; rewrite Ej; by intros [= <-].
  - (* L462 *) intros job'; simpl; rewrite Ej; by intros [= <-].
  - (* L476 *)
    destruct Hlo as (H1 & H2 & _).
    destruct H1 as (d & Hd & Hc); [lia|]. rewrite Hd.
    destruct (chunk X (active_chunker t) d) as [e|cs] eqn:Ech;
      intros job'; simpl; rewrite Ej; intros [= <-]; [|done].
    unfold last_stage_message. rewrite Hc. rewrite <- H2 by lia. by rewrite Ech.
  - (* L482 *)
    destruct (job_result_data X _ t) as [e|rd] eqn:Er;
      intros job'; simpl; rewrite Ej; intros [= <-]; [|done].
    destruct Hlo as (H1 & H2 & H3 & H4 & _).
    destruct H1 as (d & Hd & Hc); [lia|].
    destruct H4 as (d' & Hd' & Hch); [lia|].
    rewrite Hd in Hd'. injection Hd' as <-.
    unfold last_stage_message. rewrite Hc. rewrite <- H2 by lia. rewrite Hch.
    unfold job_result_data in Er. simpl in Er. rewrite <- H3 by lia.
    by destruct (chunk_loop _ 0 (chunks t)).
  - (* L600 *)
    intros job'; simpl; rewrite lookup_insert_eq; intros [= <-].
    rewrite lookup_insert_eq.
    destruct (job_result_chunks X _ _ _ _ _ _ _ Hlo)
      as (d & cs & recs & Hc & Hch & Hl & _).
    unfold last_stage_message. by rewrite Hc, Hch, Hl.
  - (* L614 *) intros job'; simpl; rewrite Ej; by intros [= <-].
  - (* L615 *)
    destruct (temp_dir_exists (temp_dir t) w);
      intros job'; simpl; rewrite Ej; by intros [= <-].
  - (* L618 *)
    destruct (temp_dir t); intros job'; simpl; rewrite ?Ej; try by intros [= <-].
    unfold rmtree. destruct (path_exists s w); simpl; rewrite Ej; by intros [= <-].
  - (* Finished *)
    intros job'; simpl; rewrite Epc, Ej; by intros [= <-].
Qed.

Lemma staged_run s sched :
  dir ≠ "" → inv s → staged s → staged (run X a s sched).
Proof.
  intros Hne. revert s. induction sched as [|ev sched IH]; intros s Hi Hb; [done|].
  simpl. apply IH; [by apply inv_act|].
  destruct s as [t w]. destruct ev as [|k]; simpl.
  - pose proof (staged_step t w Hi Hb) as H.
    by destruct (task_step X a t w) as [t' w'].
  - intros job. simpl.
    destruct (delete_job_effect k w) as [[_ ->]|(jobk & Hk & -> & _)]; [apply Hb|].
    intros Hj. apply lookup_delete_Some in Hj as [_ Hj]. by apply Hb.
Qed.

(** X27. When the job has ended and its record is still in the store, the
    message of the record names the last stage that the job entered: the
    conversion, the chunking or the processing of the records when that
    stage raised, and the closing message when all three succeeded. A failed
    job keeps the message of the stage that failed. *)
Theorem final_message_names_the_last_stage w0 sched job :
  supported (suffix_lower X (filename file)) = true → fresh_dir dir w0 →
  (26 ≤ runs sched)%nat →
  job_store (state_after w0 sched).2 !! id = Some job →
  job !! "message" = Some (PStr last_message) ∧
  (job !! "status" = Some (PStr "completed") ↔ last_message = "처리 완료").
Proof.
  intros Hs Hf Hr.
  pose proof (run_finishes X id dir file include_metadata do_contextualize
                max_tokens w0 sched Hr) as Hfin.
  assert (staged (state_after w0 sched)) as Hst.
  { apply staged_run; [apply Hf|by apply inv_submitted|].
    unfold submitted. rewrite (submitted_world X id dir file include_metadata
      do_contextualize max_tokens w0 Hs). by intros job'. }
  intros Hj.
  pose proof (ended_record X id dir file include_metadata do_contextualize max_tokens
                w0 sched job Hs Hf Hr Hj) as Hend.
  destruct (state_after w0 sched) as [t w]. simpl in *.
  specialize (Hst job Hj). simpl in Hst. rewrite Hfin in Hst.
  split; [done|].
  unfold last_stage_message, job_outcome in *.
  destruct Hend as [(rd & Ho & [Hstat _] & _)|(e & Ho & [Hstat _] & _)]; rewrite Hstat;
    destruct (convert X (filename file) (content file)) as [e1|d]; simpl in Ho;
    try done;
    destruct (chunk X (select_chunker max_tokens) d) as [e2|cs]; simpl in Ho;
    try done;
    destruct (chunk_loop _ 0 cs) as [e3|recs]; simpl in Ho; done.
Qed.

End StageMessages.

(** ** The informational endpoints *)

(** X28. The informational endpoints agree with the handlers and with each
    other: the table of formats sent by [/] and by [/supported-formats] holds
    exactly the extensions that the conversion handlers accept, each with the
    label that a chunked result reports as [file_type]; the number of formats
    sent by [/health] and by [/supported-formats] is the size of that table;
    and the model and the token limit sent by the four endpoints are those
    of the tokenizer of the default chunker. *)
Theorem informational_endpoints_agree_with_the_handlers :
  ∃ r f c table,
    root = JSON r ∧ get_supported_formats = JSON f ∧ get_chunking_info = JSON c ∧
    r !! "supported_formats" = Some (PDict table) ∧
    f !! "supported_extensions" = Some (PDict table) ∧
    (∀ ext, supported ext = true ↔ is_Some (table !! ext)) ∧
    (∀ ext, supported ext = true → table !! ext = Some (PStr (file_type ext))) ∧
    f !! "total_formats" = Some (PInt (Z.of_nat (size table))) ∧
    (∀ w, ∃ h, health_check w = JSON h ∧
               h !! "supported_files" = Some (PInt (Z.of_nat (size table))) ∧
               h !! "tokenizer" = Some (PStr (tok_model (chunker_tokenizer chunker))) ∧
               h !! "max_tokens"
                 = Some (PInt (tok_max_tokens (chunker_tokenizer chunker)))) ∧
    r !! "chunking" =
      Some (PDict (<["contextualize" := PBool true]>
                  (<["max_tokens" := PInt (tok_max_tokens (chunker_tokenizer chunker))]>
                  (<["tokenizer" := PStr (tok_model (chunker_tokenizer chunker))]>
                  (<["engine" := PStr "HybridChunker"]> ∅))))) ∧
    (∃ info, f !! "chunking_info" = Some (PDict info) ∧
       info !! "tokenizer" = Some (PStr (tok_model (chunker_tokenizer chunker))) ∧
       info !! "default_max_tokens"
         = Some (PInt (tok_max_tokens (chunker_tokenizer chunker)))) ∧
    (∃ tk, c !! "tokenizer" = Some (PDict tk) ∧
       tk !! "model" = Some (PStr (tok_model (chunker_tokenizer chunker))) ∧
       tk !! "max_tokens" = Some (PInt (tok_max_tokens (chunker_tokenizer chunker)))).
Proof.
  eexists _, _, _, supported_extensions_dict.
  split; [done|]. split; [done|]. split; [done|].
  split; [vm_compute; reflexivity|]. split; [vm_compute; reflexivity|].
  assert (∀ ext, supported ext = true →
            supported_extensions_dict !! ext = Some (PStr (file_type ext))) as Hlabel.
  { intros ext Hs. apply supported_label in Hs.
    unfold supported_extensions_dict. rewrite lookup_fmap.
    rewrite (elem_of_list_to_map_1 SUPPORTED_EXTENSIONS ext (file_type ext)); [done| |done].
    apply (bool_decide_unpack _). vm_compute. exact I. }
  split_and!.
  - intros ext. split; [intros Hs; rewrite (Hlabel ext Hs); eauto|].
    unfold supported_extensions_dict. rewrite lookup_fmap.
    intros [v Hv]. apply fmap_Some in Hv as (l & Hl & _).
    apply elem_of_list_to_map_2 in Hl. unfold supported.
    apply bool_decide_eq_true. apply list_elem_of_fmap. by exists (ext, l).
  - done.
  - vm_compute. reflexivity.
  - intros w. eexists. split; [done|]. split_and!; by vm_compute.
  - vm_compute. reflexivity.
  - eexists. split_and!; vm_compute; reflexivity.
  - eexists. split_and!; vm_compute; reflexivity.
Qed.

(** ** Texts and counts of chunk records *)

Section RecordTexts.
Context (X : externals).

Lemma chunk_info_head_texts ctx ch i c h :
  chunk_info_head X ctx ch i c = inr h →
  h !! "text" = Some (PStr (text c)) ∧
  h !! "text_length" = Some (PInt (len_str (text c))) ∧
  (is_Some (h !! "metadata") ↔ is_Some (meta c)) ∧
  if ctx
  then ∃ t, contextualize X ch c = inr t ∧
            h !! "contextualized_text" = Some (PStr t) ∧
            h !! "contextualized_length" = Some (PInt (len_str t))
  else h !! "contextualized_text" = None ∧ h !! "contextualized_length" = None.
Proof.
  unfold chunk_info_head. intros H.
  destruct (token_count X (text c)) as [e|v]; simpl in H; [done|].
  destruct ctx; simpl in H.
  - destruct (contextualize X ch c) as [e|s]; simpl in H; [done|].
    injection H as <-. destruct (meta c); simplify_map_eq; split_and!; eauto;
      split; intros [? ?]; eauto; done.
  - injection H as <-. destruct (meta c); simplify_map_eq; split_and!; eauto;
      split; intros [? ?]; eauto; done.
Qed.

(** Either loop leaves the fields that come before the provenance walk as
    the head of the record set them. *)
Lemma record_keeps_head ext sheets ctx ch i c d :
  chunk_info_sync X ext sheets ctx ch i c = inr d ∨
  chunk_info_async X ext sheets ctx ch i c = inr d →
  ∃ h, chunk_info_head X ctx ch i c = inr h ∧
       ∀ k, k ∈ ["text"; "text_length"; "metadata"; "contextualized_text";
                 "contextualized_length"] → d !! k = h !! k.
Proof.
  intros [H|H].
  - unfold chunk_info_sync in H.
    destruct (chunk_info_head X ctx ch i c) as [e|h] eqn:Eh; simpl in H; [done|].
    injection H as <-. exists h. split; [done|]. intros k Hk.
    assert (k ≠ "bbox_info" ∧ k ≠ "debug_chunk_attrs" ∧ k ≠ "debug_meta_attrs" ∧
            k ∉ provenance_keys) as (? & ? & ? & ?).
    { unfold provenance_keys.
      repeat (apply elem_of_cons in Hk as [->|Hk]; [split_and!; try done; set_solver|]).
      by apply elem_of_nil in Hk. }
    rewrite lookup_insert_ne by done. rewrite provenance_fields_other by done.
    destruct (meta c); by rewrite ?lookup_insert_ne by done.
  - unfold chunk_info_async in H.
    destruct (chunk_info_head X ctx ch i c) as [e|h] eqn:Eh; simpl in H; [done|].
    injection H as <-. exists h. split; [done|]. intros k Hk.
    assert (k ≠ "bbox_info" ∧ k ∉ provenance_keys) as (? & ?).
    { unfold provenance_keys.
      repeat (apply elem_of_cons in Hk as [->|Hk]; [split_and!; try done; set_solver|]).
      by apply elem_of_nil in Hk. }
    rewrite lookup_insert_ne by done. by rewrite provenance_fields_other.
Qed.

(** X29. In every chunked result, the record of rank [i] describes the chunk of
    rank [i]: [text] is the text of the chunk and [text_length] its length;
    [metadata] is present exactly when the chunk has metadata; and the
    contextualized text, with its length, is present exactly when
    [contextualize] is on, and is computed by the chunker selected for the
    conversion. *)
Theorem records_carry_the_chunk_texts file ctx mt rd recs :
  chunked_result X file ctx mt rd → rd !! "chunks" = Some (PList recs) →
  ∃ doc cs,
    convert X (filename file) (content file) = inr doc ∧
    chunk X (select_chunker mt) doc = inr cs ∧
    ∀ i r, recs !! i = Some r →
      ∃ c d, cs !! i = Some c ∧ r = PDict d ∧
        d !! "text" = Some (PStr (text c)) ∧
        d !! "text_length" = Some (PInt (len_str (text c))) ∧
        (is_Some (d !! "metadata") ↔ is_Some (meta c)) ∧
        if ctx
        then ∃ t, contextualize X (select_chunker mt) c = inr t ∧
                  d !! "contextualized_text" = Some (PStr t) ∧
                  d !! "contextualized_length" = Some (PInt (len_str t))
        else d !! "contextualized_text" = None ∧
             d !! "contextualized_length" = None.
Proof.
  intros Hres Hr.
  destruct (chunked_result_chunks X _ _ _ _ _ Hres Hr) as (doc & cs & Hc & Hch & Hl).
  exists doc, cs. split; [done|]. split; [done|]. intros i r Hi.
  assert (∃ c d, cs !! i = Some c ∧ r = PDict d ∧
            (chunk_info_sync X (suffix_lower X (filename file)) (sheets_of_upload X file)
               ctx (select_chunker mt) i c = inr d ∨
             chunk_info_async X (suffix_lower X (filename file)) (sheets_of_upload X file)
               ctx (select_chunker mt) i c = inr d)) as (c & d & Hci & -> & Hb).
  { destruct Hl as [Hl|Hl];
      destruct (chunk_loop_lookup _ _ _ _ _ _ Hl Hi) as (c & d & ? & Hb & ->);
      exists c, d; simpl in Hb; eauto. }
  destruct (record_keeps_head _ _ _ _ _ _ _ Hb) as (h & Hh & Hk).
  destruct (chunk_info_head_texts _ _ _ _ _ Hh) as (H1 & H2 & H3 & H4).
  exists c, d. split; [done|]. split; [done|].
  rewrite !Hk by set_solver. split_and!; try done.
Qed.

(** X30. In every successful chunked result, [total_chunks] is the number of
    chunk records, which is the number of chunks that the chunker selected
    for the conversion made of the document. *)
Theorem total_chunks_counts_the_records file ctx mt rd recs :
  chunked_result X file ctx mt rd → rd !! "chunks" = Some (PList recs) →
  rd !! "total_chunks" = Some (PInt (Z.of_nat (length recs))) ∧
  ∃ doc cs,
    convert X (filename file) (content file) = inr doc ∧
    chunk X (select_chunker mt) doc = inr cs ∧ length recs = length cs.
Proof.
  intros [dir im w body w' H|id dir im w0 sched job rd' Hs Hf Hj Hres] Hr.
  - destruct (sync_response_chunks X _ _ _ _ _ _ _ _ _ H Hr)
      as (doc & cs & Hc & Hch & Hl & ->).
    rewrite (chunk_loop_length _ _ _ _ Hl). split; [|eauto].
    unfold sync_extras, common_fields. destruct im; by simplify_map_eq.
  - pose proof (inv_reachable X id dir file im ctx mt w0 sched Hs Hf) as Hi.
    destruct (reached X id dir file im ctx mt w0 sched) as [t w]. simpl in Hj.
    destruct (inv_result X id dir file im ctx mt _ _ _ _ Hi Hj Hres) as [Heq Hlo].
    injection Heq as ->.
    destruct (job_result_chunks X _ _ _ _ _ _ _ Hlo)
      as (doc & cs & recs' & Hc & Hch & Hl & Hrd).
    rewrite Hrd, async_extras_chunks, lookup_insert_eq in Hr. injection Hr as ->.
    rewrite (chunk_loop_length _ _ _ _ Hl). split; [|eauto]. rewrite Hrd.
    unfold async_extras, common_fields. case_bool_decide; by simplify_map_eq.
Qed.

End RecordTexts.

(** ** The further properties applied to the scenarios *)

Import Demo Scenario Cases.

(** The outcome of the job that ran to its end on [notes.txt]. *)
Lemma job_record_tells_pipeline_outcome_witness :
  supported (suffix_lower X (filename notes)) = true ∧
  fresh_dir tmp empty_world ∧
  (26 ≤ runs undisturbed)%nat ∧
  job_store ended.2 !! jid = Some (record_of ended) ∧
  match job_outcome X notes true None with
  | inr rd =>
      fields (record_of ended) "completed" 100 ∧
      record_of ended !! "result" = Some (PDict rd) ∧
      record_of ended !! "error" = None ∧ is_Some (record_of ended !! "completed_at")
  | inl e =>
      fields (record_of ended) "failed" 0 ∧
      record_of ended !! "error" = Some (PStr (str_exn e)) ∧
      record_of ended !! "result" = None ∧ is_Some (record_of ended !! "failed_at")
  end.
Proof.
  assert (supported (suffix_lower X (filename notes)) = true) as Hs
    by (vm_compute; reflexivity).
  assert (fresh_dir tmp empty_world) as Hf.
  { split; [discriminate|]. split; [|reflexivity].
    intros k job H. vm_compute in H. discriminate. }
  assert (26 ≤ runs undisturbed)%nat as Hn by (vm_compute; lia).
  assert (job_store ended.2 !! jid = Some (record_of ended)) as Hj
    by (vm_compute; reflexivity).
  split; [exact Hs|]. split; [exact Hf|]. split; [exact Hn|]. split; [exact Hj|].
  exact (job_record_tells_pipeline_outcome X jid tmp notes false true None empty_world
           undisturbed _ Hs Hf Hn Hj).
Defined.

(** The job and the synchronous conversion on [blank.md], which the
    converter refuses. *)
Lemma job_fails_as_synchronous_conversion_fails_witness :
  supported (suffix_lower X (filename blank)) = true ∧
  fresh_dir tmp empty_world ∧
  (26 ≤ runs undisturbed)%nat ∧
  job_store ended_blank.2 !! jid = Some (record_of ended_blank) ∧
  (record_of ended_blank !! "error" = Some (PStr "empty document") ↔
   blank_reply.1 = JSON (failure_body blank "empty document")).
Proof.
  assert (supported (suffix_lower X (filename blank)) = true) as Hs
    by (vm_compute; reflexivity).
  assert (fresh_dir tmp empty_world) as Hf.
  { split; [discriminate|]. split; [|reflexivity].
    intros k job H. vm_compute in H. discriminate. }
  assert (26 ≤ runs undisturbed)%nat as Hn by (vm_compute; lia).
  assert (job_store ended_blank.2 !! jid = Some (record_of ended_blank)) as Hj
    by (vm_compute; reflexivity).
  split; [exact Hs|]. split; [exact Hf|]. split; [exact Hn|]. split; [exact Hj|].
  exact (job_fails_as_synchronous_conversion_fails X jid tmp blank false true None
           empty_world undisturbed _ tmp' false empty_world "empty document"
           Hs Hf Hn Hj).
Defined.





(** The record of [notes.txt] after two statements of the job. *)
Lemma job_record_keeps_its_identity_witness :
  supported (suffix_lower X (filename notes)) = true ∧
  job_store started.2 !! jid = Some (record_of started) ∧
  record_of started !! "job_id" = Some (PStr jid) ∧
  record_of started !! "filename" = Some (PStr (filename notes)).
Proof.
  assert (supported (suffix_lower X (filename notes)) = true) as Hs
    by (vm_compute; reflexivity).
  assert (job_store started.2 !! jid = Some (record_of started)) as Hj
    by (vm_compute; reflexivity).
  split; [exact Hs|]. split; [exact Hj|].
  destruct (job_record_keeps_its_identity X jid tmp notes false true None empty_world
              early _ Hs Hj) as (H1 & H2 & _).
  split; [exact H1|exact H2].
Defined.



(** The first record of the synchronous conversion of [notes.txt]. *)
Lemma document_records_are_paged_or_sectioned_witness :
  suffix_lower X (filename notes) ≠ ".xlsx" ∧
  chunked_result X notes true None (body_of sync_reply.1) ∧
  body_of sync_reply.1 !! "chunks"
    = Some (PList (chunks_of (body_of sync_reply.1))) ∧
  (∀ r, chunks_of (body_of sync_reply.1) !! 0%nat = Some r →
        ∃ d, r = PDict d ∧ paged_or_sectioned 0 d).
Proof.
  assert (suffix_lower X (filename notes) ≠ ".xlsx") as He
    by (vm_compute; discriminate).
  assert (chunked_result X notes true None (body_of sync_reply.1)) as Hc.
  { apply (sync_result X notes true None tmp' false empty_world _ sync_reply.2).
    vm_compute. reflexivity. }
  assert (body_of sync_reply.1 !! "chunks"
            = Some (PList (chunks_of (body_of sync_reply.1)))) as Hr
    by (vm_compute; reflexivity).
  split; [exact He|]. split; [exact Hc|]. split; [exact Hr|].
  intros r Hi.
  exact (document_records_are_paged_or_sectioned X notes true None _ _ 0%nat r
           He Hc Hr Hi).
Defined.

(** The first record of the synchronous conversion of [Book.XLSX]. *)
Lemma spreadsheet_records_name_their_sheets_witness :
  suffix_lower X (filename sheet) = ".xlsx" ∧
  chunked_result X sheet true None (body_of sheet_reply.1) ∧
  body_of sheet_reply.1 !! "chunks"
    = Some (PList (chunks_of (body_of sheet_reply.1))) ∧
  (∀ r, chunks_of (body_of sheet_reply.1) !! 0%nat = Some r →
        ∃ d, r = PDict d ∧ sheet_located d).
Proof.
  assert (suffix_lower X (filename sheet) = ".xlsx") as He
    by (vm_compute; reflexivity).
  assert (chunked_result X sheet true None (body_of sheet_reply.1)) as Hc.
  { apply (sync_result X sheet true None tmp' false empty_world _ sheet_reply.2).
    vm_compute. reflexivity. }
  assert (body_of sheet_reply.1 !! "chunks"
            = Some (PList (chunks_of (body_of sheet_reply.1)))) as Hr
    by (vm_compute; reflexivity).
  split; [exact He|]. split; [exact Hc|]. split; [exact Hr|].
  intros r Hi.
  exact (spreadsheet_records_name_their_sheets X sheet true None _ _ 0%nat r
           He Hc Hr Hi).
Defined.

(** The bounding boxes of the first record of [notes.txt]. *)
Lemma bbox_entries_back_the_pages_witness :
  chunked_result X notes true None (body_of sync_reply.1) ∧
  body_of sync_reply.1 !! "chunks"
    = Some (PList (chunks_of (body_of sync_reply.1))) ∧
  (∀ r, chunks_of (body_of sync_reply.1) !! 0%nat = Some r →
        ∃ d bs, r = PDict d ∧ d !! "bbox_info" = Some (PList bs) ∧
                Forall (λ b, ∃ n, bbox_page b = Some n ∧ 0 < n) bs).
Proof.
  assert (chunked_result X notes true None (body_of sync_reply.1)) as Hc.
  { apply (sync_result X notes true None tmp' false empty_world _ sync_reply.2).
    vm_compute. reflexivity. }
  assert (body_of sync_reply.1 !! "chunks"
            = Some (PList (chunks_of (body_of sync_reply.1)))) as Hr
    by (vm_compute; reflexivity).
  split; [exact Hc|]. split; [exact Hr|].
  intros r Hi.
  destruct (bbox_entries_back_the_pages X notes true None _ _ 0%nat r Hc Hr Hi)
    as (d & bs & H1 & H2 & H3 & _).
  exists d, bs. split; [exact H1|]. split; [exact H2|exact H3].
Defined.

(** The file type reported for [notes.txt]. *)
Lemma reported_file_type_is_listed_witness :
  chunked_result X notes true None (body_of sync_reply.1) ∧
  body_of sync_reply.1 !! "success" = Some (PBool true) ∧
  ∃ label, body_of sync_reply.1 !! "file_type" = Some (PStr label) ∧
           (suffix_lower X (filename notes), label) ∈ SUPPORTED_EXTENSIONS.
Proof.
  assert (chunked_result X notes true None (body_of sync_reply.1)) as Hc.
  { apply (sync_result X notes true None tmp' false empty_world _ sync_reply.2).
    vm_compute. reflexivity. }
  assert (body_of sync_reply.1 !! "success" = Some (PBool true)) as Hk
    by (vm_compute; reflexivity).
  split; [exact Hc|]. split; [exact Hk|].
  exact (reported_file_type_is_listed X notes true None _ Hc Hk).
Defined.


(** The listing right after the submission of [notes.txt]. *)
Lemma jobs_lists_every_record_witness :
  (∀ k job, job_store queued.2 !! k = Some job → is_Some (job !! "status")) ∧
  ∃ jobs, length jobs = size (job_store queued.2) ∧
          list_jobs queued.2 =
            JSON (<["jobs" := PList jobs]>
                 (<["total_jobs" := PInt (active_jobs queued.2)]> ∅)).
Proof.
  assert (∀ k job, job_store queued.2 !! k = Some job → is_Some (job !! "status")) as Hst.
  { intros k job. unfold reached, submitted. simpl.
    rewrite (submitted_world X jid tmp notes false true None empty_world)
      by (vm_compute; reflexivity).
    simpl. destruct (decide (k = jid)) as [->|Hne].
    - rewrite lookup_insert_eq. intros [= <-]. eexists. vm_compute. reflexivity.
    - rewrite lookup_insert_ne by done. intros H. vm_compute in H. discriminate. }
  split; [exact Hst|].
  destruct (jobs_lists_every_record queued.2 Hst) as (jobs & Hl & Hn & _).
  exists jobs. split; [exact Hn|exact Hl].
Defined.

(** The record of [notes.txt] deleted after two statements of the job. *)
Lemma deleted_job_ends_with_an_unhandled_KeyError_witness :
  before_cleanup (pc started.1) = true ∧
  (26 ≤ runs (early ++ Delete jid :: undisturbed))%nat ∧
  pc abandoned.1 = Finished ∧
  pending abandoned.1 = Some (KeyError jid) ∧
  job_store abandoned.2 !! jid = None.
Proof.
  assert (before_cleanup (pc started.1) = true) as Hb by (vm_compute; reflexivity).
  assert (26 ≤ runs (early ++ Delete jid :: undisturbed))%nat as Hn
    by (vm_compute; lia).
  split; [exact Hb|]. split; [exact Hn|].
  exact (deleted_job_ends_with_an_unhandled_KeyError X jid tmp notes false true None
           empty_world early undisturbed Hb Hn).
Defined.

(** The statuses seen over the job that ran to its end on [notes.txt]. *)
Lemma status_never_goes_back_witness :
  supported (suffix_lower X (filename notes)) = true ∧
  fresh_dir tmp empty_world ∧
  Sorted status_follows
    (observations X jid tmp notes false true None empty_world undisturbed).*1.
Proof.
  assert (supported (suffix_lower X (filename notes)) = true) as Hs
    by (vm_compute; reflexivity).
  assert (fresh_dir tmp empty_world) as Hf.
  { split; [discriminate|]. split; [|reflexivity].
    intros k job H. vm_compute in H. discriminate. }
  split; [exact Hs|]. split; [exact Hf|].
  exact (status_never_goes_back X jid tmp notes false true None empty_world
           undisturbed Hs Hf).
Defined.

(** The texts of the records of the synchronous conversion of [notes.txt]. *)
Lemma records_carry_the_chunk_texts_witness :
  chunked_result X notes true None (body_of sync_reply.1) ∧
  body_of sync_reply.1 !! "chunks"
    = Some (PList (chunks_of (body_of sync_reply.1))) ∧
  ∃ doc cs,
    convert X (filename notes) (content notes) = inr doc ∧
    chunk X (select_chunker None) doc = inr cs ∧
    ∀ r, chunks_of (body_of sync_reply.1) !! 0%nat = Some r →
      ∃ c d, cs !! 0%nat = Some c ∧ r = PDict d ∧
             d !! "text" = Some (PStr (text c)).
Proof.
  assert (chunked_result X notes true None (body_of sync_reply.1)) as Hc.
  { apply (sync_result X notes true None tmp' false empty_world _ sync_reply.2).
    vm_compute. reflexivity. }
  assert (body_of sync_reply.1 !! "chunks"
            = Some (PList (chunks_of (body_of sync_reply.1)))) as Hr
    by (vm_compute; reflexivity).
  split; [exact Hc|]. split; [exact Hr|].
  destruct (records_carry_the_chunk_texts X notes true None _ _ Hc Hr)
    as (doc & cs & Hd & Hk & Hall).
  exists doc, cs. split; [exact Hd|]. split; [exact Hk|].
  intros r Hi. destruct (Hall 0%nat r Hi) as (c & d & H1 & H2 & H3 & _).
  exists c, d. split; [exact H1|]. split; [exact H2|exact H3].
Defined.

(** The count reported by the synchronous conversion of [notes.txt]. *)
Lemma total_chunks_counts_the_records_witness :
  chunked_result X notes true None (body_of sync_reply.1) ∧
  body_of sync_reply.1 !! "chunks"
    = Some (PList (chunks_of (body_of sync_reply.1))) ∧
  body_of sync_reply.1 !! "total_chunks"
    = Some (PInt (Z.of_nat (length (chunks_of (body_of sync_reply.1))))).
Proof.
  assert (chunked_result X notes true None (body_of sync_reply.1)) as Hc.
  { apply (sync_result X notes true None tmp' false empty_world _ sync_reply.2).
    vm_compute. reflexivity. }
  assert (body_of sync_reply.1 !! "chunks"
            = Some (PList (chunks_of (body_of sync_reply.1)))) as Hr
    by (vm_compute; reflexivity).
  split; [exact Hc|]. split; [exact Hr|].
  exact (proj1 (total_chunks_counts_the_records X notes true None _ _ Hc Hr)).
Defined.

(** The message left by the job on [blank.md], which fails in conversion. *)
Lemma final_message_names_the_last_stage_witness :
  supported (suffix_lower X (filename blank)) = true ∧
  fresh_dir tmp empty_world ∧
  (26 ≤ runs undisturbed)%nat ∧
  job_store ended_blank.2 !! jid = Some (record_of ended_blank) ∧
  record_of ended_blank !! "message"
    = Some (PStr (last_stage_message X blank true None)).
Proof.
  assert (supported (suffix_lower X (filename blank)) = true) as Hs
    by (vm_compute; reflexivity).
  assert (fresh_dir tmp empty_world) as Hf.
  { split; [discriminate|]. split; [|reflexivity].
    intros k job H. vm_compute in H. discriminate. }
  assert (26 ≤ runs undisturbed)%nat as Hn by (vm_compute; lia).
  assert (job_store ended_blank.2 !! jid = Some (record_of ended_blank)) as Hj
    by (vm_compute; reflexivity).
  split; [exact Hs|]. split; [exact Hf|]. split; [exact Hn|]. split; [exact Hj|].
  exact (proj1 (final_message_names_the_last_stage X jid tmp blank false true None
                  empty_world undisturbed _ Hs Hf Hn Hj)).
Defined.
